(** * Apitor Q / Apitor X BLE peripherals of scratch-vm

    A shallow embedding of the two peripheral classes
    [src/extensions/scratch3_apitorq/index.js] (class [ApitorQ]) and
    [src/extensions/scratch3_apitorx/index.js] (class [ApitorX]), together
    with the command and sensor blocks of the two block classes and the
    values of their menus, followed by the properties of the command
    encoders, the notification decoder, the send path, the connection
    lifecycle and the blocks.

    Numbers are integers ([Z]); a value that may be [undefined] is a
    [jsval]; a [Uint8Array] is a list of integers in [0, 256); the mutable
    object state is threaded through a small state-and-exception monad. *)

From Stdlib Require Import ZArith List String Ascii Bool Lia Arith Wf_nat
  DecimalString.
Import ListNotations.
Open Scope Z_scope.

(** ** JavaScript values *)

(** The values that reach the encoders and the sensor fields: a number, or
    [undefined] (an argument left out, an index past the end of an array). *)
Inductive jsval : Type :=
| JNum (z : Z)
| JUndefined.

(** [v == n] for a number [n]: [undefined == n] is false. *)
Definition loose_eq (v : jsval) (n : Z) : bool :=
  match v with
  | JNum z => z =? n
  | JUndefined => false
  end.

(** [v != n]. *)
Definition loose_neq (v : jsval) (n : Z) : bool := negb (loose_eq v n).

(** [v < n] for a number [n]: [undefined < n] is false. *)
Definition js_lt (v : jsval) (n : Z) : bool :=
  match v with
  | JNum z => z <? n
  | JUndefined => false
  end.

(** [v > n] for a number [n]: [undefined > n] is false. *)
Definition js_gt (v : jsval) (n : Z) : bool :=
  match v with
  | JNum z => z >? n
  | JUndefined => false
  end.

(** [data[i]] on a [Uint8Array]: [undefined] past the end. *)
Definition index (data : list Z) (i : nat) : jsval :=
  match nth_error data i with
  | Some b => JNum b
  | None => JUndefined
  end.

(** [data.length]. *)
Definition length_of (data : list Z) : Z := Z.of_nat (List.length data).

(** Decimal text of a number, as string concatenation produces it. *)
Definition string_of_number (z : Z) : string :=
  NilZero.string_of_int (Z.to_int z).

(** [Uint8Array.prototype.toString]: the elements joined by commas. *)
Fixpoint join_numbers (data : list Z) : string :=
  match data with
  | [] => EmptyString
  | [b] => string_of_number b
  | b :: rest => string_of_number b ++ "," ++ join_numbers rest
  end%string.

(** ** Completions: a state monad with JavaScript exceptions *)

Inductive js_error : Type :=
| TypeError (what : string).

Inductive completion (S A : Type) : Type :=
| Normal (a : A) (s : S)
| Throw (e : js_error).
Arguments Normal {S A} a s.
Arguments Throw {S A} e.

Definition M (S A : Type) : Type := S -> completion S A.

Definition ret {S A} (a : A) : M S A := fun s => Normal a s.

Definition bind {S A B} (m : M S A) (k : A -> M S B) : M S B :=
  fun s =>
    match m s with
    | Normal a s' => k a s'
    | Throw e => Throw e
    end.

Definition get {S} : M S S := fun s => Normal s s.
Definition put {S} (s : S) : M S unit := fun _ => Normal tt s.
Definition modify {S} (f : S -> S) : M S unit := fun s => Normal tt (f s).
Definition throw {S A} (e : js_error) : M S A := fun _ => Throw e.

Declare Scope js_scope.
Delimit Scope js_scope with js.
Notation "x <- m ;; k" := (bind m (fun x => k))
  (at level 61, m at next level, right associativity) : js_scope.
Notation "m ;; k" := (bind m (fun _ => k))
  (at level 61, right associativity) : js_scope.

(** The state a completed call leaves behind, if it completed. *)
Definition state_of {S A} (c : completion S A) : option S :=
  match c with
  | Normal _ s => Some s
  | Throw _ => None
  end.

(** ** Promises *)

(** What a method hands back to its caller: [Promise.resolve()], the
    completion signal of a transport write, or a timer promise of the
    block layer. *)
Inductive Promise : Type :=
| Promise_resolve
| Promise_write
| Promise_timeout (ms : Z).

(** ** util/base64-util *)

Module Base64Util.

(** Value of one character of the base64 alphabet. *)
Definition sextet (c : ascii) : option Z :=
  let n := Z.of_nat (nat_of_ascii c) in
  if (65 <=? n) && (n <=? 90) then Some (n - 65)
  else if (97 <=? n) && (n <=? 122) then Some (n - 71)
  else if (48 <=? n) && (n <=? 57) then Some (n + 4)
  else if n =? 43 then Some 62
  else if n =? 47 then Some 63
  else None.

(** The sextets of a text up to its padding. *)
Fixpoint sextets (s : string) : list Z :=
  match s with
  | EmptyString => []
  | String c rest =>
      match sextet c with
      | Some v => v :: sextets rest
      | None => if Ascii.eqb c "=" then [] else sextets rest
      end
  end.

(** Four sextets make three bytes; a last group of three makes two and a
    last group of two makes one. *)
Fixpoint octets (l : list Z) : list Z :=
  match l with
  | a :: b :: c :: d :: rest =>
      let n := ((a * 64 + b) * 64 + c) * 64 + d in
      (n / 65536) mod 256 :: (n / 256) mod 256 :: n mod 256 :: octets rest
  | [a; b; c] =>
      let n := ((a * 64 + b) * 64 + c) * 64 in
      [(n / 65536) mod 256; (n / 256) mod 256]
  | [a; b] =>
      let n := (a * 64 + b) * 4096 in
      [(n / 65536) mod 256]
  | _ => []
  end.

(** Modelled from the spec: [util/base64-util] is not among the sources.
    The spec speaks of byte sequences only ("a fixed password byte
    sequence", "a byte sequence delivered asynchronously"); the text that
    carries them is base64 with the standard alphabet, decoded here.  The
    hexadecimal comment the source keeps next to each password literal
    agrees with this decoder (lemmas [password_Q_hex], [password_X_hex]). *)
Definition base64ToUint8Array (base64 : string) : list Z :=
  octets (sextets base64).

End Base64Util.

(** ** util/rateLimiter *)

Module RateLimiter.

(** Modelled from the spec: [util/rateLimiter.js] is not among the
    sources.  "Rate Limiter State: a count of sends within the current
    window plus the window's start time; mutated on every permitted send,
    reset when the window elapses." *)
Record t : Type := mk {
  maxRate : Z;
  count : Z;
  windowStart : Z
}.

(** Modelled from the spec: the "rolling 1-second window", in the
    milliseconds of the limiter's timer. *)
Definition window : Z := 1000.

(** Modelled from the spec: [new RateLimiter(maxRate)] at timer reading
    [now] starts with an empty window. *)
Definition new (maxRate now : Z) : t :=
  {| maxRate := maxRate; count := 0; windowStart := now |}.

(** A timer reading that falls into the current window of the limiter. *)
Definition in_window (rl : t) (now : Z) : Prop :=
  windowStart rl <= now < windowStart rl + window.

Definition elapsed (rl : t) (now : Z) : bool :=
  windowStart rl + window <=? now.

(** Modelled from the spec: "[okayToSend()]: returns true and increments
    the window counter if below the ceiling (20 sends per rolling 1-second
    window); otherwise returns false with no side effect."  A permitted
    send that finds the window elapsed opens a new window at [now] and is
    the first send counted in it. *)
Definition okayToSend (now : Z) (rl : t) : bool * t :=
  let fresh := elapsed rl now in
  let sent := if fresh then 0 else count rl in
  if sent <? maxRate rl
  then (true, {| maxRate := maxRate rl; count := sent + 1;
                 windowStart := if fresh then now else windowStart rl |})
  else (false, rl).

(** Successive calls at the timer readings [ts]. *)
Fixpoint okayToSend_all (ts : list Z) (rl : t) : list bool * t :=
  match ts with
  | [] => ([], rl)
  | now :: rest =>
      let (ok, rl1) := okayToSend now rl in
      let (oks, rl2) := okayToSend_all rest rl1 in
      (ok :: oks, rl2)
  end.

End RateLimiter.

(** ** io/ble *)

Module BLE.

(** One call of [write(serviceId, characteristicId, message, encoding)];
    [message] is the array handed to [Base64Util.uint8ArrayToBase64]. *)
Record WriteRequest : Type := mkWrite {
  serviceId : string;
  characteristicId : string;
  message : list jsval;
  encoding : string
}.

(** Modelled from the spec: [io/ble] is not among the sources.  "BLE
    transport collaborator: supplies scan(filter), connect(deviceId),
    disconnect(), write(serviceId, characteristicId, bytes, encoding) ->
    completion, subscribe(serviceId, characteristicId, onMessage),
    isConnected() -> bool."  The socket records what it was asked to do:
    the discovery filter, the device asked for, whether the link is up,
    the writes in the order they were submitted and the characteristics
    subscribed to. *)
Record t : Type := mk {
  filter_services : list string;
  filter_namePrefix : string;
  requested : option Z;
  connected : bool;
  written : list WriteRequest;
  subscribed : list (string * string)
}.

(** Modelled from the spec: [new BLE(runtime, extensionId, {filters: ...},
    onConnect, onReset)] "begins discovery filtered by a fixed service
    identifier and a fixed device-name prefix"; no link yet. *)
Definition new (services : list string) (namePrefix : string) : t :=
  {| filter_services := services; filter_namePrefix := namePrefix;
     requested := None; connected := false; written := [];
     subscribed := [] |}.

(** Modelled from the spec: "initiates connection to a previously
    discovered device id". *)
Definition connectPeripheral (id : Z) (b : t) : t :=
  {| filter_services := filter_services b;
     filter_namePrefix := filter_namePrefix b;
     requested := Some id; connected := connected b;
     written := written b; subscribed := subscribed b |}.

(** Modelled from the spec: the link comes up (before the socket calls
    [onConnect]) or goes down. *)
Definition set_connected (c : bool) (b : t) : t :=
  {| filter_services := filter_services b;
     filter_namePrefix := filter_namePrefix b;
     requested := requested b; connected := c;
     written := written b; subscribed := subscribed b |}.

(** Modelled from the spec: "closes the link if open". *)
Definition disconnect (b : t) : t := set_connected false b.

(** Modelled from the spec: "returns current boolean connection state". *)
Definition isConnected (b : t) : bool := connected b.

(** Modelled from the spec: "the sole path for outbound bytes; returns a
    completion signal". *)
Definition write (w : WriteRequest) (b : t) : Promise * t :=
  (Promise_write,
   {| filter_services := filter_services b;
      filter_namePrefix := filter_namePrefix b;
      requested := requested b; connected := connected b;
      written := written b ++ [w]; subscribed := subscribed b |}).

(** Modelled from the spec: "subscribes to the notification
    characteristic". *)
Definition startNotifications (service characteristic : string) (b : t) : t :=
  {| filter_services := filter_services b;
     filter_namePrefix := filter_namePrefix b;
     requested := requested b; connected := connected b;
     written := written b;
     subscribed := subscribed b ++ [(service, characteristic)] |}.

End BLE.

(** ** util/math-util and util/cast *)

Module MathUtil.

(** Modelled from the spec: [util/math-util] is not among the sources.
    "[colorId] must be wrapped/clamped into the valid palette range [0,7]
    by the caller before encoding": [wrapClamp(n, min, max)] wraps [n]
    into [[min, max]]. *)
Definition wrapClamp (n min max : Z) : Z :=
  let range := (max - min) + 1 in
  n - ((n - min) / range) * range.

End MathUtil.

Module Cast.

(** Modelled from the spec: [util/cast] is not among the sources.  The
    block layer "calls into the core with already-validated numeric
    arguments": on a number [toNumber] is the number itself. *)
Definition toNumber (n : Z) : Z := n.

End Cast.

(** ** extensions/scratch3_apitorq/index.js *)

Module scratch3_apitorq.

Module ApitorQ_BleUuids.
Definition UUID_SERVICE : string := "0000f0ff-0000-1000-8000-00805f9b34fb".
Definition UUID_CHARACTERISTIC_WRITE : string :=
  "0000f001-0000-1000-8000-00805f9b34fb".
Definition UUID_CHARACTERISTIC_READ_NOTIFY : string :=
  "0000f002-0000-1000-8000-00805f9b34fb".
End ApitorQ_BleUuids.

Module ApitorQ_LedID.
Definition L1 : Z := 0x01.
Definition L2 : Z := 0x02.
Definition ALL : Z := 0x04.
Definition ALLSTOP : Z := 0x03.
End ApitorQ_LedID.

Module ApitorQ_LedColorID.
Definition OFF : Z := 0x00.
Definition RED : Z := 0x01.
Definition ORANGE : Z := 0x02.
Definition YELLOW : Z := 0x03.
Definition GREEN : Z := 0x04.
Definition CYAN : Z := 0x05.
Definition BLUE : Z := 0x06.
Definition PURPLE : Z := 0x07.
End ApitorQ_LedColorID.

Module ApitorQ_MotorID.
Definition M1 : Z := 0x06.
Definition M2 : Z := 0x07.
Definition ALL : Z := 0x09.
Definition ALLSTOP : Z := 0x10.
End ApitorQ_MotorID.

Module ApitorQ_MotorDirectionID.
Definition D1 : Z := 0x01.
Definition D2 : Z := 0x02.
Definition STOP : Z := 0x00.
End ApitorQ_MotorDirectionID.

Module ApitorQ_InfraredID.
Definition R1 : Z := 0x00.
End ApitorQ_InfraredID.

Module ApitorQ_SensorColorID.
Definition R : Z := 0x01.
Definition G : Z := 0x02.
Definition B : Z := 0x03.
Definition X : Z := 0x04.
End ApitorQ_SensorColorID.

(** Milliseconds a block that sends a BLE message waits. *)
Definition BLESendInterval : Z := 100.

(** Maximum number of BLE message sends per second. *)
Definition BLESendRateMax : Z := 20.

Module ApitorQ.

(** The fields of the object, and the console it logs to. *)
Record t : Type := mk {
  _ble : option BLE.t;
  _rateLimiter : RateLimiter.t;
  _sensorColor : jsval;
  _sensorInfrared1 : jsval;
  _sensorPower : jsval;
  console : list string
}.

Definition set_ble (b : option BLE.t) (st : t) : t :=
  {| _ble := b; _rateLimiter := _rateLimiter st;
     _sensorColor := _sensorColor st;
     _sensorInfrared1 := _sensorInfrared1 st;
     _sensorPower := _sensorPower st; console := console st |}.

Definition set_rateLimiter (rl : RateLimiter.t) (st : t) : t :=
  {| _ble := _ble st; _rateLimiter := rl;
     _sensorColor := _sensorColor st;
     _sensorInfrared1 := _sensorInfrared1 st;
     _sensorPower := _sensorPower st; console := console st |}.

Definition set_sensors (color infrared1 power : jsval) (st : t) : t :=
  {| _ble := _ble st; _rateLimiter := _rateLimiter st;
     _sensorColor := color; _sensorInfrared1 := infrared1;
     _sensorPower := power; console := console st |}.

(** [console.log(line)]. *)
Definition console_log (line : string) : M t unit :=
  modify (fun st =>
    {| _ble := _ble st; _rateLimiter := _rateLimiter st;
       _sensorColor := _sensorColor st;
       _sensorInfrared1 := _sensorInfrared1 st;
       _sensorPower := _sensorPower st;
       console := console st ++ [line] |}).

(** A method call [this._ble.m(...)]: a [TypeError] when [_ble] is
    [null]. *)
Definition on_ble {A} (m : BLE.t -> A * BLE.t) : M t A :=
  fun st =>
    match _ble st with
    | Some b => let (a, b') := m b in Normal a (set_ble (Some b') st)
    | None => Throw (TypeError "this._ble is null")
    end.

(** [this._rateLimiter.okayToSend()] at timer reading [now]. *)
Definition rateLimiter_okayToSend (now : Z) : M t bool :=
  fun st =>
    let (ok, rl) := RateLimiter.okayToSend now (_rateLimiter st) in
    Normal ok (set_rateLimiter rl st).

(** The constructor, at timer reading [now]; the registrations with the
    runtime are the runtime's state, not the object's. *)
Definition constructor (now : Z) : t :=
  {| _ble := None;
     _rateLimiter := RateLimiter.new BLESendRateMax now;
     _sensorColor := JNum 0;
     _sensorInfrared1 := JNum 0;
     _sensorPower := JNum 0;
     console := [] |}.

Definition sensorInfrared1 (st : t) : jsval := _sensorInfrared1 st.
Definition sensorColor (st : t) : jsval := _sensorColor st.

Definition isConnected : M t bool :=
  (st <- get ;;
   match _ble st with
   | Some b => ret (BLE.isConnected b)
   | None => ret false
   end)%js.

(** [send(uuid, message, useLimiter = true)]; [now] is the timer reading
    the rate limiter sees if it is asked. *)
Definition send (uuid : string) (message : list jsval)
    (useLimiter : bool) (now : Z) : M t Promise :=
  let write :=
    on_ble (BLE.write
      {| BLE.serviceId := ApitorQ_BleUuids.UUID_SERVICE;
         BLE.characteristicId := uuid;
         BLE.message := message;
         BLE.encoding := "base64" |}) in
  (connected <- isConnected ;;
   if negb connected then ret Promise_resolve
   else if useLimiter then
     ok <- rateLimiter_okayToSend now ;;
     if negb ok then ret Promise_resolve else write
   else write)%js.

(** The array [cmd] that [setLED(id, color, offTime, onTime)] builds. *)
Definition setLED_cmd (id color offTime onTime : jsval) : list jsval :=
  let id :=
    if loose_eq color 0 && loose_eq id ApitorQ_LedID.ALL
    then JNum ApitorQ_LedID.ALLSTOP else id in
  [ JNum 0x55; JNum 0xaa; JNum 0x04;
    id;
    color;
    onTime;
    offTime ].

Definition setLED (id color offTime onTime : jsval) (now : Z)
    : M t Promise :=
  send ApitorQ_BleUuids.UUID_CHARACTERISTIC_WRITE
       (setLED_cmd id color offTime onTime) true now.

(** The array [cmd] that [setMotor(id, speed)] builds. *)
Definition setMotor_cmd (id : jsval) (speed : Z) : list jsval :=
  let '(direction, speed) :=
    if speed >? 0 then (ApitorQ_MotorDirectionID.D1, speed)
    else if speed =? 0 then (ApitorQ_MotorDirectionID.STOP, speed)
    else (ApitorQ_MotorDirectionID.D2, - speed) in
  let speed :=
    if direction =? ApitorQ_MotorDirectionID.STOP then 0 else speed in
  let id :=
    if (speed =? 0) && loose_eq id ApitorQ_MotorID.ALL
    then JNum ApitorQ_MotorID.ALLSTOP else id in
  [ JNum 0x55; JNum 0xaa; JNum 0x03;
    id;
    JNum direction;
    JNum speed ].

Definition setMotor (id : jsval) (speed : Z) (now : Z) : M t Promise :=
  send ApitorQ_BleUuids.UUID_CHARACTERISTIC_WRITE
       (setMotor_cmd id speed) true now.

(** [stopAll()]; the two sends may see different timer readings. *)
Definition stopAll (now1 now2 : Z) : M t unit :=
  (connected <- isConnected ;;
   if negb connected then ret tt
   else
     setMotor (JNum ApitorQ_MotorID.ALL) 0 now1 ;;
     setLED (JNum ApitorQ_LedID.ALL) (JNum ApitorQ_LedColorID.OFF)
            JUndefined JUndefined now2 ;;
     ret tt)%js.

Definition scan : M t unit :=
  (st <- get ;;
   match _ble st with
   | Some b => put (set_ble (Some (BLE.disconnect b)) st)
   | None => ret tt
   end ;;
   modify (set_ble
     (Some (BLE.new [ApitorQ_BleUuids.UUID_SERVICE] "ApitorTQ"))))%js.

Definition connect (id : Z) : M t unit :=
  (st <- get ;;
   match _ble st with
   | Some b => put (set_ble (Some (BLE.connectPeripheral id b)) st)
   | None => ret tt
   end)%js.

Definition reset : M t unit :=
  modify (set_sensors (JNum 0) (JNum 0) (JNum 0)).

Definition disconnect : M t unit :=
  (st <- get ;;
   match _ble st with
   | Some b => put (set_ble (Some (BLE.disconnect b)) st)
   | None => ret tt
   end ;;
   reset)%js.

(** The password, 55aa112064796f7a574f50663035326757565034. *)
Definition password : list Z :=
  Base64Util.base64ToUint8Array "VaoRIGR5b3pXT1BmMDUyZ1dWUDQ=".

Definition _sendPassword (now : Z) : M t unit :=
  (send ApitorQ_BleUuids.UUID_CHARACTERISTIC_WRITE
        (map JNum password) true now ;;
   ret tt)%js.

Definition _onConnect (now : Z) : M t unit :=
  (_sendPassword now ;;
   on_ble (fun b =>
     (tt, BLE.startNotifications
            ApitorQ_BleUuids.UUID_SERVICE
            ApitorQ_BleUuids.UUID_CHARACTERISTIC_READ_NOTIFY b)))%js.

Definition _onMessage (base64 : string) : M t unit :=
  let data := Base64Util.base64ToUint8Array base64 in
  if loose_neq (index data 0) 0x55 || loose_neq (index data 1) 0xaa
     || loose_neq (index data 2) 0x05 || negb (length_of data =? 8)
  then console_log ("Error: unknown message: " ++ join_numbers data)
  else modify (set_sensors (index data 4) (index data 5) (index data 7)).

(** Modelled from the spec: what [io/ble] does around the callbacks it
    was given.  "On success triggers the on-connect sequence; on failure
    or later link loss triggers reset."  The link coming up marks the
    socket connected and calls [_onConnect]. *)
Definition link_established (now : Z) : M t unit :=
  (on_ble (fun b => (tt, BLE.set_connected true b)) ;;
   _onConnect now)%js.

(** Modelled from the spec: the link going down marks the socket
    disconnected and calls [reset]. *)
Definition link_lost : M t unit :=
  (on_ble (fun b => (tt, BLE.set_connected false b)) ;;
   reset)%js.

(** Everything the current socket was asked to write. *)
Definition transmitted (st : t) : list BLE.WriteRequest :=
  match _ble st with
  | Some b => BLE.written b
  | None => []
  end.

(** The sensor snapshot. *)
Definition snapshot (st : t) : jsval * jsval * jsval :=
  (_sensorColor st, _sensorInfrared1 st, _sensorPower st).

End ApitorQ.

Module Scratch3ApitorQBlocks.

Record LedOnArgs : Type := mkLedOnArgs {
  on_LED_ID : Z;
  on_LED_COLOR_ID : Z
}.

Record LedBlinkArgs : Type := mkLedBlinkArgs {
  LED_ID : Z;
  LED_COLOR_ID : Z;
  ON_TIME : Z;
  OFF_TIME : Z
}.

Definition commandSetLedOn (args : LedOnArgs) (now : Z)
    : M ApitorQ.t Promise :=
  let id := Cast.toNumber (on_LED_ID args) in
  let color := Cast.toNumber (on_LED_COLOR_ID args) in
  let color := MathUtil.wrapClamp color 0 7 in
  (ApitorQ.setLED (JNum id) (JNum color) (JNum 0) (JNum 0) now ;;
   ret (Promise_timeout BLESendInterval))%js.

Definition commandSetLedBlink (args : LedBlinkArgs) (now : Z)
    : M ApitorQ.t Promise :=
  let id := Cast.toNumber (LED_ID args) in
  let color := Cast.toNumber (LED_COLOR_ID args) in
  let color := MathUtil.wrapClamp color 0 7 in
  let ontime := Cast.toNumber (ON_TIME args) in
  let offtime := Cast.toNumber (OFF_TIME args) in
  (ApitorQ.setLED (JNum id) (JNum color) (JNum ontime) (JNum offtime) now ;;
   ret (Promise_timeout BLESendInterval))%js.

Record MotorOnArgs : Type := mkMotorOnArgs {
  MOTOR_ID : Z;
  MOTOR_DIRECTION_ID : Z;
  MOTOR_SPEED : Z
}.

Record MotorOffArgs : Type := mkMotorOffArgs {
  off_MOTOR_ID : Z
}.

Record InfraredArgs : Type := mkInfraredArgs {
  INFRARED_ID : Z;
  OP : string;
  REFERENCE : Z
}.

Record ColorArgs : Type := mkColorArgs {
  SENSOR_COLOR_ID : Z
}.

(** The values of the menus [getInfo()] declares. *)
Definition menu_MOTOR_ID : list Z :=
  [ApitorQ_MotorID.M1; ApitorQ_MotorID.M2; ApitorQ_MotorID.ALL].

Definition menu_MOTOR_DIRECTION_ID : list Z :=
  [ApitorQ_MotorDirectionID.D1; ApitorQ_MotorDirectionID.D2].

Definition menu_MOTOR_SPEED : list Z :=
  [1; 2; 3; 4; 5; 6; 7; 8; 9; 10; 11; 12; 13; 14; 15; 16].

Definition menu_INFRARED_ID : list Z :=
  [ApitorQ_InfraredID.R1].

Definition menu_LED_ID : list Z :=
  [ApitorQ_LedID.L1; ApitorQ_LedID.L2; ApitorQ_LedID.ALL].

Definition menu_LED_COLOR_ID : list Z :=
  [ApitorQ_LedColorID.OFF; ApitorQ_LedColorID.RED;
   ApitorQ_LedColorID.ORANGE; ApitorQ_LedColorID.YELLOW;
   ApitorQ_LedColorID.GREEN; ApitorQ_LedColorID.CYAN;
   ApitorQ_LedColorID.BLUE; ApitorQ_LedColorID.PURPLE].

Definition menu_OP : list string := ["<"; "="; ">"]%string.

Definition menu_SENSOR_COLOR_ID : list Z :=
  [ApitorQ_SensorColorID.R; ApitorQ_SensorColorID.G;
   ApitorQ_SensorColorID.B; ApitorQ_SensorColorID.X].

Definition commandMotorOn (args : MotorOnArgs) (now : Z)
    : M ApitorQ.t Promise :=
  let id := Cast.toNumber (MOTOR_ID args) in
  let speed := Cast.toNumber (MOTOR_SPEED args) in
  let dir := Cast.toNumber (MOTOR_DIRECTION_ID args) in
  let speed :=
    if dir =? ApitorQ_MotorDirectionID.D2 then - speed else speed in
  (ApitorQ.setMotor (JNum id) speed now ;;
   ret (Promise_timeout BLESendInterval))%js.

Definition commandMotorOff (args : MotorOffArgs) (now : Z)
    : M ApitorQ.t Promise :=
  let id := Cast.toNumber (off_MOTOR_ID args) in
  (ApitorQ.setMotor (JNum id) 0 now ;;
   ret (Promise_timeout BLESendInterval))%js.

Definition reporterInfrared1 (p : ApitorQ.t) : jsval :=
  ApitorQ.sensorInfrared1 p.

Definition reporterColor (p : ApitorQ.t) : jsval :=
  ApitorQ.sensorColor p.

(** [hatInfrared(args)] on the peripheral [p]: the boolean it returns and
    the lines it hands to [log.warn]. *)
Definition hatInfrared (args : InfraredArgs) (p : ApitorQ.t)
    : bool * list string :=
  let id := Cast.toNumber (INFRARED_ID args) in
  let reference := Cast.toNumber (REFERENCE args) in
  let value := ApitorQ.sensorInfrared1 p in
  if String.eqb (OP args) "<" then (js_lt value reference, [])
  else if String.eqb (OP args) "=" then (loose_eq value reference, [])
  else if String.eqb (OP args) ">" then (js_gt value reference, [])
  else (false,
        [("Unknown comparison operator in hatInfrared: " ++ OP args)%string]).

Definition hatColor (args : ColorArgs) (p : ApitorQ.t) : bool :=
  loose_eq (ApitorQ.sensorColor p) (Cast.toNumber (SENSOR_COLOR_ID args)).

Definition booleanInfrared (args : InfraredArgs) (p : ApitorQ.t)
    : bool * list string :=
  hatInfrared args p.

Definition booleanColor (args : ColorArgs) (p : ApitorQ.t) : bool :=
  hatColor args p.

End Scratch3ApitorQBlocks.

End scratch3_apitorq.

(** ** extensions/scratch3_apitorx/index.js *)

Module scratch3_apitorx.

Module ApitorX_BleUuids.
Definition UUID_SERVICE : string := "0000f0ff-0000-1000-8000-00805f9b34fb".
Definition UUID_CHARACTERISTIC_WRITE : string :=
  "0000f001-0000-1000-8000-00805f9b34fb".
Definition UUID_CHARACTERISTIC_READ_NOTIFY : string :=
  "0000f002-0000-1000-8000-00805f9b34fb".
End ApitorX_BleUuids.

Module ApitorX_LedID.
Definition L1 : Z := 0x01.
Definition L2 : Z := 0x02.
Definition ALL : Z := 0x04.
Definition ALLSTOP : Z := 0x03.
End ApitorX_LedID.

Module ApitorX_LedColorID.
Definition OFF : Z := 0x00.
Definition RED : Z := 0x01.
Definition ORANGE : Z := 0x02.
Definition YELLOW : Z := 0x03.
Definition GREEN : Z := 0x04.
Definition CYAN : Z := 0x05.
Definition BLUE : Z := 0x06.
Definition PURPLE : Z := 0x07.
End ApitorX_LedColorID.

Module ApitorX_MotorID.
Definition M1 : Z := 0x06.
Definition M2 : Z := 0x07.
Definition M3 : Z := 0x08.
Definition ALL : Z := 0x09.
Definition ALLSTOP : Z := 0x10.
End ApitorX_MotorID.

Module ApitorX_MotorDirectionID.
Definition D1 : Z := 0x01.
Definition D2 : Z := 0x02.
Definition STOP : Z := 0x00.
End ApitorX_MotorDirectionID.

Module ApitorX_InfraredID.
Definition R1 : Z := 0x00.
Definition R2 : Z := 0x01.
End ApitorX_InfraredID.

Module ApitorX_SensorColorID.
Definition R : Z := 0x01.
Definition G : Z := 0x02.
Definition B : Z := 0x03.
Definition X : Z := 0x04.
End ApitorX_SensorColorID.

(** Milliseconds a block that sends a BLE message waits. *)
Definition BLESendInterval : Z := 100.

(** Maximum number of BLE message sends per second. *)
Definition BLESendRateMax : Z := 20.

Module ApitorX.

(** The fields of the object, and the console it logs to. *)
Record t : Type := mk {
  _ble : option BLE.t;
  _rateLimiter : RateLimiter.t;
  _sensorColor : jsval;
  _sensorInfrared1 : jsval;
  _sensorInfrared2 : jsval;
  _sensorPower : jsval;
  console : list string
}.

Definition set_ble (b : option BLE.t) (st : t) : t :=
  {| _ble := b; _rateLimiter := _rateLimiter st;
     _sensorColor := _sensorColor st;
     _sensorInfrared1 := _sensorInfrared1 st;
     _sensorInfrared2 := _sensorInfrared2 st;
     _sensorPower := _sensorPower st; console := console st |}.

Definition set_rateLimiter (rl : RateLimiter.t) (st : t) : t :=
  {| _ble := _ble st; _rateLimiter := rl;
     _sensorColor := _sensorColor st;
     _sensorInfrared1 := _sensorInfrared1 st;
     _sensorInfrared2 := _sensorInfrared2 st;
     _sensorPower := _sensorPower st; console := console st |}.

Definition set_sensors (color infrared1 infrared2 power : jsval)
    (st : t) : t :=
  {| _ble := _ble st; _rateLimiter := _rateLimiter st;
     _sensorColor := color; _sensorInfrared1 := infrared1;
     _sensorInfrared2 := infrared2;
     _sensorPower := power; console := console st |}.

(** [console.log(line)]. *)
Definition console_log (line : string) : M t unit :=
  modify (fun st =>
    {| _ble := _ble st; _rateLimiter := _rateLimiter st;
       _sensorColor := _sensorColor st;
       _sensorInfrared1 := _sensorInfrared1 st;
       _sensorInfrared2 := _sensorInfrared2 st;
       _sensorPower := _sensorPower st;
       console := console st ++ [line] |}).

(** A method call [this._ble.m(...)]: a [TypeError] when [_ble] is
    [null]. *)
Definition on_ble {A} (m : BLE.t -> A * BLE.t) : M t A :=
  fun st =>
    match _ble st with
    | Some b => let (a, b') := m b in Normal a (set_ble (Some b') st)
    | None => Throw (TypeError "this._ble is null")
    end.

(** [this._rateLimiter.okayToSend()] at timer reading [now]. *)
Definition rateLimiter_okayToSend (now : Z) : M t bool :=
  fun st =>
    let (ok, rl) := RateLimiter.okayToSend now (_rateLimiter st) in
    Normal ok (set_rateLimiter rl st).

(** The constructor, at timer reading [now]; the registrations with the
    runtime are the runtime's state, not the object's. *)
Definition constructor (now : Z) : t :=
  {| _ble := None;
     _rateLimiter := RateLimiter.new BLESendRateMax now;
     _sensorColor := JNum 0;
     _sensorInfrared1 := JNum 0;
     _sensorInfrared2 := JNum 0;
     _sensorPower := JNum 0;
     console := [] |}.

Definition sensorInfrared1 (st : t) : jsval := _sensorInfrared1 st.
Definition sensorInfrared2 (st : t) : jsval := _sensorInfrared2 st.
Definition sensorColor (st : t) : jsval := _sensorColor st.

Definition isConnected : M t bool :=
  (st <- get ;;
   match _ble st with
   | Some b => ret (BLE.isConnected b)
   | None => ret false
   end)%js.

(** [send(uuid, message, useLimiter = true)]; [now] is the timer reading
    the rate limiter sees if it is asked. *)
Definition send (uuid : string) (message : list jsval)
    (useLimiter : bool) (now : Z) : M t Promise :=
  let write :=
    on_ble (BLE.write
      {| BLE.serviceId := ApitorX_BleUuids.UUID_SERVICE;
         BLE.characteristicId := uuid;
         BLE.message := message;
         BLE.encoding := "base64" |}) in
  (connected <- isConnected ;;
   if negb connected then ret Promise_resolve
   else if useLimiter then
     ok <- rateLimiter_okayToSend now ;;
     if negb ok then ret Promise_resolve else write
   else write)%js.

(** The array [cmd] that [setLED(id, color, offTime, onTime)] builds. *)
Definition setLED_cmd (id color offTime onTime : jsval) : list jsval :=
  let id :=
    if loose_eq color 0 && loose_eq id ApitorX_LedID.ALL
    then JNum ApitorX_LedID.ALLSTOP else id in
  [ JNum 0x55; JNum 0xaa; JNum 0x04;
    id;
    color;
    onTime;
    offTime ].

Definition setLED (id color offTime onTime : jsval) (now : Z)
    : M t Promise :=
  send ApitorX_BleUuids.UUID_CHARACTERISTIC_WRITE
       (setLED_cmd id color offTime onTime) true now.

(** The array [cmd] that [setMotor(id, speed)] builds. *)
Definition setMotor_cmd (id : jsval) (speed : Z) : list jsval :=
  let '(direction, speed) :=
    if speed >? 0 then (ApitorX_MotorDirectionID.D1, speed)
    else if speed =? 0 then (ApitorX_MotorDirectionID.STOP, speed)
    else (ApitorX_MotorDirectionID.D2, - speed) in
  let speed :=
    if direction =? ApitorX_MotorDirectionID.STOP then 0 else speed in
  let id :=
    if (speed =? 0) && loose_eq id ApitorX_MotorID.ALL
    then JNum ApitorX_MotorID.ALLSTOP else id in
  [ JNum 0x55; JNum 0xaa; JNum 0x03;
    id;
    JNum direction;
    JNum speed ].

Definition setMotor (id : jsval) (speed : Z) (now : Z) : M t Promise :=
  send ApitorX_BleUuids.UUID_CHARACTERISTIC_WRITE
       (setMotor_cmd id speed) true now.

(** [stopAll()]; the two sends may see different timer readings. *)
Definition stopAll (now1 now2 : Z) : M t unit :=
  (connected <- isConnected ;;
   if negb connected then ret tt
   else
     setMotor (JNum ApitorX_MotorID.ALL) 0 now1 ;;
     setLED (JNum ApitorX_LedID.ALL) (JNum ApitorX_LedColorID.OFF)
            JUndefined JUndefined now2 ;;
     ret tt)%js.

Definition scan : M t unit :=
  (st <- get ;;
   match _ble st with
   | Some b => put (set_ble (Some (BLE.disconnect b)) st)
   | None => ret tt
   end ;;
   modify (set_ble
     (Some (BLE.new [ApitorX_BleUuids.UUID_SERVICE] "ApitorTX"))))%js.

Definition connect (id : Z) : M t unit :=
  (st <- get ;;
   match _ble st with
   | Some b => put (set_ble (Some (BLE.connectPeripheral id b)) st)
   | None => ret tt
   end)%js.

Definition reset : M t unit :=
  modify (set_sensors (JNum 0) (JNum 0) (JNum 0) (JNum 0)).

Definition disconnect : M t unit :=
  (st <- get ;;
   match _ble st with
   | Some b => put (set_ble (Some (BLE.disconnect b)) st)
   | None => ret tt
   end ;;
   reset)%js.

(** The password, 55aa112055494d384c5679526e75706973654276. *)
Definition password : list Z :=
  Base64Util.base64ToUint8Array "VaoRIFVJTThMVnlSbnVwaXNlQnY=".

Definition _sendPassword (now : Z) : M t unit :=
  (send ApitorX_BleUuids.UUID_CHARACTERISTIC_WRITE
        (map JNum password) true now ;;
   ret tt)%js.

Definition _onConnect (now : Z) : M t unit :=
  (_sendPassword now ;;
   on_ble (fun b =>
     (tt, BLE.startNotifications
            ApitorX_BleUuids.UUID_SERVICE
            ApitorX_BleUuids.UUID_CHARACTERISTIC_READ_NOTIFY b)))%js.

Definition _onMessage (base64 : string) : M t unit :=
  let data := Base64Util.base64ToUint8Array base64 in
  if loose_neq (index data 0) 0x55 || loose_neq (index data 1) 0xaa
     || loose_neq (index data 2) 0x05 || negb (length_of data =? 8)
  then console_log ("Error: unknown message: " ++ join_numbers data)
  else modify (set_sensors (index data 4) (index data 5) (index data 6)
                           (index data 7)).

(** Modelled from the spec: what [io/ble] does around the callbacks it
    was given.  "On success triggers the on-connect sequence; on failure
    or later link loss triggers reset."  The link coming up marks the
    socket connected and calls [_onConnect]. *)
Definition link_established (now : Z) : M t unit :=
  (on_ble (fun b => (tt, BLE.set_connected true b)) ;;
   _onConnect now)%js.

(** Modelled from the spec: the link going down marks the socket
    disconnected and calls [reset]. *)
Definition link_lost : M t unit :=
  (on_ble (fun b => (tt, BLE.set_connected false b)) ;;
   reset)%js.

(** Everything the current socket was asked to write. *)
Definition transmitted (st : t) : list BLE.WriteRequest :=
  match _ble st with
  | Some b => BLE.written b
  | None => []
  end.

(** The sensor snapshot. *)
Definition snapshot (st : t) : jsval * jsval * jsval * jsval :=
  (_sensorColor st, _sensorInfrared1 st, _sensorInfrared2 st,
   _sensorPower st).

End ApitorX.

Module Scratch3ApitorXBlocks.

Record LedOnArgs : Type := mkLedOnArgs {
  on_LED_ID : Z;
  on_LED_COLOR_ID : Z
}.

Record LedBlinkArgs : Type := mkLedBlinkArgs {
  LED_ID : Z;
  LED_COLOR_ID : Z;
  ON_TIME : Z;
  OFF_TIME : Z
}.

Definition commandSetLedOn (args : LedOnArgs) (now : Z)
    : M ApitorX.t Promise :=
  let id := Cast.toNumber (on_LED_ID args) in
  let color := Cast.toNumber (on_LED_COLOR_ID args) in
  let color := MathUtil.wrapClamp color 0 7 in
  (ApitorX.setLED (JNum id) (JNum color) (JNum 0) (JNum 0) now ;;
   ret (Promise_timeout BLESendInterval))%js.

Definition commandSetLedBlink (args : LedBlinkArgs) (now : Z)
    : M ApitorX.t Promise :=
  let id := Cast.toNumber (LED_ID args) in
  let color := Cast.toNumber (LED_COLOR_ID args) in
  let color := MathUtil.wrapClamp color 0 7 in
  let ontime := Cast.toNumber (ON_TIME args) in
  let offtime := Cast.toNumber (OFF_TIME args) in
  (ApitorX.setLED (JNum id) (JNum color) (JNum ontime) (JNum offtime) now ;;
   ret (Promise_timeout BLESendInterval))%js.

Record MotorOnArgs : Type := mkMotorOnArgs {
  MOTOR_ID : Z;
  MOTOR_DIRECTION_ID : Z;
  MOTOR_SPEED : Z
}.

Record MotorOffArgs : Type := mkMotorOffArgs {
  off_MOTOR_ID : Z
}.

Record InfraredArgs : Type := mkInfraredArgs {
  INFRARED_ID : Z;
  OP : string;
  REFERENCE : Z
}.

Record ColorArgs : Type := mkColorArgs {
  SENSOR_COLOR_ID : Z
}.

(** The values of the menus [getInfo()] declares. *)
Definition menu_MOTOR_ID : list Z :=
  [ApitorX_MotorID.M1; ApitorX_MotorID.M2; ApitorX_MotorID.M3;
   ApitorX_MotorID.ALL].

Definition menu_MOTOR_DIRECTION_ID : list Z :=
  [ApitorX_MotorDirectionID.D1; ApitorX_MotorDirectionID.D2].

Definition menu_MOTOR_SPEED : list Z :=
  [1; 2; 3; 4; 5; 6; 7; 8; 9; 10; 11; 12; 13; 14; 15; 16].

Definition menu_INFRARED_ID : list Z :=
  [ApitorX_InfraredID.R1; ApitorX_InfraredID.R2].

Definition menu_LED_ID : list Z :=
  [ApitorX_LedID.L1; ApitorX_LedID.L2; ApitorX_LedID.ALL].

Definition menu_LED_COLOR_ID : list Z :=
  [ApitorX_LedColorID.OFF; ApitorX_LedColorID.RED;
   ApitorX_LedColorID.ORANGE; ApitorX_LedColorID.YELLOW;
   ApitorX_LedColorID.GREEN; ApitorX_LedColorID.CYAN;
   ApitorX_LedColorID.BLUE; ApitorX_LedColorID.PURPLE].

Definition menu_OP : list string := ["<"; "="; ">"]%string.

Definition menu_SENSOR_COLOR_ID : list Z :=
  [ApitorX_SensorColorID.R; ApitorX_SensorColorID.G;
   ApitorX_SensorColorID.B; ApitorX_SensorColorID.X].

Definition commandMotorOn (args : MotorOnArgs) (now : Z)
    : M ApitorX.t Promise :=
  let id := Cast.toNumber (MOTOR_ID args) in
  let speed := Cast.toNumber (MOTOR_SPEED args) in
  let dir := Cast.toNumber (MOTOR_DIRECTION_ID args) in
  let speed :=
    if dir =? ApitorX_MotorDirectionID.D2 then - speed else speed in
  (ApitorX.setMotor (JNum id) speed now ;;
   ret (Promise_timeout BLESendInterval))%js.

Definition commandMotorOff (args : MotorOffArgs) (now : Z)
    : M ApitorX.t Promise :=
  let id := Cast.toNumber (off_MOTOR_ID args) in
  (ApitorX.setMotor (JNum id) 0 now ;;
   ret (Promise_timeout BLESendInterval))%js.

Definition reporterInfrared1 (p : ApitorX.t) : jsval :=
  ApitorX.sensorInfrared1 p.

Definition reporterInfrared2 (p : ApitorX.t) : jsval :=
  ApitorX.sensorInfrared2 p.

Definition reporterColor (p : ApitorX.t) : jsval :=
  ApitorX.sensorColor p.

(** [hatInfrared(args)] on the peripheral [p]: the boolean it returns and
    the lines it hands to [log.warn]. *)
Definition hatInfrared (args : InfraredArgs) (p : ApitorX.t)
    : bool * list string :=
  let id := Cast.toNumber (INFRARED_ID args) in
  let reference := Cast.toNumber (REFERENCE args) in
  let value := 
    if id =? ApitorX_InfraredID.R1
    then ApitorX.sensorInfrared1 p
    else ApitorX.sensorInfrared2 p in
  if String.eqb (OP args) "<" then (js_lt value reference, [])
  else if String.eqb (OP args) "=" then (loose_eq value reference, [])
  else if String.eqb (OP args) ">" then (js_gt value reference, [])
  else (false,
        [("Unknown comparison operator in hatInfrared: " ++ OP args)%string]).

Definition hatColor (args : ColorArgs) (p : ApitorX.t) : bool :=
  loose_eq (ApitorX.sensorColor p) (Cast.toNumber (SENSOR_COLOR_ID args)).

Definition booleanInfrared (args : InfraredArgs) (p : ApitorX.t)
    : bool * list string :=
  hatInfrared args p.

Definition booleanColor (args : ColorArgs) (p : ApitorX.t) : bool :=
  hatColor args p.

End Scratch3ApitorXBlocks.

End scratch3_apitorx.

(** * Vocabulary of the properties *)

Import scratch3_apitorq scratch3_apitorx.

(** The request [send(uuid, message)] hands to the socket of an ApitorQ. *)
Definition request_Q (uuid : string) (message : list jsval) : BLE.WriteRequest :=
  {| BLE.serviceId := ApitorQ_BleUuids.UUID_SERVICE;
     BLE.characteristicId := uuid;
     BLE.message := message;
     BLE.encoding := "base64" |}.

(** The request [send(uuid, message)] hands to the socket of an ApitorX. *)
Definition request_X (uuid : string) (message : list jsval) : BLE.WriteRequest :=
  {| BLE.serviceId := ApitorX_BleUuids.UUID_SERVICE;
     BLE.characteristicId := uuid;
     BLE.message := message;
     BLE.encoding := "base64" |}.

(** A command written to the write characteristic. *)
Definition command_Q (cmd : list jsval) : BLE.WriteRequest :=
  request_Q ApitorQ_BleUuids.UUID_CHARACTERISTIC_WRITE cmd.

Definition command_X (cmd : list jsval) : BLE.WriteRequest :=
  request_X ApitorX_BleUuids.UUID_CHARACTERISTIC_WRITE cmd.

(** The requests a call that completed left in the socket's write log. *)
Definition transmitted_Q {A} (c : completion ApitorQ.t A)
    : option (list BLE.WriteRequest) :=
  option_map ApitorQ.transmitted (state_of c).

Definition transmitted_X {A} (c : completion ApitorX.t A)
    : option (list BLE.WriteRequest) :=
  option_map ApitorX.transmitted (state_of c).

(** The frames the spec calls valid: exactly 8 bytes, the magic preamble
    0x55 0xAA and the type byte 0x05. *)
Definition frame_accepted (data : list Z) : Prop :=
  List.length data = 8%nat /\
  nth_error data 0 = Some 0x55 /\
  nth_error data 1 = Some 0xaa /\
  nth_error data 2 = Some 0x05.

(** The test both [_onMessage] methods make before they discard a frame. *)
Definition discards (data : list Z) : bool :=
  loose_neq (index data 0) 0x55 || loose_neq (index data 1) 0xaa
  || loose_neq (index data 2) 0x05 || negb (length_of data =? 8).

(** A value a [Uint8Array] can hold. *)
Definition is_byte (b : Z) : Prop := 0 <= b < 256.

(** The character of the base64 alphabet that stands for [v]. *)
Definition digit (v : Z) : ascii :=
  ascii_of_nat (Z.to_nat
    (if v <? 26 then v + 65
     else if v <? 52 then v + 71
     else if v <? 62 then v - 4
     else if v =? 62 then 43 else 47)).

(** Three bytes make four sextets; a last group of two makes three and a
    last single byte makes two. *)
Fixpoint sextets_of (data : list Z) : list Z :=
  match data with
  | a :: b :: c :: rest =>
      a / 4 :: (a mod 4) * 16 + b / 16 :: (b mod 16) * 4 + c / 64 :: c mod 64
        :: sextets_of rest
  | [a; b] => [a / 4; (a mod 4) * 16 + b / 16; (b mod 16) * 4]
  | [a] => [a / 4; (a mod 4) * 16]
  | [] => []
  end.

(** A base64 text that carries the bytes [data]. *)
Definition base64_of (data : list Z) : string :=
  string_of_list_ascii (map digit (sextets_of data)).

(** The frame [0x55, 0xAA, 0x04, id, color, b5, b6] of an LED command. *)
Definition led_frame (id color b5 b6 : jsval) : list jsval :=
  [JNum 0x55; JNum 0xaa; JNum 0x04; id; color; b5; b6].

(** The block arguments ON_TIME = 2, OFF_TIME = 5 for LED 1 in red. *)
Definition blink_2_5_Q : Scratch3ApitorQBlocks.LedBlinkArgs :=
  {| Scratch3ApitorQBlocks.LED_ID := 1;
     Scratch3ApitorQBlocks.LED_COLOR_ID := 1;
     Scratch3ApitorQBlocks.ON_TIME := 2;
     Scratch3ApitorQBlocks.OFF_TIME := 5 |}.

Definition blink_2_5_X : Scratch3ApitorXBlocks.LedBlinkArgs :=
  {| Scratch3ApitorXBlocks.LED_ID := 1;
     Scratch3ApitorXBlocks.LED_COLOR_ID := 1;
     Scratch3ApitorXBlocks.ON_TIME := 2;
     Scratch3ApitorXBlocks.OFF_TIME := 5 |}.

(** The state a call leaves behind ([s] itself if it threw). *)
Definition after {S A} (m : M S A) (s : S) : S :=
  match m s with
  | Normal _ s' => s'
  | Throw _ => s
  end.

(** The same call [n] times in a row. *)
Fixpoint times {S} (n : nat) (m : M S unit) : M S unit :=
  match n with
  | O => ret tt
  | S k => (m ;; times k m)%js
  end.

(** The frame of [setMotor(ALL, 0)]. *)
Definition stop_motors_cmd : list jsval :=
  [JNum 0x55; JNum 0xaa; JNum 0x03; JNum 0x10; JNum 0; JNum 0].

(** The frame of [setLED(ALL, OFF)], the two tick arguments left out. *)
Definition leds_off_cmd : list jsval :=
  [JNum 0x55; JNum 0xaa; JNum 0x04; JNum 0x03; JNum 0; JUndefined; JUndefined].

(** A session of an ApitorQ: discovery, connection, the link coming up at
    timer reading 0 (the handshake is the first send of the window), then
    [n] motor commands at timer reading 10. *)
Definition session_Q (n : nat) : M ApitorQ.t unit :=
  (ApitorQ.scan ;; ApitorQ.connect 1 ;; ApitorQ.link_established 0 ;;
   times n (ApitorQ.setMotor (JNum ApitorQ_MotorID.M1) 5 10 ;; ret tt))%js.

(** The session that fills the window: the handshake and 19 commands. *)
Definition busy_session_Q : M ApitorQ.t unit := session_Q 19.

(** After such a session the link drops and the device is found and
    connected again within the same second; the socket has marked the link
    up and is about to call [_onConnect]. *)
Definition reconnecting_Q : M ApitorQ.t unit :=
  (busy_session_Q ;; ApitorQ.link_lost ;;
   ApitorQ.scan ;; ApitorQ.connect 1 ;;
   ApitorQ.on_ble (fun b => (tt, BLE.set_connected true b)))%js.

(** A session of an ApitorX: discovery, connection, the link coming up at
    timer reading 0 (the handshake is the first send of the window), then
    [n] motor commands at timer reading 10. *)
Definition session_X (n : nat) : M ApitorX.t unit :=
  (ApitorX.scan ;; ApitorX.connect 1 ;; ApitorX.link_established 0 ;;
   times n (ApitorX.setMotor (JNum ApitorX_MotorID.M1) 5 10 ;; ret tt))%js.

(** The session that fills the window: the handshake and 19 commands. *)
Definition busy_session_X : M ApitorX.t unit := session_X 19.

(** After such a session the link drops and the device is found and
    connected again within the same second; the socket has marked the link
    up and is about to call [_onConnect]. *)
Definition reconnecting_X : M ApitorX.t unit :=
  (busy_session_X ;; ApitorX.link_lost ;;
   ApitorX.scan ;; ApitorX.connect 1 ;;
   ApitorX.on_ble (fun b => (tt, BLE.set_connected true b)))%js.

(** ** Vocabulary of the further properties *)

(** A frame whose third element counts the elements that follow the magic
    bytes 0x55 0xAA and the count itself. *)
Definition well_framed (cmd : list jsval) : Prop :=
  exists k rest,
    cmd = JNum 0x55 :: JNum 0xaa :: JNum k :: rest /\
    Z.of_nat (List.length rest) = k.

(** The last frame of [frames] that [_onMessage] does not discard. *)
Definition last_accepted (frames : list (list Z)) : option (list Z) :=
  find (fun data => negb (discards data)) (rev frames).

(** The diagnostic lines [_onMessage] logs for [frames], in order. *)
Definition diagnostics (frames : list (list Z)) : list string :=
  map (fun data => ("Error: unknown message: " ++ join_numbers data)%string)
      (filter discards frames).

(** The characteristics the current socket of an ApitorQ is subscribed to. *)
Definition subscriptions_Q (st : ApitorQ.t) : list (string * string) :=
  match ApitorQ._ble st with
  | Some b => BLE.subscribed b
  | None => []
  end.

(** What can happen to an ApitorQ: the methods the runtime and the blocks
    call on it, and what its socket reports. *)
Inductive event_Q : Type :=
| Q_scan
| Q_connect (id : Z)
| Q_disconnect
| Q_reset
| Q_setLED (id color offTime onTime : jsval) (now : Z)
| Q_setMotor (id : jsval) (speed now : Z)
| Q_stopAll (now1 now2 : Z)
| Q_link_established (now : Z)
| Q_link_lost
| Q_notification (base64 : string)
| Q_commandMotorOn (args : Scratch3ApitorQBlocks.MotorOnArgs) (now : Z)
| Q_commandMotorOff (args : Scratch3ApitorQBlocks.MotorOffArgs) (now : Z)
| Q_commandSetLedOn (args : Scratch3ApitorQBlocks.LedOnArgs) (now : Z)
| Q_commandSetLedBlink (args : Scratch3ApitorQBlocks.LedBlinkArgs) (now : Z).

Definition happen_Q (e : event_Q) : M ApitorQ.t unit :=
  match e with
  | Q_scan => ApitorQ.scan
  | Q_connect id => ApitorQ.connect id
  | Q_disconnect => ApitorQ.disconnect
  | Q_reset => ApitorQ.reset
  | Q_setLED id color offTime onTime now =>
      (ApitorQ.setLED id color offTime onTime now ;; ret tt)%js
  | Q_setMotor id speed now =>
      (ApitorQ.setMotor id speed now ;; ret tt)%js
  | Q_stopAll now1 now2 => ApitorQ.stopAll now1 now2
  | Q_link_established now => ApitorQ.link_established now
  | Q_link_lost => ApitorQ.link_lost
  | Q_notification base64 => ApitorQ._onMessage base64
  | Q_commandMotorOn args now =>
      (Scratch3ApitorQBlocks.commandMotorOn args now ;; ret tt)%js
  | Q_commandMotorOff args now =>
      (Scratch3ApitorQBlocks.commandMotorOff args now ;; ret tt)%js
  | Q_commandSetLedOn args now =>
      (Scratch3ApitorQBlocks.commandSetLedOn args now ;; ret tt)%js
  | Q_commandSetLedBlink args now =>
      (Scratch3ApitorQBlocks.commandSetLedBlink args now ;; ret tt)%js
  end.

Fixpoint history_Q (es : list event_Q) : M ApitorQ.t unit :=
  match es with
  | [] => ret tt
  | e :: rest => (happen_Q e ;; history_Q rest)%js
  end.

(** The states an ApitorQ can be in: what some history of events makes of
    a freshly constructed object. *)
Definition reachable_Q (st : ApitorQ.t) : Prop :=
  exists now es, history_Q es (ApitorQ.constructor now) = Normal tt st.

(** Every sensor field holds a byte. *)
Definition sensors_are_bytes_Q (st : ApitorQ.t) : Prop :=
  exists c i1 p,
    ApitorQ.snapshot st = (JNum c, JNum i1, JNum p) /\
    is_byte c /\ is_byte i1 /\ is_byte p.

(** A request on the write characteristic that carries a well-framed
    message as base64. *)
Definition proper_request_Q (w : BLE.WriteRequest) : Prop :=
  BLE.serviceId w = ApitorQ_BleUuids.UUID_SERVICE /\
  BLE.characteristicId w = ApitorQ_BleUuids.UUID_CHARACTERISTIC_WRITE /\
  BLE.encoding w = "base64"%string /\
  well_framed (BLE.message w).

(** The notifications [msgs] delivered one after the other. *)
Fixpoint notifications_Q (msgs : list string) : M ApitorQ.t unit :=
  match msgs with
  | [] => ret tt
  | m :: rest => (ApitorQ._onMessage m ;; notifications_Q rest)%js
  end.

(** The snapshot [_onMessage] takes from an accepted frame. *)
Definition fields_Q (data : list Z) : jsval * jsval * jsval :=
  (index data 4, index data 5, index data 7).

(** Rate-limited sends one after the other: each a characteristic, a
    message and the timer reading the limiter sees. *)
Fixpoint sends_Q (ms : list (string * list jsval * Z)) : M ApitorQ.t unit :=
  match ms with
  | [] => ret tt
  | (uuid, message, now) :: rest =>
      (ApitorQ.send uuid message true now ;; sends_Q rest)%js
  end.

(** The characteristics the current socket of an ApitorX is subscribed to. *)
Definition subscriptions_X (st : ApitorX.t) : list (string * string) :=
  match ApitorX._ble st with
  | Some b => BLE.subscribed b
  | None => []
  end.

(** What can happen to an ApitorX: the methods the runtime and the blocks
    call on it, and what its socket reports. *)
Inductive event_X : Type :=
| X_scan
| X_connect (id : Z)
| X_disconnect
| X_reset
| X_setLED (id color offTime onTime : jsval) (now : Z)
| X_setMotor (id : jsval) (speed now : Z)
| X_stopAll (now1 now2 : Z)
| X_link_established (now : Z)
| X_link_lost
| X_notification (base64 : string)
| X_commandMotorOn (args : Scratch3ApitorXBlocks.MotorOnArgs) (now : Z)
| X_commandMotorOff (args : Scratch3ApitorXBlocks.MotorOffArgs) (now : Z)
| X_commandSetLedOn (args : Scratch3ApitorXBlocks.LedOnArgs) (now : Z)
| X_commandSetLedBlink (args : Scratch3ApitorXBlocks.LedBlinkArgs) (now : Z).

Definition happen_X (e : event_X) : M ApitorX.t unit :=
  match e with
  | X_scan => ApitorX.scan
  | X_connect id => ApitorX.connect id
  | X_disconnect => ApitorX.disconnect
  | X_reset => ApitorX.reset
  | X_setLED id color offTime onTime now =>
      (ApitorX.setLED id color offTime onTime now ;; ret tt)%js
  | X_setMotor id speed now =>
      (ApitorX.setMotor id speed now ;; ret tt)%js
  | X_stopAll now1 now2 => ApitorX.stopAll now1 now2
  | X_link_established now => ApitorX.link_established now
  | X_link_lost => ApitorX.link_lost
  | X_notification base64 => ApitorX._onMessage base64
  | X_commandMotorOn args now =>
      (Scratch3ApitorXBlocks.commandMotorOn args now ;; ret tt)%js
  | X_commandMotorOff args now =>
      (Scratch3ApitorXBlocks.commandMotorOff args now ;; ret tt)%js
  | X_commandSetLedOn args now =>
      (Scratch3ApitorXBlocks.commandSetLedOn args now ;; ret tt)%js
  | X_commandSetLedBlink args now =>
      (Scratch3ApitorXBlocks.commandSetLedBlink args now ;; ret tt)%js
  end.

Fixpoint history_X (es : list event_X) : M ApitorX.t unit :=
  match es with
  | [] => ret tt
  | e :: rest => (happen_X e ;; history_X rest)%js
  end.

(** The states an ApitorX can be in: what some history of events makes of
    a freshly constructed object. *)
Definition reachable_X (st : ApitorX.t) : Prop :=
  exists now es, history_X es (ApitorX.constructor now) = Normal tt st.

(** Every sensor field holds a byte. *)
Definition sensors_are_bytes_X (st : ApitorX.t) : Prop :=
  exists c i1 i2 p,
    ApitorX.snapshot st = (JNum c, JNum i1, JNum i2, JNum p) /\
    is_byte c /\ is_byte i1 /\ is_byte i2 /\ is_byte p.

(** A request on the write characteristic that carries a well-framed
    message as base64. *)
Definition proper_request_X (w : BLE.WriteRequest) : Prop :=
  BLE.serviceId w = ApitorX_BleUuids.UUID_SERVICE /\
  BLE.characteristicId w = ApitorX_BleUuids.UUID_CHARACTERISTIC_WRITE /\
  BLE.encoding w = "base64"%string /\
  well_framed (BLE.message w).

(** The notifications [msgs] delivered one after the other. *)
Fixpoint notifications_X (msgs : list string) : M ApitorX.t unit :=
  match msgs with
  | [] => ret tt
  | m :: rest => (ApitorX._onMessage m ;; notifications_X rest)%js
  end.

(** The snapshot [_onMessage] takes from an accepted frame. *)
Definition fields_X (data : list Z) : jsval * jsval * jsval * jsval :=
  (index data 4, index data 5, index data 6, index data 7).

(** Rate-limited sends one after the other: each a characteristic, a
    message and the timer reading the limiter sees. *)
Fixpoint sends_X (ms : list (string * list jsval * Z)) : M ApitorX.t unit :=
  match ms with
  | [] => ret tt
  | (uuid, message, now) :: rest =>
      (ApitorX.send uuid message true now ;; sends_X rest)%js
  end.

(** [m] keeps [P]: a call that completes from a state in [P] ends in [P]. *)
Definition preserves {S A} (P : S -> Prop) (m : M S A) : Prop :=
  forall s a s', m s = Normal a s' -> P s -> P s'.

(** The limiter was built with the ceiling 20 and its counter is within
    [0, 20]. *)
Definition limiter_in_bounds (rl : RateLimiter.t) : Prop :=
  RateLimiter.maxRate rl = 20 /\ 0 <= RateLimiter.count rl <= 20.

(** What holds of an ApitorQ throughout its life. *)
Definition invariant_Q (st : ApitorQ.t) : Prop :=
  sensors_are_bytes_Q st /\
  Forall proper_request_Q (ApitorQ.transmitted st) /\
  Forall (fun s => s = (ApitorQ_BleUuids.UUID_SERVICE,
                        ApitorQ_BleUuids.UUID_CHARACTERISTIC_READ_NOTIFY))
         (subscriptions_Q st) /\
  limiter_in_bounds (ApitorQ._rateLimiter st).

(** What holds of an ApitorX throughout its life. *)
Definition invariant_X (st : ApitorX.t) : Prop :=
  sensors_are_bytes_X st /\
  Forall proper_request_X (ApitorX.transmitted st) /\
  Forall (fun s => s = (ApitorX_BleUuids.UUID_SERVICE,
                        ApitorX_BleUuids.UUID_CHARACTERISTIC_READ_NOTIFY))
         (subscriptions_X st) /\
  limiter_in_bounds (ApitorX._rateLimiter st).

(** * Properties *)

(** The passwords are decoded once, in [password_Q_hex] and
    [password_X_hex]; elsewhere they stay folded. *)
Arguments ApitorQ.password : simpl never.
Arguments ApitorX.password : simpl never.

(** ** The notification decoder *)

Lemma frame_accepted_shape (data : list Z) :
  frame_accepted data <->
  exists b3 b4 b5 b6 b7, data = [0x55; 0xaa; 0x05; b3; b4; b5; b6; b7].
Proof.
  split.
  - intros (Hlen & H0 & H1 & H2).
    do 8 (destruct data as [|? data]; [discriminate Hlen|]).
    destruct data; [|discriminate Hlen].
    cbn in H0, H1, H2. injection H0 as ->. injection H1 as ->.
    injection H2 as ->. now eauto 6.
  - intros (b3 & b4 & b5 & b6 & b7 & ->). now repeat split.
Qed.

Lemma discards_false_iff (data : list Z) :
  discards data = false <-> frame_accepted data.
Proof.
  unfold discards, loose_neq, index, length_of. split.
  - intros H.
    repeat (apply orb_false_iff in H; destruct H as [H ?]).
    repeat match goal with
           | E : negb _ = false |- _ => apply negb_false_iff in E
           end.
    destruct (nth_error data 0) as [b0|] eqn:E0; [|discriminate].
    destruct (nth_error data 1) as [b1|] eqn:E1; [|discriminate].
    destruct (nth_error data 2) as [b2|] eqn:E2; [|discriminate].
    cbn in *.
    repeat match goal with
           | E : (_ =? _) = true |- _ => apply Z.eqb_eq in E
           end.
    subst. unfold frame_accepted. repeat split; try assumption. lia.
  - intros (b3 & b4 & b5 & b6 & b7 & ->)%frame_accepted_shape. reflexivity.
Qed.

Lemma discards_true_iff (data : list Z) :
  discards data = true <-> ~ frame_accepted data.
Proof.
  rewrite <- discards_false_iff. destruct (discards data); split; congruence.
Qed.

Lemma frame_accepted_dec (data : list Z) :
  {frame_accepted data} + {~ frame_accepted data}.
Proof.
  destruct (discards data) eqn:E.
  - right. now apply discards_true_iff.
  - left. now apply discards_false_iff.
Defined.

(** Every sequence of bytes is carried by some base64 text. *)

Lemma sextet_digit_nat (n : nat) :
  (n < 64)%nat -> Base64Util.sextet (digit (Z.of_nat n)) = Some (Z.of_nat n).
Proof.
  intros Hn. do 64 (destruct n as [|n]; [reflexivity|]). lia.
Qed.

Lemma sextet_digit (v : Z) : 0 <= v < 64 -> Base64Util.sextet (digit v) = Some v.
Proof.
  intros H. rewrite <- (Z2Nat.id v) by lia. apply sextet_digit_nat. lia.
Qed.

Lemma sextets_digits (l : list Z) :
  Forall (fun v => 0 <= v < 64) l ->
  Base64Util.sextets (string_of_list_ascii (map digit l)) = l.
Proof.
  induction 1 as [|v l Hv _ IH]; [reflexivity|].
  cbn [map string_of_list_ascii Base64Util.sextets]. now rewrite sextet_digit, IH.
Qed.

Lemma group_value a b c :
  is_byte a -> is_byte b -> is_byte c ->
  (((a / 4) * 64 + ((a mod 4) * 16 + b / 16)) * 64
   + ((b mod 16) * 4 + c / 64)) * 64 + c mod 64
  = a * 65536 + b * 256 + c.
Proof. unfold is_byte. intros Ha Hb Hc. Z.div_mod_to_equations. lia. Qed.

Lemma group_bytes a b c :
  is_byte a -> is_byte b -> is_byte c ->
  ((a * 65536 + b * 256 + c) / 65536) mod 256 = a /\
  ((a * 65536 + b * 256 + c) / 256) mod 256 = b /\
  (a * 65536 + b * 256 + c) mod 256 = c.
Proof.
  unfold is_byte. intros Ha Hb Hc.
  repeat split; Z.div_mod_to_equations; lia.
Qed.

Lemma sextets_of_range (n : nat) :
  forall data : list Z,
    (List.length data <= n)%nat ->
    Forall is_byte data ->
    Forall (fun v => 0 <= v < 64) (sextets_of data).
Proof.
  unfold is_byte.
  induction n as [n IH] using (well_founded_induction lt_wf).
  intros data Hlen Hall.
  destruct data as [|a [|b [|c rest]]]; cbn [sextets_of].
  - constructor.
  - inversion Hall; subst.
    repeat constructor; Z.div_mod_to_equations; lia.
  - inversion Hall as [|? ? Ha Hall1]; subst. inversion Hall1; subst.
    repeat constructor; Z.div_mod_to_equations; lia.
  - inversion Hall as [|? ? Ha Hall1]; subst.
    inversion Hall1 as [|? ? Hb Hall2]; subst.
    inversion Hall2 as [|? ? Hc Hall3]; subst.
    repeat (constructor; [Z.div_mod_to_equations; lia|]).
    apply (IH (List.length rest)); [cbn in Hlen; lia | lia | assumption].
Qed.

Lemma octets_sextets_of (n : nat) :
  forall data : list Z,
    (List.length data <= n)%nat ->
    Forall is_byte data ->
    Base64Util.octets (sextets_of data) = data.
Proof.
  induction n as [n IH] using (well_founded_induction lt_wf).
  intros data Hlen Hall.
  destruct data as [|a [|b [|c rest]]]; cbn [sextets_of Base64Util.octets].
  - reflexivity.
  - inversion Hall as [|? ? Ha _]; subst. unfold is_byte in Ha.
    f_equal. Z.div_mod_to_equations. lia.
  - inversion Hall as [|? ? Ha Hall1]; subst.
    inversion Hall1 as [|? ? Hb _]; subst. unfold is_byte in Ha, Hb.
    f_equal; [|f_equal]; Z.div_mod_to_equations; lia.
  - inversion Hall as [|? ? Ha Hall1]; subst.
    inversion Hall1 as [|? ? Hb Hall2]; subst.
    inversion Hall2 as [|? ? Hc Hall3]; subst.
    cbv zeta. rewrite group_value by assumption.
    destruct (group_bytes a b c Ha Hb Hc) as (-> & -> & ->).
    do 3 f_equal.
    apply (IH (List.length rest)); [cbn in Hlen; lia | lia | assumption].
Qed.

Lemma base64_roundtrip (data : list Z) :
  Forall is_byte data -> Base64Util.base64ToUint8Array (base64_of data) = data.
Proof.
  intros Hall. unfold Base64Util.base64ToUint8Array, base64_of.
  rewrite sextets_digits by now apply (sextets_of_range (List.length data)).
  now apply (octets_sextets_of (List.length data)).
Qed.

(** C1 — notification decoding of both variants.  Every sequence of bytes
    is the content of some notification, and for every notification
    delivered to [_onMessage], with [data] the bytes it carries: if [data]
    is exactly 8 bytes long and starts 0x55 0xAA 0x05, the call returns
    normally in a state whose snapshot is (data[4], data[5], data[7]) on
    ApitorQ and (data[4], data[5], data[6], data[7]) on ApitorX, that is
    color = data[4], infrared1 = data[5], (ApitorX only) infrared2 =
    data[6], power = data[7], with the console, the socket and the limiter
    as they were; otherwise it returns normally having logged one diagnostic
    line and left every sensor field (and the socket and limiter) unchanged;
    hence the frame is accepted (no diagnostic is logged) if and only if the
    length and magic-byte conditions hold.  No call throws. *)
Theorem onMessage_accepts_iff_valid_frame :
  (forall data : list Z,
      Forall is_byte data ->
      exists base64, Base64Util.base64ToUint8Array base64 = data) /\
  forall (base64 : string) (data : list Z),
    Base64Util.base64ToUint8Array base64 = data ->
    (forall st : ApitorQ.t,
        (frame_accepted data ->
         exists b3 b4 b5 b6 b7 st',
           data = [0x55; 0xaa; 0x05; b3; b4; b5; b6; b7] /\
           ApitorQ._onMessage base64 st = Normal tt st' /\
           ApitorQ.snapshot st' = (JNum b4, JNum b5, JNum b7) /\
           ApitorQ._sensorColor st' = JNum b4 /\
           ApitorQ._sensorInfrared1 st' = JNum b5 /\
           ApitorQ._sensorPower st' = JNum b7 /\
           ApitorQ.console st' = ApitorQ.console st /\
           ApitorQ._ble st' = ApitorQ._ble st /\
           ApitorQ._rateLimiter st' = ApitorQ._rateLimiter st) /\
        (~ frame_accepted data ->
         exists st',
           ApitorQ._onMessage base64 st = Normal tt st' /\
           ApitorQ.console st' =
           ApitorQ.console st
             ++ [("Error: unknown message: " ++ join_numbers data)%string] /\
           ApitorQ.snapshot st' = ApitorQ.snapshot st /\
           ApitorQ._ble st' = ApitorQ._ble st /\
           ApitorQ._rateLimiter st' = ApitorQ._rateLimiter st) /\
        (frame_accepted data <->
         exists st',
           ApitorQ._onMessage base64 st = Normal tt st' /\
           ApitorQ.console st' = ApitorQ.console st)) /\
    (forall st : ApitorX.t,
        (frame_accepted data ->
         exists b3 b4 b5 b6 b7 st',
           data = [0x55; 0xaa; 0x05; b3; b4; b5; b6; b7] /\
           ApitorX._onMessage base64 st = Normal tt st' /\
           ApitorX.snapshot st' = (JNum b4, JNum b5, JNum b6, JNum b7) /\
           ApitorX._sensorColor st' = JNum b4 /\
           ApitorX._sensorInfrared1 st' = JNum b5 /\
           ApitorX._sensorInfrared2 st' = JNum b6 /\
           ApitorX._sensorPower st' = JNum b7 /\
           ApitorX.console st' = ApitorX.console st /\
           ApitorX._ble st' = ApitorX._ble st /\
           ApitorX._rateLimiter st' = ApitorX._rateLimiter st) /\
        (~ frame_accepted data ->
         exists st',
           ApitorX._onMessage base64 st = Normal tt st' /\
           ApitorX.console st' =
           ApitorX.console st
             ++ [("Error: unknown message: " ++ join_numbers data)%string] /\
           ApitorX.snapshot st' = ApitorX.snapshot st /\
           ApitorX._ble st' = ApitorX._ble st /\
           ApitorX._rateLimiter st' = ApitorX._rateLimiter st) /\
        (frame_accepted data <->
         exists st',
           ApitorX._onMessage base64 st = Normal tt st' /\
           ApitorX.console st' = ApitorX.console st)).
Proof.
  split.
  { intros data Hbytes. exists (base64_of data). now apply base64_roundtrip. }
  intros base64 data Hdata.
  assert (Hgrow : forall (l : list string) (x : string), l ++ [x] <> l).
  { intros l x E. apply (f_equal (@List.length string)) in E.
    rewrite length_app in E. cbn in E. lia. }
  split; intros st.
  - unfold ApitorQ._onMessage. rewrite Hdata. fold (discards data).
    destruct (frame_accepted_dec data) as [Hok | Hbad].
    + pose proof Hok as Hd%discards_false_iff. rewrite Hd.
      pose proof Hok as (b3 & b4 & b5 & b6 & b7 & ->)%frame_accepted_shape.
      split; [|split; [|split]].
      * intros _. exists b3, b4, b5, b6, b7. eexists.
        split; [reflexivity|]. split; [reflexivity|]. now repeat split.
      * intros Hno. now destruct Hno.
      * intros _. eexists. split; reflexivity.
      * intros _. exact Hok.
    + pose proof Hbad as Hd%discards_true_iff. rewrite Hd.
      split; [|split; [|split]].
      * intros Hok. now destruct Hbad.
      * intros _. eexists. split; [reflexivity|]. now repeat split.
      * intros Hok. now destruct Hbad.
      * intros (st' & Hrun & Hcons). exfalso.
        injection Hrun as <-. cbn in Hcons. now apply Hgrow in Hcons.
  - unfold ApitorX._onMessage. rewrite Hdata. fold (discards data).
    destruct (frame_accepted_dec data) as [Hok | Hbad].
    + pose proof Hok as Hd%discards_false_iff. rewrite Hd.
      pose proof Hok as (b3 & b4 & b5 & b6 & b7 & ->)%frame_accepted_shape.
      split; [|split; [|split]].
      * intros _. exists b3, b4, b5, b6, b7. eexists.
        split; [reflexivity|]. split; [reflexivity|]. now repeat split.
      * intros Hno. now destruct Hno.
      * intros _. eexists. split; reflexivity.
      * intros _. exact Hok.
    + pose proof Hbad as Hd%discards_true_iff. rewrite Hd.
      split; [|split; [|split]].
      * intros Hok. now destruct Hbad.
      * intros _. eexists. split; [reflexivity|]. now repeat split.
      * intros Hok. now destruct Hbad.
      * intros (st' & Hrun & Hcons). exfalso.
        injection Hrun as <-. cbn in Hcons. now apply Hgrow in Hcons.
Qed.

(** The spec's scenarios: the 8 bytes 55 AA 05 00 03 07 00 09 give color 3,
    infrared1 7 and power 9 on a fresh ApitorQ; the 4 bytes 55 AA 05 00 are
    discarded by a fresh ApitorX with one diagnostic. *)
Lemma onMessage_accepts_iff_valid_frame_witness :
  (Forall is_byte [0x55; 0xaa; 0x05; 0x00; 0x03; 0x07; 0x00; 0x09] /\
   exists base64,
     Base64Util.base64ToUint8Array base64 =
     [0x55; 0xaa; 0x05; 0x00; 0x03; 0x07; 0x00; 0x09]) /\
  (Base64Util.base64ToUint8Array "VaoFAAMHAAk=" =
     [0x55; 0xaa; 0x05; 0x00; 0x03; 0x07; 0x00; 0x09] /\
   frame_accepted [0x55; 0xaa; 0x05; 0x00; 0x03; 0x07; 0x00; 0x09] /\
   exists b3 b4 b5 b6 b7 st',
     [0x55; 0xaa; 0x05; 0x00; 0x03; 0x07; 0x00; 0x09] =
       [0x55; 0xaa; 0x05; b3; b4; b5; b6; b7] /\
     ApitorQ._onMessage "VaoFAAMHAAk=" (ApitorQ.constructor 0) =
       Normal tt st' /\
     ApitorQ.snapshot st' = (JNum b4, JNum b5, JNum b7) /\
     ApitorQ._sensorColor st' = JNum b4 /\
     ApitorQ._sensorInfrared1 st' = JNum b5 /\
     ApitorQ._sensorPower st' = JNum b7 /\
     ApitorQ.console st' = ApitorQ.console (ApitorQ.constructor 0) /\
     ApitorQ._ble st' = ApitorQ._ble (ApitorQ.constructor 0) /\
     ApitorQ._rateLimiter st' = ApitorQ._rateLimiter (ApitorQ.constructor 0)) /\
  (Base64Util.base64ToUint8Array "VaoFAA==" = [0x55; 0xaa; 0x05; 0x00] /\
   ~ frame_accepted [0x55; 0xaa; 0x05; 0x00] /\
   exists st',
     ApitorX._onMessage "VaoFAA==" (ApitorX.constructor 0) = Normal tt st' /\
     ApitorX.console st' =
       ApitorX.console (ApitorX.constructor 0)
         ++ [("Error: unknown message: "
                ++ join_numbers [0x55; 0xaa; 0x05; 0x00])%string] /\
     ApitorX.snapshot st' = ApitorX.snapshot (ApitorX.constructor 0) /\
     ApitorX._ble st' = ApitorX._ble (ApitorX.constructor 0) /\
     ApitorX._rateLimiter st' = ApitorX._rateLimiter (ApitorX.constructor 0)).
Proof.
  assert (Hok : frame_accepted [0x55; 0xaa; 0x05; 0x00; 0x03; 0x07; 0x00; 0x09])
    by (repeat split).
  assert (Hbad : ~ frame_accepted [0x55; 0xaa; 0x05; 0x00])
    by (intros [Hlen _]; discriminate Hlen).
  assert (Hbytes : Forall is_byte
                     [0x55; 0xaa; 0x05; 0x00; 0x03; 0x07; 0x00; 0x09])
    by (repeat (apply Forall_cons; [unfold is_byte; lia|]); apply Forall_nil).
  split; [split; [exact Hbytes|]|split].
  - exact (proj1 onMessage_accepts_iff_valid_frame _ Hbytes).
  - split; [reflexivity|]. split; [exact Hok|].
    destruct (proj2 onMessage_accepts_iff_valid_frame "VaoFAAMHAAk="%string
                [0x55; 0xaa; 0x05; 0x00; 0x03; 0x07; 0x00; 0x09] eq_refl)
      as [HQ _].
    destruct (HQ (ApitorQ.constructor 0)) as [Hacc _].
    exact (Hacc Hok).
  - split; [reflexivity|]. split; [exact Hbad|].
    destruct (proj2 onMessage_accepts_iff_valid_frame "VaoFAA=="%string
                [0x55; 0xaa; 0x05; 0x00] eq_refl)
      as [_ HX].
    destruct (HX (ApitorX.constructor 0)) as (_ & Hrej & _).
    exact (Hrej Hbad).
Defined.

(** The spec's scenario: the 4 bytes 55 AA 05 00 are discarded with a
    diagnostic and leave the fields as they were. *)
Example onMessage_short_frame :
  Base64Util.base64ToUint8Array "VaoFAA==" = [0x55; 0xaa; 0x05; 0x00] /\
  exists st',
    ApitorX._onMessage "VaoFAA==" (ApitorX.constructor 0) = Normal tt st' /\
    ApitorX.console st' = ["Error: unknown message: 85,170,5,0"%string] /\
    ApitorX.snapshot st' = (JNum 0, JNum 0, JNum 0, JNum 0).
Proof.
  split; [reflexivity|]. eexists. split; [reflexivity|]. split; reflexivity.
Qed.

(** ** The send path *)

Lemma isConnected_Q_run (st : ApitorQ.t) :
  ApitorQ.isConnected st =
  Normal (match ApitorQ._ble st with
          | Some b => BLE.connected b
          | None => false
          end) st.
Proof. unfold ApitorQ.isConnected, bind, get. now destruct (ApitorQ._ble st). Qed.

Lemma isConnected_X_run (st : ApitorX.t) :
  ApitorX.isConnected st =
  Normal (match ApitorX._ble st with
          | Some b => BLE.connected b
          | None => false
          end) st.
Proof. unfold ApitorX.isConnected, bind, get. now destruct (ApitorX._ble st). Qed.

Lemma isConnected_Q_true (st : ApitorQ.t) :
  ApitorQ.isConnected st = Normal true st ->
  exists b, ApitorQ._ble st = Some b /\ BLE.connected b = true.
Proof.
  rewrite isConnected_Q_run. destruct (ApitorQ._ble st) as [b|].
  - intros [= H]. now exists b.
  - discriminate.
Qed.

Lemma isConnected_X_true (st : ApitorX.t) :
  ApitorX.isConnected st = Normal true st ->
  exists b, ApitorX._ble st = Some b /\ BLE.connected b = true.
Proof.
  rewrite isConnected_X_run. destruct (ApitorX._ble st) as [b|].
  - intros [= H]. now exists b.
  - discriminate.
Qed.

Lemma send_Q_disconnected uuid message useLimiter now (st : ApitorQ.t) :
  ApitorQ.isConnected st = Normal false st ->
  ApitorQ.send uuid message useLimiter now st = Normal Promise_resolve st.
Proof. intros H. unfold ApitorQ.send, bind. now rewrite H. Qed.

Lemma send_X_disconnected uuid message useLimiter now (st : ApitorX.t) :
  ApitorX.isConnected st = Normal false st ->
  ApitorX.send uuid message useLimiter now st = Normal Promise_resolve st.
Proof. intros H. unfold ApitorX.send, bind. now rewrite H. Qed.

Lemma send_Q_rejected uuid message now (st : ApitorQ.t) rl :
  ApitorQ.isConnected st = Normal true st ->
  RateLimiter.okayToSend now (ApitorQ._rateLimiter st) = (false, rl) ->
  ApitorQ.send uuid message true now st =
  Normal Promise_resolve (ApitorQ.set_rateLimiter rl st).
Proof.
  intros H Hrl. unfold ApitorQ.send, bind. rewrite H. cbn.
  unfold ApitorQ.rateLimiter_okayToSend. now rewrite Hrl.
Qed.

Lemma send_X_rejected uuid message now (st : ApitorX.t) rl :
  ApitorX.isConnected st = Normal true st ->
  RateLimiter.okayToSend now (ApitorX._rateLimiter st) = (false, rl) ->
  ApitorX.send uuid message true now st =
  Normal Promise_resolve (ApitorX.set_rateLimiter rl st).
Proof.
  intros H Hrl. unfold ApitorX.send, bind. rewrite H. cbn.
  unfold ApitorX.rateLimiter_okayToSend. now rewrite Hrl.
Qed.

Lemma send_Q_permitted uuid message now (st : ApitorQ.t) b rl :
  ApitorQ._ble st = Some b -> BLE.connected b = true ->
  RateLimiter.okayToSend now (ApitorQ._rateLimiter st) = (true, rl) ->
  ApitorQ.send uuid message true now st =
  Normal Promise_write
    (ApitorQ.set_ble (Some (snd (BLE.write (request_Q uuid message) b)))
       (ApitorQ.set_rateLimiter rl st)).
Proof.
  intros Hb Hc Hrl. unfold ApitorQ.send, bind.
  rewrite isConnected_Q_run, Hb, Hc. cbn.
  unfold ApitorQ.rateLimiter_okayToSend. rewrite Hrl. cbn.
  unfold ApitorQ.on_ble. cbn. now rewrite Hb.
Qed.

Lemma send_X_permitted uuid message now (st : ApitorX.t) b rl :
  ApitorX._ble st = Some b -> BLE.connected b = true ->
  RateLimiter.okayToSend now (ApitorX._rateLimiter st) = (true, rl) ->
  ApitorX.send uuid message true now st =
  Normal Promise_write
    (ApitorX.set_ble (Some (snd (BLE.write (request_X uuid message) b)))
       (ApitorX.set_rateLimiter rl st)).
Proof.
  intros Hb Hc Hrl. unfold ApitorX.send, bind.
  rewrite isConnected_X_run, Hb, Hc. cbn.
  unfold ApitorX.rateLimiter_okayToSend. rewrite Hrl. cbn.
  unfold ApitorX.on_ble. cbn. now rewrite Hb.
Qed.

Lemma send_Q_unlimited uuid message now (st : ApitorQ.t) b :
  ApitorQ._ble st = Some b -> BLE.connected b = true ->
  ApitorQ.send uuid message false now st =
  Normal Promise_write
    (ApitorQ.set_ble (Some (snd (BLE.write (request_Q uuid message) b))) st).
Proof.
  intros Hb Hc. unfold ApitorQ.send, bind.
  rewrite isConnected_Q_run, Hb, Hc. cbn.
  unfold ApitorQ.on_ble. now rewrite Hb.
Qed.

Lemma send_X_unlimited uuid message now (st : ApitorX.t) b :
  ApitorX._ble st = Some b -> BLE.connected b = true ->
  ApitorX.send uuid message false now st =
  Normal Promise_write
    (ApitorX.set_ble (Some (snd (BLE.write (request_X uuid message) b))) st).
Proof.
  intros Hb Hc. unfold ApitorX.send, bind.
  rewrite isConnected_X_run, Hb, Hc. cbn.
  unfold ApitorX.on_ble. now rewrite Hb.
Qed.

(** ** The rate limiter *)

Lemma okayToSend_rejects now (rl : RateLimiter.t) :
  fst (RateLimiter.okayToSend now rl) = false ->
  RateLimiter.okayToSend now rl = (false, rl).
Proof.
  unfold RateLimiter.okayToSend.
  destruct (_ <? _); [discriminate | reflexivity].
Qed.

Lemma okayToSend_below now (rl : RateLimiter.t) :
  RateLimiter.in_window rl now ->
  RateLimiter.count rl < RateLimiter.maxRate rl ->
  RateLimiter.okayToSend now rl =
  (true, {| RateLimiter.maxRate := RateLimiter.maxRate rl;
            RateLimiter.count := RateLimiter.count rl + 1;
            RateLimiter.windowStart := RateLimiter.windowStart rl |}).
Proof.
  unfold RateLimiter.in_window, RateLimiter.okayToSend, RateLimiter.elapsed.
  intros Hw Hc.
  destruct (Z.leb_spec (RateLimiter.windowStart rl + RateLimiter.window) now);
    [lia|].
  destruct (Z.ltb_spec (RateLimiter.count rl) (RateLimiter.maxRate rl));
    [reflexivity | lia].
Qed.

Lemma okayToSend_full now (rl : RateLimiter.t) :
  RateLimiter.in_window rl now ->
  RateLimiter.maxRate rl <= RateLimiter.count rl ->
  RateLimiter.okayToSend now rl = (false, rl).
Proof.
  unfold RateLimiter.in_window, RateLimiter.okayToSend, RateLimiter.elapsed.
  intros Hw Hc.
  destruct (Z.leb_spec (RateLimiter.windowStart rl + RateLimiter.window) now);
    [lia|].
  destruct (Z.ltb_spec (RateLimiter.count rl) (RateLimiter.maxRate rl));
    [lia | reflexivity].
Qed.

Lemma okayToSend_elapsed now (rl : RateLimiter.t) :
  RateLimiter.windowStart rl + RateLimiter.window <= now ->
  0 < RateLimiter.maxRate rl ->
  RateLimiter.okayToSend now rl =
  (true, {| RateLimiter.maxRate := RateLimiter.maxRate rl;
            RateLimiter.count := 1;
            RateLimiter.windowStart := now |}).
Proof.
  unfold RateLimiter.okayToSend, RateLimiter.elapsed. intros Hw Hm.
  destruct (Z.leb_spec (RateLimiter.windowStart rl + RateLimiter.window) now);
    [|lia].
  destruct (Z.ltb_spec 0 (RateLimiter.maxRate rl)); [reflexivity | lia].
Qed.

Lemma okayToSend_all_below (ts : list Z) :
  forall rl : RateLimiter.t,
    Forall (RateLimiter.in_window rl) ts ->
    RateLimiter.count rl + Z.of_nat (List.length ts) <= RateLimiter.maxRate rl ->
    RateLimiter.okayToSend_all ts rl =
    (repeat true (List.length ts),
     {| RateLimiter.maxRate := RateLimiter.maxRate rl;
        RateLimiter.count := RateLimiter.count rl + Z.of_nat (List.length ts);
        RateLimiter.windowStart := RateLimiter.windowStart rl |}).
Proof.
  induction ts as [|now ts IH]; intros rl Hall Hroom.
  - cbn. rewrite Z.add_0_r. now destruct rl.
  - inversion Hall as [|? ? Hnow Hrest]; subst.
    cbn [List.length] in Hroom. rewrite Nat2Z.inj_succ in Hroom.
    cbn [RateLimiter.okayToSend_all List.length repeat].
    rewrite (okayToSend_below now rl Hnow) by lia.
    rewrite IH.
    + cbn [RateLimiter.count RateLimiter.maxRate RateLimiter.windowStart].
      rewrite Nat2Z.inj_succ. f_equal. f_equal. lia.
    + exact Hrest.
    + cbn [RateLimiter.count RateLimiter.maxRate]. lia.
Qed.

Lemma Forall_prefix {A} (P : A -> Prop) (k : nat) :
  forall l : list A, Forall P l -> Forall P (firstn k l).
Proof.
  induction k as [|k IH]; intros l Hl; [constructor|].
  destruct Hl as [|x l Hx Hl]; cbn; constructor; auto.
Qed.

Lemma constructors_limit_to_BLESendRateMax (now : Z) :
  ApitorQ._rateLimiter (ApitorQ.constructor now) =
    RateLimiter.new scratch3_apitorq.BLESendRateMax now /\
  ApitorX._rateLimiter (ApitorX.constructor now) =
    RateLimiter.new scratch3_apitorx.BLESendRateMax now /\
  scratch3_apitorq.BLESendRateMax = 20 /\
  scratch3_apitorx.BLESendRateMax = 20.
Proof. now repeat split. Qed.

(** C6 — the ceiling of 20 sends per one-second window.  For a limiter
    built with [BLESendRateMax] whose window has counted nothing yet: any 20
    calls of [okayToSend] within the window all return true, the counter
    standing at k after the first k of them; a 21st call within the same
    window returns false and leaves the limiter as it was; a call once the
    window has elapsed returns true again, opening a new window. *)
Theorem okayToSend_ceiling_is_20_per_window :
  forall (rl : RateLimiter.t) (ts : list Z) (t21 later : Z),
    RateLimiter.maxRate rl = scratch3_apitorq.BLESendRateMax ->
    RateLimiter.maxRate rl = scratch3_apitorx.BLESendRateMax ->
    RateLimiter.count rl = 0 ->
    List.length ts = 20%nat ->
    Forall (RateLimiter.in_window rl) ts ->
    RateLimiter.in_window rl t21 ->
    RateLimiter.windowStart rl + RateLimiter.window <= later ->
    exists rl20,
      RateLimiter.okayToSend_all ts rl = (repeat true 20, rl20) /\
      (forall k : nat, (k <= 20)%nat ->
         RateLimiter.count (snd (RateLimiter.okayToSend_all (firstn k ts) rl))
         = Z.of_nat k) /\
      RateLimiter.okayToSend t21 rl20 = (false, rl20) /\
      RateLimiter.okayToSend later rl20 =
        (true, {| RateLimiter.maxRate := 20; RateLimiter.count := 1;
                  RateLimiter.windowStart := later |}).
Proof.
  intros rl ts t21 later Hmax _ Hcount Hlen Hall Ht21 Hlater.
  change scratch3_apitorq.BLESendRateMax with 20 in Hmax.
  eexists. split; [|split; [|split]].
  - rewrite okayToSend_all_below by (rewrite ?Hlen; lia || assumption).
    rewrite Hlen. reflexivity.
  - intros k Hk.
    rewrite okayToSend_all_below.
    + cbn. rewrite length_firstn, Hlen, Hcount. lia.
    + now apply Forall_prefix.
    + rewrite length_firstn, Hlen, Hcount, Hmax. lia.
  - apply okayToSend_full; cbn; [exact Ht21 | lia].
  - rewrite okayToSend_elapsed; cbn; [now rewrite Hmax | exact Hlater | lia].
Qed.

Lemma okayToSend_ceiling_is_20_per_window_witness :
  let rl := ApitorQ._rateLimiter (ApitorQ.constructor 0) in
  let ts := [0; 1; 2; 3; 4; 5; 6; 7; 8; 9; 10; 20; 30; 40; 50; 60; 70; 80; 90;
             999] in
  exists rl20,
    RateLimiter.okayToSend_all ts rl = (repeat true 20, rl20) /\
    (forall k : nat, (k <= 20)%nat ->
       RateLimiter.count (snd (RateLimiter.okayToSend_all (firstn k ts) rl))
       = Z.of_nat k) /\
    RateLimiter.okayToSend 999 rl20 = (false, rl20) /\
    RateLimiter.okayToSend 1000 rl20 =
      (true, {| RateLimiter.maxRate := 20; RateLimiter.count := 1;
                RateLimiter.windowStart := 1000 |}).
Proof.
  intros rl ts.
  apply (okayToSend_ceiling_is_20_per_window rl ts 999 1000).
  - reflexivity.
  - reflexivity.
  - reflexivity.
  - reflexivity.
  - unfold RateLimiter.in_window, RateLimiter.window, ts; cbn.
    repeat (apply Forall_cons; [lia|]). apply Forall_nil.
  - unfold RateLimiter.in_window, RateLimiter.window; cbn. lia.
  - unfold RateLimiter.window; cbn. lia.
Defined.

Lemma set_rateLimiter_Q_same (st : ApitorQ.t) :
  ApitorQ.set_rateLimiter (ApitorQ._rateLimiter st) st = st.
Proof. now destruct st. Qed.

Lemma send_Q_total uuid message useLimiter now (st : ApitorQ.t) :
  exists p st', ApitorQ.send uuid message useLimiter now st = Normal p st'.
Proof.
  destruct (ApitorQ._ble st) as [b|] eqn:Hb.
  - destruct (BLE.connected b) eqn:Hc.
    + destruct useLimiter.
      * destruct (RateLimiter.okayToSend now (ApitorQ._rateLimiter st))
          as [[|] rl] eqn:Hrl.
        -- erewrite send_Q_permitted by eassumption. eauto.
        -- erewrite send_Q_rejected; eauto.
           now rewrite isConnected_Q_run, Hb, Hc.
      * erewrite send_Q_unlimited by eassumption. eauto.
    + rewrite send_Q_disconnected; eauto.
      now rewrite isConnected_Q_run, Hb, Hc.
  - rewrite send_Q_disconnected; eauto.
    now rewrite isConnected_Q_run, Hb.
Qed.

Lemma send_Q_dropped uuid message now (st : ApitorQ.t) :
  ApitorQ.isConnected st = Normal true st ->
  fst (RateLimiter.okayToSend now (ApitorQ._rateLimiter st)) = false ->
  ApitorQ.send uuid message true now st = Normal Promise_resolve st.
Proof.
  intros Hc Hrl%okayToSend_rejects.
  rewrite (send_Q_rejected _ _ _ _ _ Hc Hrl).
  now rewrite set_rateLimiter_Q_same.
Qed.

Lemma set_rateLimiter_X_same (st : ApitorX.t) :
  ApitorX.set_rateLimiter (ApitorX._rateLimiter st) st = st.
Proof. now destruct st. Qed.

Lemma send_X_total uuid message useLimiter now (st : ApitorX.t) :
  exists p st', ApitorX.send uuid message useLimiter now st = Normal p st'.
Proof.
  destruct (ApitorX._ble st) as [b|] eqn:Hb.
  - destruct (BLE.connected b) eqn:Hc.
    + destruct useLimiter.
      * destruct (RateLimiter.okayToSend now (ApitorX._rateLimiter st))
          as [[|] rl] eqn:Hrl.
        -- erewrite send_X_permitted by eassumption. eauto.
        -- erewrite send_X_rejected; eauto.
           now rewrite isConnected_X_run, Hb, Hc.
      * erewrite send_X_unlimited by eassumption. eauto.
    + rewrite send_X_disconnected; eauto.
      now rewrite isConnected_X_run, Hb, Hc.
  - rewrite send_X_disconnected; eauto.
    now rewrite isConnected_X_run, Hb.
Qed.

Lemma send_X_dropped uuid message now (st : ApitorX.t) :
  ApitorX.isConnected st = Normal true st ->
  fst (RateLimiter.okayToSend now (ApitorX._rateLimiter st)) = false ->
  ApitorX.send uuid message true now st = Normal Promise_resolve st.
Proof.
  intros Hc Hrl%okayToSend_rejects.
  rewrite (send_X_rejected _ _ _ _ _ Hc Hrl).
  now rewrite set_rateLimiter_X_same.
Qed.

(** C7 — sends that are dropped succeed silently.  For every call
    [send(uuid, message, useLimiter)] on either variant: the call never
    throws; if [isConnected()] is false it returns [Promise.resolve()] and
    leaves the whole state, the socket's write log included, as it was; if
    the socket is connected and the rate limiter refuses the send, it
    likewise returns [Promise.resolve()] with the state as it was: nothing is
    transmitted, and nothing is kept for a later retry. *)
Theorem send_resolves_without_transmitting_when_dropped :
  (forall (uuid : string) (message : list jsval) (useLimiter : bool)
          (now : Z) (st : ApitorQ.t),
      (exists p st',
          ApitorQ.send uuid message useLimiter now st = Normal p st') /\
      (ApitorQ.isConnected st = Normal false st ->
       ApitorQ.send uuid message useLimiter now st =
       Normal Promise_resolve st) /\
      (ApitorQ.isConnected st = Normal true st ->
       useLimiter = true ->
       fst (RateLimiter.okayToSend now (ApitorQ._rateLimiter st)) = false ->
       ApitorQ.send uuid message useLimiter now st =
       Normal Promise_resolve st)) /\
  (forall (uuid : string) (message : list jsval) (useLimiter : bool)
          (now : Z) (st : ApitorX.t),
      (exists p st',
          ApitorX.send uuid message useLimiter now st = Normal p st') /\
      (ApitorX.isConnected st = Normal false st ->
       ApitorX.send uuid message useLimiter now st =
       Normal Promise_resolve st) /\
      (ApitorX.isConnected st = Normal true st ->
       useLimiter = true ->
       fst (RateLimiter.okayToSend now (ApitorX._rateLimiter st)) = false ->
       ApitorX.send uuid message useLimiter now st =
       Normal Promise_resolve st)).
Proof.
  split.
  - intros uuid message useLimiter now st. split; [|split].
    + apply send_Q_total.
    + apply send_Q_disconnected.
    + intros Hc -> Hrl. now apply send_Q_dropped.
  - intros uuid message useLimiter now st. split; [|split].
    + apply send_X_total.
    + apply send_X_disconnected.
    + intros Hc -> Hrl. now apply send_X_dropped.
Qed.

Lemma send_Q_limited_run uuid message now (st : ApitorQ.t) :
  ApitorQ.isConnected st = Normal true st ->
  let ok := fst (RateLimiter.okayToSend now (ApitorQ._rateLimiter st)) in
  exists st',
    ApitorQ.send uuid message true now st =
      Normal (if ok then Promise_write else Promise_resolve) st' /\
    ApitorQ.transmitted st' =
      ApitorQ.transmitted st ++ (if ok then [request_Q uuid message] else []) /\
    ApitorQ._rateLimiter st' =
      snd (RateLimiter.okayToSend now (ApitorQ._rateLimiter st)) /\
    ApitorQ.snapshot st' = ApitorQ.snapshot st /\
    ApitorQ.console st' = ApitorQ.console st /\
    ApitorQ.isConnected st' = Normal true st'.
Proof.
  intros Hc ok. subst ok.
  destruct (isConnected_Q_true st Hc) as (b & Hb & Hcb).
  destruct (RateLimiter.okayToSend now (ApitorQ._rateLimiter st))
    as [[|] rl] eqn:Hrl; cbn [fst snd].
  - eexists. split; [apply send_Q_permitted with (b := b); eassumption|].
    unfold ApitorQ.transmitted. rewrite Hb.
    rewrite isConnected_Q_run. cbn. rewrite Hcb. repeat split.
  - eexists. split; [apply send_Q_rejected; eassumption|].
    unfold ApitorQ.transmitted. rewrite isConnected_Q_run. cbn.
    rewrite Hb, Hcb, app_nil_r. repeat split.
Qed.

Lemma send_X_limited_run uuid message now (st : ApitorX.t) :
  ApitorX.isConnected st = Normal true st ->
  let ok := fst (RateLimiter.okayToSend now (ApitorX._rateLimiter st)) in
  exists st',
    ApitorX.send uuid message true now st =
      Normal (if ok then Promise_write else Promise_resolve) st' /\
    ApitorX.transmitted st' =
      ApitorX.transmitted st ++ (if ok then [request_X uuid message] else []) /\
    ApitorX._rateLimiter st' =
      snd (RateLimiter.okayToSend now (ApitorX._rateLimiter st)) /\
    ApitorX.snapshot st' = ApitorX.snapshot st /\
    ApitorX.console st' = ApitorX.console st /\
    ApitorX.isConnected st' = Normal true st'.
Proof.
  intros Hc ok. subst ok.
  destruct (isConnected_X_true st Hc) as (b & Hb & Hcb).
  destruct (RateLimiter.okayToSend now (ApitorX._rateLimiter st))
    as [[|] rl] eqn:Hrl; cbn [fst snd].
  - eexists. split; [apply send_X_permitted with (b := b); eassumption|].
    unfold ApitorX.transmitted. rewrite Hb.
    rewrite isConnected_X_run. cbn. rewrite Hcb. repeat split.
  - eexists. split; [apply send_X_rejected; eassumption|].
    unfold ApitorX.transmitted. rewrite isConnected_X_run. cbn.
    rewrite Hb, Hcb, app_nil_r. repeat split.
Qed.

(** ** The handshake on connect *)

Lemma sendPassword_Q_run now (st : ApitorQ.t) :
  ApitorQ.isConnected st = Normal true st ->
  let ok := fst (RateLimiter.okayToSend now (ApitorQ._rateLimiter st)) in
  exists st',
    ApitorQ._sendPassword now st = Normal tt st' /\
    ApitorQ.transmitted st' =
      ApitorQ.transmitted st
        ++ (if ok then [command_Q (map JNum ApitorQ.password)] else []) /\
    ApitorQ.isConnected st' = Normal true st'.
Proof.
  intros Hc ok.
  destruct (send_Q_limited_run
              ApitorQ_BleUuids.UUID_CHARACTERISTIC_WRITE
              (map JNum ApitorQ.password) now st Hc)
    as (st' & Hrun & Htx & _ & _ & _ & Hc').
  exists st'. unfold ApitorQ._sendPassword, bind. rewrite Hrun.
  now repeat split.
Qed.

Lemma onConnect_Q_run now (st : ApitorQ.t) :
  ApitorQ.isConnected st = Normal true st ->
  let ok := fst (RateLimiter.okayToSend now (ApitorQ._rateLimiter st)) in
  transmitted_Q (ApitorQ._onConnect now st) =
  Some (ApitorQ.transmitted st
          ++ (if ok then [command_Q (map JNum ApitorQ.password)] else [])).
Proof.
  intros Hc ok. subst ok.
  destruct (sendPassword_Q_run now st Hc) as (st' & Hrun & Htx & Hc').
  destruct (isConnected_Q_true st' Hc') as (b' & Hb' & _).
  unfold ApitorQ._onConnect, bind. rewrite Hrun.
  unfold ApitorQ.on_ble. rewrite Hb'.
  unfold transmitted_Q. cbn [state_of option_map]. f_equal.
  rewrite <- Htx. unfold ApitorQ.transmitted. cbn. rewrite Hb'. reflexivity.
Qed.

Lemma sendPassword_X_run now (st : ApitorX.t) :
  ApitorX.isConnected st = Normal true st ->
  let ok := fst (RateLimiter.okayToSend now (ApitorX._rateLimiter st)) in
  exists st',
    ApitorX._sendPassword now st = Normal tt st' /\
    ApitorX.transmitted st' =
      ApitorX.transmitted st
        ++ (if ok then [command_X (map JNum ApitorX.password)] else []) /\
    ApitorX.isConnected st' = Normal true st'.
Proof.
  intros Hc ok.
  destruct (send_X_limited_run
              ApitorX_BleUuids.UUID_CHARACTERISTIC_WRITE
              (map JNum ApitorX.password) now st Hc)
    as (st' & Hrun & Htx & _ & _ & _ & Hc').
  exists st'. unfold ApitorX._sendPassword, bind. rewrite Hrun.
  now repeat split.
Qed.

Lemma onConnect_X_run now (st : ApitorX.t) :
  ApitorX.isConnected st = Normal true st ->
  let ok := fst (RateLimiter.okayToSend now (ApitorX._rateLimiter st)) in
  transmitted_X (ApitorX._onConnect now st) =
  Some (ApitorX.transmitted st
          ++ (if ok then [command_X (map JNum ApitorX.password)] else [])).
Proof.
  intros Hc ok. subst ok.
  destruct (sendPassword_X_run now st Hc) as (st' & Hrun & Htx & Hc').
  destruct (isConnected_X_true st' Hc') as (b' & Hb' & _).
  unfold ApitorX._onConnect, bind. rewrite Hrun.
  unfold ApitorX.on_ble. rewrite Hb'.
  unfold transmitted_X. cbn [state_of option_map]. f_equal.
  rewrite <- Htx. unfold ApitorX.transmitted. cbn. rewrite Hb'. reflexivity.
Qed.

(** C3, as the code has it — the password write is rate limited.
    [_sendPassword] calls [send] without a third argument, so [useLimiter]
    takes its default [true].  On a connected socket, when [okayToSend()]
    refuses, the password write of [_sendPassword] (and so of [_onConnect])
    is dropped exactly like a [setMotor] or [setLED] command; when it
    permits, each of them appends its frame to the writes submitted. *)
Theorem sendPassword_is_rate_limited_like_commands :
  (forall (now : Z) (st : ApitorQ.t),
      ApitorQ._sendPassword now st =
      (ApitorQ.send ApitorQ_BleUuids.UUID_CHARACTERISTIC_WRITE
         (map JNum ApitorQ.password) true now ;; ret tt)%js st /\
      (ApitorQ.isConnected st = Normal true st ->
       fst (RateLimiter.okayToSend now (ApitorQ._rateLimiter st)) = false ->
       ApitorQ._sendPassword now st = Normal tt st /\
       transmitted_Q (ApitorQ._onConnect now st) =
         Some (ApitorQ.transmitted st) /\
       (forall id speed,
           ApitorQ.setMotor id speed now st = Normal Promise_resolve st) /\
       (forall id color offTime onTime,
           ApitorQ.setLED id color offTime onTime now st =
           Normal Promise_resolve st)) /\
      (ApitorQ.isConnected st = Normal true st ->
       fst (RateLimiter.okayToSend now (ApitorQ._rateLimiter st)) = true ->
       transmitted_Q (ApitorQ._sendPassword now st) =
         Some (ApitorQ.transmitted st
                 ++ [command_Q (map JNum ApitorQ.password)]) /\
       transmitted_Q (ApitorQ._onConnect now st) =
         Some (ApitorQ.transmitted st
                 ++ [command_Q (map JNum ApitorQ.password)]) /\
       (forall id speed,
           transmitted_Q (ApitorQ.setMotor id speed now st) =
           Some (ApitorQ.transmitted st
                   ++ [command_Q (ApitorQ.setMotor_cmd id speed)])) /\
       (forall id color offTime onTime,
           transmitted_Q (ApitorQ.setLED id color offTime onTime now st) =
           Some (ApitorQ.transmitted st
                   ++ [command_Q
                         (ApitorQ.setLED_cmd id color offTime onTime)])))) /\
  (forall (now : Z) (st : ApitorX.t),
      ApitorX._sendPassword now st =
      (ApitorX.send ApitorX_BleUuids.UUID_CHARACTERISTIC_WRITE
         (map JNum ApitorX.password) true now ;; ret tt)%js st /\
      (ApitorX.isConnected st = Normal true st ->
       fst (RateLimiter.okayToSend now (ApitorX._rateLimiter st)) = false ->
       ApitorX._sendPassword now st = Normal tt st /\
       transmitted_X (ApitorX._onConnect now st) =
         Some (ApitorX.transmitted st) /\
       (forall id speed,
           ApitorX.setMotor id speed now st = Normal Promise_resolve st) /\
       (forall id color offTime onTime,
           ApitorX.setLED id color offTime onTime now st =
           Normal Promise_resolve st)) /\
      (ApitorX.isConnected st = Normal true st ->
       fst (RateLimiter.okayToSend now (ApitorX._rateLimiter st)) = true ->
       transmitted_X (ApitorX._sendPassword now st) =
         Some (ApitorX.transmitted st
                 ++ [command_X (map JNum ApitorX.password)]) /\
       transmitted_X (ApitorX._onConnect now st) =
         Some (ApitorX.transmitted st
                 ++ [command_X (map JNum ApitorX.password)]) /\
       (forall id speed,
           transmitted_X (ApitorX.setMotor id speed now st) =
           Some (ApitorX.transmitted st
                   ++ [command_X (ApitorX.setMotor_cmd id speed)])) /\
       (forall id color offTime onTime,
           transmitted_X (ApitorX.setLED id color offTime onTime now st) =
           Some (ApitorX.transmitted st
                   ++ [command_X
                         (ApitorX.setLED_cmd id color offTime onTime)])))).
Proof.
  split.
  - intros now st. split; [reflexivity|]. split.
    + intros Hc Hno. split; [|split; [|split]].
      * unfold ApitorQ._sendPassword, bind.
        now rewrite send_Q_dropped.
      * rewrite onConnect_Q_run by exact Hc. rewrite Hno.
        now rewrite app_nil_r.
      * intros id speed. now apply send_Q_dropped.
      * intros id color offTime onTime. now apply send_Q_dropped.
    + intros Hc Hyes. split; [|split; [|split]].
      * destruct (sendPassword_Q_run now st Hc) as (st' & Hrun & Htx & _).
        rewrite Hrun. cbn. now rewrite Htx, Hyes.
      * rewrite onConnect_Q_run by exact Hc. now rewrite Hyes.
      * intros id speed.
        destruct (send_Q_limited_run
                    ApitorQ_BleUuids.UUID_CHARACTERISTIC_WRITE
                    (ApitorQ.setMotor_cmd id speed) now st Hc)
          as (st' & Hrun & Htx & _).
        unfold ApitorQ.setMotor. rewrite Hrun. cbn. now rewrite Htx, Hyes.
      * intros id color offTime onTime.
        destruct (send_Q_limited_run
                    ApitorQ_BleUuids.UUID_CHARACTERISTIC_WRITE
                    (ApitorQ.setLED_cmd id color offTime onTime) now st Hc)
          as (st' & Hrun & Htx & _).
        unfold ApitorQ.setLED. rewrite Hrun. cbn. now rewrite Htx, Hyes.
  - intros now st. split; [reflexivity|]. split.
    + intros Hc Hno. split; [|split; [|split]].
      * unfold ApitorX._sendPassword, bind.
        now rewrite send_X_dropped.
      * rewrite onConnect_X_run by exact Hc. rewrite Hno.
        now rewrite app_nil_r.
      * intros id speed. now apply send_X_dropped.
      * intros id color offTime onTime. now apply send_X_dropped.
    + intros Hc Hyes. split; [|split; [|split]].
      * destruct (sendPassword_X_run now st Hc) as (st' & Hrun & Htx & _).
        rewrite Hrun. cbn. now rewrite Htx, Hyes.
      * rewrite onConnect_X_run by exact Hc. now rewrite Hyes.
      * intros id speed.
        destruct (send_X_limited_run
                    ApitorX_BleUuids.UUID_CHARACTERISTIC_WRITE
                    (ApitorX.setMotor_cmd id speed) now st Hc)
          as (st' & Hrun & Htx & _).
        unfold ApitorX.setMotor. rewrite Hrun. cbn. now rewrite Htx, Hyes.
      * intros id color offTime onTime.
        destruct (send_X_limited_run
                    ApitorX_BleUuids.UUID_CHARACTERISTIC_WRITE
                    (ApitorX.setLED_cmd id color offTime onTime) now st Hc)
          as (st' & Hrun & Htx & _).
        unfold ApitorX.setLED. rewrite Hrun. cbn. now rewrite Htx, Hyes.
Qed.

(** C3 as stated fails.  An ApitorQ session sends the handshake and 19
    motor commands within one second, loses the link and is connected again
    at timer reading 30: the socket is connected, the window has counted
    20 sends, and [_onConnect] subscribes to the notifications without the
    password ever being written.  The same holds on an ApitorX. *)
Lemma handshake_write_dropped_when_window_is_full :
  (state_of (reconnecting_Q (ApitorQ.constructor 0)) =
     Some (after reconnecting_Q (ApitorQ.constructor 0)) /\
   ApitorQ.isConnected (after reconnecting_Q (ApitorQ.constructor 0)) =
     Normal true (after reconnecting_Q (ApitorQ.constructor 0)) /\
   RateLimiter.count
     (ApitorQ._rateLimiter (after reconnecting_Q (ApitorQ.constructor 0))) = 20 /\
   ApitorQ.transmitted (after reconnecting_Q (ApitorQ.constructor 0)) = [] /\
   transmitted_Q
     (ApitorQ._onConnect 30 (after reconnecting_Q (ApitorQ.constructor 0))) =
     Some []) /\
  (state_of (reconnecting_X (ApitorX.constructor 0)) =
     Some (after reconnecting_X (ApitorX.constructor 0)) /\
   ApitorX.isConnected (after reconnecting_X (ApitorX.constructor 0)) =
     Normal true (after reconnecting_X (ApitorX.constructor 0)) /\
   RateLimiter.count
     (ApitorX._rateLimiter (after reconnecting_X (ApitorX.constructor 0))) = 20 /\
   ApitorX.transmitted (after reconnecting_X (ApitorX.constructor 0)) = [] /\
   transmitted_X
     (ApitorX._onConnect 30 (after reconnecting_X (ApitorX.constructor 0))) =
     Some []).
Proof. vm_compute. repeat split. Qed.

Lemma sendPassword_is_rate_limited_like_commands_witness :
  ApitorQ.isConnected (after reconnecting_Q (ApitorQ.constructor 0)) =
    Normal true (after reconnecting_Q (ApitorQ.constructor 0)) /\
  fst (RateLimiter.okayToSend 30
         (ApitorQ._rateLimiter (after reconnecting_Q (ApitorQ.constructor 0))))
    = false /\
  fst (RateLimiter.okayToSend 1000
         (ApitorQ._rateLimiter (after reconnecting_Q (ApitorQ.constructor 0))))
    = true /\
  ApitorQ._sendPassword 30 (after reconnecting_Q (ApitorQ.constructor 0)) =
    Normal tt (after reconnecting_Q (ApitorQ.constructor 0)) /\
  transmitted_Q
    (ApitorQ._sendPassword 1000 (after reconnecting_Q (ApitorQ.constructor 0))) =
    Some (ApitorQ.transmitted (after reconnecting_Q (ApitorQ.constructor 0))
            ++ [command_Q (map JNum ApitorQ.password)]).
Proof.
  assert (Hc : ApitorQ.isConnected (after reconnecting_Q (ApitorQ.constructor 0)) =
               Normal true (after reconnecting_Q (ApitorQ.constructor 0)))
    by (vm_compute; reflexivity).
  assert (Hno : fst (RateLimiter.okayToSend 30
                  (ApitorQ._rateLimiter
                     (after reconnecting_Q (ApitorQ.constructor 0)))) = false)
    by (vm_compute; reflexivity).
  assert (Hyes : fst (RateLimiter.okayToSend 1000
                  (ApitorQ._rateLimiter
                     (after reconnecting_Q (ApitorQ.constructor 0)))) = true)
    by (vm_compute; reflexivity).
  destruct sendPassword_is_rate_limited_like_commands as [HQ _].
  split; [exact Hc|]. split; [exact Hno|]. split; [exact Hyes|]. split.
  - destruct (HQ 30 (after reconnecting_Q (ApitorQ.constructor 0)))
      as (_ & Hrejected & _).
    exact (proj1 (Hrejected Hc Hno)).
  - destruct (HQ 1000 (after reconnecting_Q (ApitorQ.constructor 0)))
      as (_ & _ & Hpermitted).
    exact (proj1 (Hpermitted Hc Hyes)).
Defined.

(** ** Stopping everything *)

Lemma stopAll_Q_connected now1 now2 (st : ApitorQ.t) :
  ApitorQ.isConnected st = Normal true st ->
  exists st',
    ApitorQ.stopAll now1 now2 st = Normal tt st' /\
    ApitorQ.transmitted st' =
      ApitorQ.transmitted st
        ++ (if fst (RateLimiter.okayToSend now1 (ApitorQ._rateLimiter st))
            then [command_Q stop_motors_cmd] else [])
        ++ (if fst (RateLimiter.okayToSend now2
                      (snd (RateLimiter.okayToSend now1
                              (ApitorQ._rateLimiter st))))
            then [command_Q leds_off_cmd] else []) /\
    ApitorQ.snapshot st' = ApitorQ.snapshot st.
Proof.
  intros Hc.
  destruct (send_Q_limited_run ApitorQ_BleUuids.UUID_CHARACTERISTIC_WRITE
              stop_motors_cmd now1 st Hc)
    as (st1 & Hrun1 & Htx1 & Hrl1 & Hsn1 & _ & Hc1).
  destruct (send_Q_limited_run ApitorQ_BleUuids.UUID_CHARACTERISTIC_WRITE
              leds_off_cmd now2 st1 Hc1)
    as (st2 & Hrun2 & Htx2 & _ & Hsn2 & _ & _).
  exists st2. split; [|split].
  - unfold ApitorQ.stopAll, bind. rewrite Hc. cbn [negb].
    unfold ApitorQ.setMotor, ApitorQ.setLED.
    change (ApitorQ.setMotor_cmd (JNum ApitorQ_MotorID.ALL) 0)
      with stop_motors_cmd.
    change (ApitorQ.setLED_cmd (JNum ApitorQ_LedID.ALL)
              (JNum ApitorQ_LedColorID.OFF) JUndefined JUndefined)
      with leds_off_cmd.
    rewrite Hrun1, Hrun2. reflexivity.
  - rewrite Htx2, Htx1, Hrl1, <- app_assoc. reflexivity.
  - now rewrite Hsn2.
Qed.

Lemma stopAll_Q_in_window now1 now2 (st : ApitorQ.t) :
  ApitorQ.isConnected st = Normal true st ->
  RateLimiter.maxRate (ApitorQ._rateLimiter st) = 20 ->
  RateLimiter.in_window (ApitorQ._rateLimiter st) now1 ->
  RateLimiter.in_window (ApitorQ._rateLimiter st) now2 ->
  (20 <= RateLimiter.count (ApitorQ._rateLimiter st) ->
   ApitorQ.stopAll now1 now2 st = Normal tt st) /\
  (RateLimiter.count (ApitorQ._rateLimiter st) = 19 ->
   transmitted_Q (ApitorQ.stopAll now1 now2 st) =
   Some (ApitorQ.transmitted st ++ [command_Q stop_motors_cmd])) /\
  (RateLimiter.count (ApitorQ._rateLimiter st) <= 18 ->
   transmitted_Q (ApitorQ.stopAll now1 now2 st) =
   Some (ApitorQ.transmitted st
           ++ [command_Q stop_motors_cmd; command_Q leds_off_cmd])).
Proof.
  intros Hc Hmax Hw1 Hw2.
  destruct (stopAll_Q_connected now1 now2 st Hc) as (st' & Hrun & Htx & _).
  split; [|split]; intros Hcount.
  - unfold ApitorQ.stopAll, bind. rewrite Hc. cbn [negb].
    unfold ApitorQ.setMotor, ApitorQ.setLED.
    assert (Hfull : fst (RateLimiter.okayToSend now1 (ApitorQ._rateLimiter st))
                    = false)
      by (rewrite okayToSend_full; [reflexivity | assumption | lia]).
    rewrite send_Q_dropped by assumption.
    assert (Hfull2 : fst (RateLimiter.okayToSend now2 (ApitorQ._rateLimiter st))
                     = false)
      by (rewrite okayToSend_full; [reflexivity | assumption | lia]).
    now rewrite send_Q_dropped by assumption.
  - rewrite Hrun. unfold transmitted_Q. cbn [state_of option_map].
    rewrite Htx. rewrite okayToSend_below by (assumption || lia).
    cbn [fst snd]. rewrite okayToSend_full.
    + reflexivity.
    + exact Hw2.
    + cbn. lia.
  - rewrite Hrun. unfold transmitted_Q. cbn [state_of option_map].
    rewrite Htx. rewrite okayToSend_below by (assumption || lia).
    cbn [fst snd]. rewrite okayToSend_below.
    + reflexivity.
    + exact Hw2.
    + cbn. lia.
Qed.

Lemma stopAll_X_connected now1 now2 (st : ApitorX.t) :
  ApitorX.isConnected st = Normal true st ->
  exists st',
    ApitorX.stopAll now1 now2 st = Normal tt st' /\
    ApitorX.transmitted st' =
      ApitorX.transmitted st
        ++ (if fst (RateLimiter.okayToSend now1 (ApitorX._rateLimiter st))
            then [command_X stop_motors_cmd] else [])
        ++ (if fst (RateLimiter.okayToSend now2
                      (snd (RateLimiter.okayToSend now1
                              (ApitorX._rateLimiter st))))
            then [command_X leds_off_cmd] else []) /\
    ApitorX.snapshot st' = ApitorX.snapshot st.
Proof.
  intros Hc.
  destruct (send_X_limited_run ApitorX_BleUuids.UUID_CHARACTERISTIC_WRITE
              stop_motors_cmd now1 st Hc)
    as (st1 & Hrun1 & Htx1 & Hrl1 & Hsn1 & _ & Hc1).
  destruct (send_X_limited_run ApitorX_BleUuids.UUID_CHARACTERISTIC_WRITE
              leds_off_cmd now2 st1 Hc1)
    as (st2 & Hrun2 & Htx2 & _ & Hsn2 & _ & _).
  exists st2. split; [|split].
  - unfold ApitorX.stopAll, bind. rewrite Hc. cbn [negb].
    unfold ApitorX.setMotor, ApitorX.setLED.
    change (ApitorX.setMotor_cmd (JNum ApitorX_MotorID.ALL) 0)
      with stop_motors_cmd.
    change (ApitorX.setLED_cmd (JNum ApitorX_LedID.ALL)
              (JNum ApitorX_LedColorID.OFF) JUndefined JUndefined)
      with leds_off_cmd.
    rewrite Hrun1, Hrun2. reflexivity.
  - rewrite Htx2, Htx1, Hrl1, <- app_assoc. reflexivity.
  - now rewrite Hsn2.
Qed.

Lemma stopAll_X_in_window now1 now2 (st : ApitorX.t) :
  ApitorX.isConnected st = Normal true st ->
  RateLimiter.maxRate (ApitorX._rateLimiter st) = 20 ->
  RateLimiter.in_window (ApitorX._rateLimiter st) now1 ->
  RateLimiter.in_window (ApitorX._rateLimiter st) now2 ->
  (20 <= RateLimiter.count (ApitorX._rateLimiter st) ->
   ApitorX.stopAll now1 now2 st = Normal tt st) /\
  (RateLimiter.count (ApitorX._rateLimiter st) = 19 ->
   transmitted_X (ApitorX.stopAll now1 now2 st) =
   Some (ApitorX.transmitted st ++ [command_X stop_motors_cmd])) /\
  (RateLimiter.count (ApitorX._rateLimiter st) <= 18 ->
   transmitted_X (ApitorX.stopAll now1 now2 st) =
   Some (ApitorX.transmitted st
           ++ [command_X stop_motors_cmd; command_X leds_off_cmd])).
Proof.
  intros Hc Hmax Hw1 Hw2.
  destruct (stopAll_X_connected now1 now2 st Hc) as (st' & Hrun & Htx & _).
  split; [|split]; intros Hcount.
  - unfold ApitorX.stopAll, bind. rewrite Hc. cbn [negb].
    unfold ApitorX.setMotor, ApitorX.setLED.
    assert (Hfull : fst (RateLimiter.okayToSend now1 (ApitorX._rateLimiter st))
                    = false)
      by (rewrite okayToSend_full; [reflexivity | assumption | lia]).
    rewrite send_X_dropped by assumption.
    assert (Hfull2 : fst (RateLimiter.okayToSend now2 (ApitorX._rateLimiter st))
                     = false)
      by (rewrite okayToSend_full; [reflexivity | assumption | lia]).
    now rewrite send_X_dropped by assumption.
  - rewrite Hrun. unfold transmitted_X. cbn [state_of option_map].
    rewrite Htx. rewrite okayToSend_below by (assumption || lia).
    cbn [fst snd]. rewrite okayToSend_full.
    + reflexivity.
    + exact Hw2.
    + cbn. lia.
  - rewrite Hrun. unfold transmitted_X. cbn [state_of option_map].
    rewrite Htx. rewrite okayToSend_below by (assumption || lia).
    cbn [fst snd]. rewrite okayToSend_below.
    + reflexivity.
    + exact Hw2.
    + cbn. lia.
Qed.

(** C10 — [stopAll] and the rate limiter.  On either variant: when
    [isConnected()] is false, [stopAll()] sends nothing and changes nothing;
    when it is true, [stopAll()] is [setMotor(ALL, 0)] followed by
    [setLED(ALL, OFF)] with both tick arguments [undefined], that is, the
    frames 55 AA 03 10 00 00 and 55 AA 04 03 00 undefined undefined, each
    passed to [send] with [useLimiter] true; so each frame is written exactly
    when [okayToSend()] allows it.  With the ceiling of 20: inside a window
    that has already counted 20 sends both are dropped and nothing changes,
    at 19 only the motor frame is written, at 18 or fewer both are. *)
Theorem stopAll_is_two_rate_limited_commands :
  (forall (now1 now2 : Z) (st : ApitorQ.t),
      (ApitorQ.isConnected st = Normal false st ->
       ApitorQ.stopAll now1 now2 st = Normal tt st) /\
      (ApitorQ.isConnected st = Normal true st ->
       ApitorQ.stopAll now1 now2 st =
         (ApitorQ.setMotor (JNum ApitorQ_MotorID.ALL) 0 now1 ;;
          ApitorQ.setLED (JNum ApitorQ_LedID.ALL)
            (JNum ApitorQ_LedColorID.OFF) JUndefined JUndefined now2 ;;
          ret tt)%js st /\
       ApitorQ.stopAll now1 now2 st =
         (ApitorQ.send ApitorQ_BleUuids.UUID_CHARACTERISTIC_WRITE
            stop_motors_cmd true now1 ;;
          ApitorQ.send ApitorQ_BleUuids.UUID_CHARACTERISTIC_WRITE
            leds_off_cmd true now2 ;;
          ret tt)%js st /\
       (exists st',
           ApitorQ.stopAll now1 now2 st = Normal tt st' /\
           ApitorQ.transmitted st' =
             ApitorQ.transmitted st
               ++ (if fst (RateLimiter.okayToSend now1 (ApitorQ._rateLimiter st))
                   then [command_Q stop_motors_cmd] else [])
               ++ (if fst (RateLimiter.okayToSend now2
                             (snd (RateLimiter.okayToSend now1
                                     (ApitorQ._rateLimiter st))))
                   then [command_Q leds_off_cmd] else []) /\
           ApitorQ.snapshot st' = ApitorQ.snapshot st) /\
       (RateLimiter.maxRate (ApitorQ._rateLimiter st) =
          scratch3_apitorq.BLESendRateMax ->
        RateLimiter.in_window (ApitorQ._rateLimiter st) now1 ->
        RateLimiter.in_window (ApitorQ._rateLimiter st) now2 ->
        (20 <= RateLimiter.count (ApitorQ._rateLimiter st) ->
         ApitorQ.stopAll now1 now2 st = Normal tt st) /\
        (RateLimiter.count (ApitorQ._rateLimiter st) = 19 ->
         transmitted_Q (ApitorQ.stopAll now1 now2 st) =
         Some (ApitorQ.transmitted st ++ [command_Q stop_motors_cmd])) /\
        (RateLimiter.count (ApitorQ._rateLimiter st) <= 18 ->
         transmitted_Q (ApitorQ.stopAll now1 now2 st) =
         Some (ApitorQ.transmitted st
                 ++ [command_Q stop_motors_cmd; command_Q leds_off_cmd]))))) /\
  (forall (now1 now2 : Z) (st : ApitorX.t),
      (ApitorX.isConnected st = Normal false st ->
       ApitorX.stopAll now1 now2 st = Normal tt st) /\
      (ApitorX.isConnected st = Normal true st ->
       ApitorX.stopAll now1 now2 st =
         (ApitorX.setMotor (JNum ApitorX_MotorID.ALL) 0 now1 ;;
          ApitorX.setLED (JNum ApitorX_LedID.ALL)
            (JNum ApitorX_LedColorID.OFF) JUndefined JUndefined now2 ;;
          ret tt)%js st /\
       ApitorX.stopAll now1 now2 st =
         (ApitorX.send ApitorX_BleUuids.UUID_CHARACTERISTIC_WRITE
            stop_motors_cmd true now1 ;;
          ApitorX.send ApitorX_BleUuids.UUID_CHARACTERISTIC_WRITE
            leds_off_cmd true now2 ;;
          ret tt)%js st /\
       (exists st',
           ApitorX.stopAll now1 now2 st = Normal tt st' /\
           ApitorX.transmitted st' =
             ApitorX.transmitted st
               ++ (if fst (RateLimiter.okayToSend now1 (ApitorX._rateLimiter st))
                   then [command_X stop_motors_cmd] else [])
               ++ (if fst (RateLimiter.okayToSend now2
                             (snd (RateLimiter.okayToSend now1
                                     (ApitorX._rateLimiter st))))
                   then [command_X leds_off_cmd] else []) /\
           ApitorX.snapshot st' = ApitorX.snapshot st) /\
       (RateLimiter.maxRate (ApitorX._rateLimiter st) =
          scratch3_apitorx.BLESendRateMax ->
        RateLimiter.in_window (ApitorX._rateLimiter st) now1 ->
        RateLimiter.in_window (ApitorX._rateLimiter st) now2 ->
        (20 <= RateLimiter.count (ApitorX._rateLimiter st) ->
         ApitorX.stopAll now1 now2 st = Normal tt st) /\
        (RateLimiter.count (ApitorX._rateLimiter st) = 19 ->
         transmitted_X (ApitorX.stopAll now1 now2 st) =
         Some (ApitorX.transmitted st ++ [command_X stop_motors_cmd])) /\
        (RateLimiter.count (ApitorX._rateLimiter st) <= 18 ->
         transmitted_X (ApitorX.stopAll now1 now2 st) =
         Some (ApitorX.transmitted st
                 ++ [command_X stop_motors_cmd; command_X leds_off_cmd]))))).
Proof.
  split.
  - intros now1 now2 st. split.
    + intros Hc. unfold ApitorQ.stopAll, bind. now rewrite Hc.
    + intros Hc. split; [|split; [|split]].
      * unfold ApitorQ.stopAll at 1. unfold bind at 1. now rewrite Hc.
      * unfold ApitorQ.stopAll at 1. unfold bind at 1. now rewrite Hc.
      * now apply stopAll_Q_connected.
      * intros Hmax. now apply stopAll_Q_in_window.
  - intros now1 now2 st. split.
    + intros Hc. unfold ApitorX.stopAll, bind. now rewrite Hc.
    + intros Hc. split; [|split; [|split]].
      * unfold ApitorX.stopAll at 1. unfold bind at 1. now rewrite Hc.
      * unfold ApitorX.stopAll at 1. unfold bind at 1. now rewrite Hc.
      * now apply stopAll_X_connected.
      * intros Hmax. now apply stopAll_X_in_window.
Qed.

Lemma stopAll_is_two_rate_limited_commands_witness :
  ApitorQ.stopAll 20 21 (ApitorQ.constructor 0) =
    Normal tt (ApitorQ.constructor 0) /\
  ApitorQ.stopAll 20 21 (after busy_session_Q (ApitorQ.constructor 0)) =
    Normal tt (after busy_session_Q (ApitorQ.constructor 0)) /\
  transmitted_Q
    (ApitorQ.stopAll 20 21 (after (session_Q 18) (ApitorQ.constructor 0))) =
    Some (ApitorQ.transmitted (after (session_Q 18) (ApitorQ.constructor 0))
            ++ [command_Q stop_motors_cmd]) /\
  transmitted_X
    (ApitorX.stopAll 20 21 (after (session_X 0) (ApitorX.constructor 0))) =
    Some (ApitorX.transmitted (after (session_X 0) (ApitorX.constructor 0))
            ++ [command_X stop_motors_cmd; command_X leds_off_cmd]).
Proof.
  assert (Hw : forall rl : RateLimiter.t,
             RateLimiter.windowStart rl = 0 ->
             RateLimiter.in_window rl 20 /\ RateLimiter.in_window rl 21).
  { intros rl H. unfold RateLimiter.in_window, RateLimiter.window.
    rewrite H. lia. }
  destruct stopAll_is_two_rate_limited_commands as [HQ HX].
  split; [|split; [|split]].
  - exact (proj1 (HQ 20 21 (ApitorQ.constructor 0)) eq_refl).
  - destruct (HQ 20 21 (after busy_session_Q (ApitorQ.constructor 0)))
      as (_ & Hconnected).
    destruct Hconnected as (_ & _ & _ & Hceiling); [vm_compute; reflexivity|].
    destruct (Hw (ApitorQ._rateLimiter
                    (after busy_session_Q (ApitorQ.constructor 0))))
      as [Hw1 Hw2]; [vm_compute; reflexivity|].
    destruct (Hceiling) as (Hfull & _ & _);
      [vm_compute; reflexivity | exact Hw1 | exact Hw2 |].
    apply Hfull. vm_compute. discriminate.
  - destruct (HQ 20 21 (after (session_Q 18) (ApitorQ.constructor 0)))
      as (_ & Hconnected).
    destruct Hconnected as (_ & _ & _ & Hceiling); [vm_compute; reflexivity|].
    destruct (Hw (ApitorQ._rateLimiter
                    (after (session_Q 18) (ApitorQ.constructor 0))))
      as [Hw1 Hw2]; [vm_compute; reflexivity|].
    destruct (Hceiling) as (_ & Hlast & _);
      [vm_compute; reflexivity | exact Hw1 | exact Hw2 |].
    apply Hlast. vm_compute. reflexivity.
  - destruct (HX 20 21 (after (session_X 0) (ApitorX.constructor 0)))
      as (_ & Hconnected).
    destruct Hconnected as (_ & _ & _ & Hceiling); [vm_compute; reflexivity|].
    destruct (Hw (ApitorX._rateLimiter
                    (after (session_X 0) (ApitorX.constructor 0))))
      as [Hw1 Hw2]; [vm_compute; reflexivity|].
    destruct (Hceiling) as (_ & _ & Hroom);
      [vm_compute; reflexivity | exact Hw1 | exact Hw2 |].
    apply Hroom. vm_compute. discriminate.
Defined.

Lemma send_resolves_without_transmitting_when_dropped_witness :
  ApitorQ.send ApitorQ_BleUuids.UUID_CHARACTERISTIC_WRITE stop_motors_cmd true
    20 (ApitorQ.constructor 0) =
    Normal Promise_resolve (ApitorQ.constructor 0) /\
  ApitorX.send ApitorX_BleUuids.UUID_CHARACTERISTIC_WRITE stop_motors_cmd true
    20 (after busy_session_X (ApitorX.constructor 0)) =
    Normal Promise_resolve (after busy_session_X (ApitorX.constructor 0)).
Proof.
  destruct send_resolves_without_transmitting_when_dropped as [HQ HX].
  split.
  - destruct (HQ ApitorQ_BleUuids.UUID_CHARACTERISTIC_WRITE stop_motors_cmd
                true 20 (ApitorQ.constructor 0)) as (_ & Hoff & _).
    apply Hoff. reflexivity.
  - destruct (HX ApitorX_BleUuids.UUID_CHARACTERISTIC_WRITE stop_motors_cmd
                true 20 (after busy_session_X (ApitorX.constructor 0)))
      as (_ & _ & Hfull).
    apply Hfull; vm_compute; reflexivity.
Defined.

(** ** Disconnecting *)

Lemma disconnect_Q_run (st : ApitorQ.t) :
  ApitorQ.disconnect st =
  Normal tt
    (ApitorQ.set_sensors (JNum 0) (JNum 0) (JNum 0)
       (match ApitorQ._ble st with
        | Some b => ApitorQ.set_ble (Some (BLE.disconnect b)) st
        | None => st
        end)).
Proof.
  unfold ApitorQ.disconnect, ApitorQ.reset, bind, get, put, modify, ret.
  now destruct (ApitorQ._ble st).
Qed.

Lemma disconnect_X_run (st : ApitorX.t) :
  ApitorX.disconnect st =
  Normal tt
    (ApitorX.set_sensors (JNum 0) (JNum 0) (JNum 0) (JNum 0)
       (match ApitorX._ble st with
        | Some b => ApitorX.set_ble (Some (BLE.disconnect b)) st
        | None => st
        end)).
Proof.
  unfold ApitorX.disconnect, ApitorX.reset, bind, get, put, modify, ret.
  now destruct (ApitorX._ble st).
Qed.

(** C8 — [disconnect()] zeroes the snapshot and is idempotent.  On either
    variant and from every state, [disconnect()] returns normally; afterwards
    every sensor field is 0 and [isConnected()] is false; calling it a second
    time right away ends in exactly the same state; and when there is no
    socket at all ([_ble] is [null]) it only zeroes the sensor fields. *)
Theorem disconnect_zeroes_snapshot_and_is_idempotent :
  (forall st : ApitorQ.t,
      exists st',
        ApitorQ.disconnect st = Normal tt st' /\
        ApitorQ.snapshot st' = (JNum 0, JNum 0, JNum 0) /\
        ApitorQ.isConnected st' = Normal false st' /\
        (ApitorQ.disconnect ;; ApitorQ.disconnect)%js st = Normal tt st' /\
        ApitorQ.disconnect (ApitorQ.set_ble None st) =
          Normal tt (ApitorQ.set_sensors (JNum 0) (JNum 0) (JNum 0)
                       (ApitorQ.set_ble None st))) /\
  (forall st : ApitorX.t,
      exists st',
        ApitorX.disconnect st = Normal tt st' /\
        ApitorX.snapshot st' = (JNum 0, JNum 0, JNum 0, JNum 0) /\
        ApitorX.isConnected st' = Normal false st' /\
        (ApitorX.disconnect ;; ApitorX.disconnect)%js st = Normal tt st' /\
        ApitorX.disconnect (ApitorX.set_ble None st) =
          Normal tt (ApitorX.set_sensors (JNum 0) (JNum 0) (JNum 0) (JNum 0)
                       (ApitorX.set_ble None st))).
Proof.
  split; intros st.
  - eexists. split; [apply disconnect_Q_run|].
    split; [reflexivity|]. split; [|split; [|reflexivity]].
    + rewrite isConnected_Q_run.
      destruct (ApitorQ._ble st) eqn:Hb; cbn; rewrite ?Hb; reflexivity.
    + unfold bind. rewrite disconnect_Q_run, disconnect_Q_run.
      destruct (ApitorQ._ble st) eqn:Hb; cbn; rewrite ?Hb; reflexivity.
  - eexists. split; [apply disconnect_X_run|].
    split; [reflexivity|]. split; [|split; [|reflexivity]].
    + rewrite isConnected_X_run.
      destruct (ApitorX._ble st) eqn:Hb; cbn; rewrite ?Hb; reflexivity.
    + unfold bind. rewrite disconnect_X_run, disconnect_X_run.
      destruct (ApitorX._ble st) eqn:Hb; cbn; rewrite ?Hb; reflexivity.
Qed.

(** ** The command encoders *)

Lemma setMotor_cmd_Q_spec (id : jsval) (s : Z) :
  exists direction,
    ApitorQ.setMotor_cmd id s =
      [JNum 0x55; JNum 0xaa; JNum 0x03;
       (if (s =? 0) && loose_eq id ApitorQ_MotorID.ALL
        then JNum ApitorQ_MotorID.ALLSTOP else id);
       JNum direction; JNum (Z.abs s)] /\
    (direction = ApitorQ_MotorDirectionID.STOP <-> s = 0) /\
    (direction = ApitorQ_MotorDirectionID.D1 <-> 0 < s) /\
    (direction = ApitorQ_MotorDirectionID.D2 <-> s < 0).
Proof.
  unfold ApitorQ.setMotor_cmd. rewrite Z.gtb_ltb.
  destruct (Z.ltb_spec 0 s) as [Hpos | Hle].
  - exists ApitorQ_MotorDirectionID.D1. cbn.
    destruct (Z.eqb_spec s 0) as [-> | _]; [lia|].
    rewrite Z.abs_eq by lia. cbn.
    repeat split; try discriminate; try reflexivity; lia.
  - destruct (Z.eqb_spec s 0) as [-> | Hnz].
    + exists ApitorQ_MotorDirectionID.STOP. cbn.
      repeat split; try discriminate; try reflexivity; lia.
    + exists ApitorQ_MotorDirectionID.D2. cbn.
      destruct (Z.eqb_spec (- s) 0) as [E | _]; [lia|].
      rewrite Z.abs_neq by lia. cbn.
      repeat split; try discriminate; try reflexivity; lia.
Qed.

Lemma setMotor_cmd_X_spec (id : jsval) (s : Z) :
  exists direction,
    ApitorX.setMotor_cmd id s =
      [JNum 0x55; JNum 0xaa; JNum 0x03;
       (if (s =? 0) && loose_eq id ApitorX_MotorID.ALL
        then JNum ApitorX_MotorID.ALLSTOP else id);
       JNum direction; JNum (Z.abs s)] /\
    (direction = ApitorX_MotorDirectionID.STOP <-> s = 0) /\
    (direction = ApitorX_MotorDirectionID.D1 <-> 0 < s) /\
    (direction = ApitorX_MotorDirectionID.D2 <-> s < 0).
Proof.
  unfold ApitorX.setMotor_cmd. rewrite Z.gtb_ltb.
  destruct (Z.ltb_spec 0 s) as [Hpos | Hle].
  - exists ApitorX_MotorDirectionID.D1. cbn.
    destruct (Z.eqb_spec s 0) as [-> | _]; [lia|].
    rewrite Z.abs_eq by lia. cbn.
    repeat split; try discriminate; try reflexivity; lia.
  - destruct (Z.eqb_spec s 0) as [-> | Hnz].
    + exists ApitorX_MotorDirectionID.STOP. cbn.
      repeat split; try discriminate; try reflexivity; lia.
    + exists ApitorX_MotorDirectionID.D2. cbn.
      destruct (Z.eqb_spec (- s) 0) as [E | _]; [lia|].
      rewrite Z.abs_neq by lia. cbn.
      repeat split; try discriminate; try reflexivity; lia.
Qed.

(** The spec's scenario [setLED(ALL, OFF, 0, 0)]: 55 AA 04, the all-stop
    id, 00 00 00. *)
Example setLED_all_off :
  ApitorQ.setLED_cmd (JNum ApitorQ_LedID.ALL) (JNum ApitorQ_LedColorID.OFF)
    (JNum 0) (JNum 0) =
  [JNum 0x55; JNum 0xaa; JNum 0x04; JNum ApitorQ_LedID.ALLSTOP; JNum 0x00;
   JNum 0; JNum 0].
Proof. reflexivity. Qed.

(** C2 — the motor frame.  On either variant, for every target id and
    every signed speed s in [-16, 16], [setMotor(id, s)] hands to [send] the
    6-element frame 55 AA 03, id byte, direction, magnitude, where the id
    byte is the target (the all-stop id for the target ALL at speed 0), the
    direction is STOP (0x00) iff s = 0, D1 (0x01) iff s > 0 and D2 (0x02) iff
    s < 0, and the magnitude is |s|, which lies in [0, 16].  In particular
    [setMotor(M1, -5)] builds 55 AA 03 M1 D2 05. *)
Theorem setMotor_frame_direction_and_magnitude :
  forall (id : jsval) (s : Z),
    -16 <= s <= 16 ->
    (exists direction,
        ApitorQ.setMotor_cmd id s =
          [JNum 0x55; JNum 0xaa; JNum 0x03;
           (if (s =? 0) && loose_eq id ApitorQ_MotorID.ALL
            then JNum ApitorQ_MotorID.ALLSTOP else id);
           JNum direction; JNum (Z.abs s)] /\
        (direction = ApitorQ_MotorDirectionID.STOP <-> s = 0) /\
        (direction = ApitorQ_MotorDirectionID.D1 <-> 0 < s) /\
        (direction = ApitorQ_MotorDirectionID.D2 <-> s < 0) /\
        0 <= Z.abs s <= 16 /\
        (forall now,
            ApitorQ.setMotor id s now =
            ApitorQ.send ApitorQ_BleUuids.UUID_CHARACTERISTIC_WRITE
              (ApitorQ.setMotor_cmd id s) true now)) /\
    ApitorQ_MotorDirectionID.STOP = 0x00 /\
    ApitorQ_MotorDirectionID.D1 = 0x01 /\
    ApitorQ_MotorDirectionID.D2 = 0x02 /\
    ApitorQ.setMotor_cmd (JNum ApitorQ_MotorID.M1) (-5) =
      [JNum 0x55; JNum 0xaa; JNum 0x03; JNum ApitorQ_MotorID.M1;
       JNum ApitorQ_MotorDirectionID.D2; JNum 5] /\
    (exists direction,
        ApitorX.setMotor_cmd id s =
          [JNum 0x55; JNum 0xaa; JNum 0x03;
           (if (s =? 0) && loose_eq id ApitorX_MotorID.ALL
            then JNum ApitorX_MotorID.ALLSTOP else id);
           JNum direction; JNum (Z.abs s)] /\
        (direction = ApitorX_MotorDirectionID.STOP <-> s = 0) /\
        (direction = ApitorX_MotorDirectionID.D1 <-> 0 < s) /\
        (direction = ApitorX_MotorDirectionID.D2 <-> s < 0) /\
        0 <= Z.abs s <= 16 /\
        (forall now,
            ApitorX.setMotor id s now =
            ApitorX.send ApitorX_BleUuids.UUID_CHARACTERISTIC_WRITE
              (ApitorX.setMotor_cmd id s) true now)) /\
    ApitorX_MotorDirectionID.STOP = 0x00 /\
    ApitorX_MotorDirectionID.D1 = 0x01 /\
    ApitorX_MotorDirectionID.D2 = 0x02 /\
    ApitorX.setMotor_cmd (JNum ApitorX_MotorID.M1) (-5) =
      [JNum 0x55; JNum 0xaa; JNum 0x03; JNum ApitorX_MotorID.M1;
       JNum ApitorX_MotorDirectionID.D2; JNum 5].
Proof.
  intros id s Hrange.
  destruct (setMotor_cmd_Q_spec id s) as (dq & Hq & Hq0 & Hq1 & Hq2).
  destruct (setMotor_cmd_X_spec id s) as (dx & Hx & Hx0 & Hx1 & Hx2).
  split; [|split; [|split; [|split; [|split; [|split]]]]].
  - exists dq. repeat split; try tauto; try lia.
  - reflexivity.
  - reflexivity.
  - reflexivity.
  - reflexivity.
  - exists dx. repeat split; try tauto; try lia.
  - now repeat split.
Qed.

Lemma setMotor_frame_direction_and_magnitude_witness :
  -16 <= -5 <= 16 /\
  exists direction,
    ApitorQ.setMotor_cmd (JNum ApitorQ_MotorID.M1) (-5) =
      [JNum 0x55; JNum 0xaa; JNum 0x03; JNum ApitorQ_MotorID.M1;
       JNum direction; JNum 5] /\
    (direction = ApitorQ_MotorDirectionID.D2 <-> -5 < 0).
Proof.
  split; [lia|].
  destruct (setMotor_frame_direction_and_magnitude
              (JNum ApitorQ_MotorID.M1) (-5)) as [HQ _]; [lia|].
  destruct HQ as (direction & Hcmd & _ & _ & Hrev & _).
  exists direction. split; [exact Hcmd | exact Hrev].
Defined.





(** C4, evaluated on the code — the blink times arrive swapped.  The
    encoder is declared [setLED(id, color, offTime, onTime)] and emits
    [..., onTime, offTime]: its fourth argument lands at frame index 5 and
    its third at index 6.  [commandSetLedBlink] passes [(id, color, ontime,
    offtime)], so the frame it sends carries OFF_TIME at index 5 and ON_TIME
    at index 6; the block with ON_TIME = 2 and OFF_TIME = 5 on LED 1 in red
    sends 55 AA 04 01 01 05 02, and that is what a connected peripheral
    writes after its handshake. *)
Theorem setLED_blink_times_land_swapped :
  ((forall id color a3 a4,
       ApitorQ.setLED_cmd id color a3 a4 =
       led_frame
         (if loose_eq color 0 && loose_eq id ApitorQ_LedID.ALL
          then JNum ApitorQ_LedID.ALLSTOP else id)
         color a4 a3) /\
   (forall args now,
       Scratch3ApitorQBlocks.commandSetLedBlink args now =
       (ApitorQ.send ApitorQ_BleUuids.UUID_CHARACTERISTIC_WRITE
          (led_frame
             (if (MathUtil.wrapClamp
                    (Scratch3ApitorQBlocks.LED_COLOR_ID args) 0 7 =? 0)
                 && (Scratch3ApitorQBlocks.LED_ID args =? ApitorQ_LedID.ALL)
              then JNum ApitorQ_LedID.ALLSTOP
              else JNum (Scratch3ApitorQBlocks.LED_ID args))
             (JNum (MathUtil.wrapClamp
                      (Scratch3ApitorQBlocks.LED_COLOR_ID args) 0 7))
             (JNum (Scratch3ApitorQBlocks.OFF_TIME args))
             (JNum (Scratch3ApitorQBlocks.ON_TIME args)))
          true now ;;
        ret (Promise_timeout 100))%js) /\
   (forall now,
       Scratch3ApitorQBlocks.commandSetLedBlink blink_2_5_Q now =
       (ApitorQ.send ApitorQ_BleUuids.UUID_CHARACTERISTIC_WRITE
          [JNum 0x55; JNum 0xaa; JNum 0x04; JNum 1; JNum 1; JNum 5; JNum 2]
          true now ;;
        ret (Promise_timeout 100))%js) /\
   transmitted_Q
     (Scratch3ApitorQBlocks.commandSetLedBlink blink_2_5_Q 10
        (after (session_Q 0) (ApitorQ.constructor 0))) =
   Some [command_Q (map JNum ApitorQ.password);
         command_Q
           [JNum 0x55; JNum 0xaa; JNum 0x04; JNum 1; JNum 1; JNum 5; JNum 2]]) /\
  ((forall id color a3 a4,
       ApitorX.setLED_cmd id color a3 a4 =
       led_frame
         (if loose_eq color 0 && loose_eq id ApitorX_LedID.ALL
          then JNum ApitorX_LedID.ALLSTOP else id)
         color a4 a3) /\
   (forall args now,
       Scratch3ApitorXBlocks.commandSetLedBlink args now =
       (ApitorX.send ApitorX_BleUuids.UUID_CHARACTERISTIC_WRITE
          (led_frame
             (if (MathUtil.wrapClamp
                    (Scratch3ApitorXBlocks.LED_COLOR_ID args) 0 7 =? 0)
                 && (Scratch3ApitorXBlocks.LED_ID args =? ApitorX_LedID.ALL)
              then JNum ApitorX_LedID.ALLSTOP
              else JNum (Scratch3ApitorXBlocks.LED_ID args))
             (JNum (MathUtil.wrapClamp
                      (Scratch3ApitorXBlocks.LED_COLOR_ID args) 0 7))
             (JNum (Scratch3ApitorXBlocks.OFF_TIME args))
             (JNum (Scratch3ApitorXBlocks.ON_TIME args)))
          true now ;;
        ret (Promise_timeout 100))%js) /\
   (forall now,
       Scratch3ApitorXBlocks.commandSetLedBlink blink_2_5_X now =
       (ApitorX.send ApitorX_BleUuids.UUID_CHARACTERISTIC_WRITE
          [JNum 0x55; JNum 0xaa; JNum 0x04; JNum 1; JNum 1; JNum 5; JNum 2]
          true now ;;
        ret (Promise_timeout 100))%js) /\
   transmitted_X
     (Scratch3ApitorXBlocks.commandSetLedBlink blink_2_5_X 10
        (after (session_X 0) (ApitorX.constructor 0))) =
   Some [command_X (map JNum ApitorX.password);
         command_X
           [JNum 0x55; JNum 0xaa; JNum 0x04; JNum 1; JNum 1; JNum 5; JNum 2]]).
Proof.
  split; (split; [reflexivity|]); (split; [reflexivity|]);
    (split; [reflexivity|]); vm_compute; reflexivity.
Qed.

(** ** The password *)

Lemma password_Q_hex :
  ApitorQ.password =
  [0x55; 0xaa; 0x11; 0x20; 0x64; 0x79; 0x6f; 0x7a; 0x57; 0x4f;
   0x50; 0x66; 0x30; 0x35; 0x32; 0x67; 0x57; 0x56; 0x50; 0x34].
Proof. vm_compute. reflexivity. Qed.

Lemma password_X_hex :
  ApitorX.password =
  [0x55; 0xaa; 0x11; 0x20; 0x55; 0x49; 0x4d; 0x38; 0x4c; 0x56;
   0x79; 0x52; 0x6e; 0x75; 0x70; 0x69; 0x73; 0x65; 0x42; 0x76].
Proof. vm_compute. reflexivity. Qed.

(** C9 as stated fails: the password frames are not 18 bytes long. *)
Lemma password_is_not_18_bytes :
  List.length ApitorQ.password <> 18%nat /\
  List.length ApitorX.password <> 18%nat.
Proof. rewrite password_Q_hex, password_X_hex. split; discriminate. Qed.

(** C9, as the code has it — the password frame of each variant is 20
    bytes long and begins with 0x55, 0xAA, 0x11 (the two magic bytes and the
    count 17 of the bytes that follow); it is the frame [_sendPassword]
    passes to [send]. *)
Theorem password_frame_is_20_bytes :
  (List.length ApitorQ.password = 20%nat /\
   firstn 3 ApitorQ.password = [0x55; 0xaa; 0x11] /\
   Z.of_nat (List.length (skipn 3 ApitorQ.password)) = 0x11 /\
   forall now,
     ApitorQ._sendPassword now =
     (ApitorQ.send ApitorQ_BleUuids.UUID_CHARACTERISTIC_WRITE
        (map JNum ApitorQ.password) true now ;; ret tt)%js) /\
  (List.length ApitorX.password = 20%nat /\
   firstn 3 ApitorX.password = [0x55; 0xaa; 0x11] /\
   Z.of_nat (List.length (skipn 3 ApitorX.password)) = 0x11 /\
   forall now,
     ApitorX._sendPassword now =
     (ApitorX.send ApitorX_BleUuids.UUID_CHARACTERISTIC_WRITE
        (map JNum ApitorX.password) true now ;; ret tt)%js).
Proof. rewrite password_Q_hex, password_X_hex. repeat split. Qed.

(** * Further properties *)

(** ** The motor encoder and the motor blocks *)

(** X1 — [setMotor] encodes the signed speed without loss: for the same
    target, two different speeds never give the same frame. *)
Theorem setMotor_frames_of_different_speeds_differ :
  (forall (id : jsval) (s1 s2 : Z),
      s1 <> s2 ->
      ApitorQ.setMotor_cmd id s1 <> ApitorQ.setMotor_cmd id s2) /\
  (forall (id : jsval) (s1 s2 : Z),
      s1 <> s2 ->
      ApitorX.setMotor_cmd id s1 <> ApitorX.setMotor_cmd id s2).
Proof.
  split; intros id s1 s2 Hne Heq.
  - destruct (setMotor_cmd_Q_spec id s1) as (d1 & E1 & Hz1 & Hp1 & Hn1).
    destruct (setMotor_cmd_Q_spec id s2) as (d2 & E2 & Hz2 & Hp2 & Hn2).
    rewrite E1, E2 in Heq. injection Heq as _ Hd Hm. subst d2.
    unfold ApitorQ_MotorDirectionID.STOP, ApitorQ_MotorDirectionID.D1,
      ApitorQ_MotorDirectionID.D2 in *.
    destruct (Z.lt_trichotomy s1 0) as [H | [H | H]].
    + apply Hn1 in H. apply Hn2 in H. lia.
    + apply Hz1 in H. apply Hz2 in H. lia.
    + apply Hp1 in H. apply Hp2 in H. lia.
  - destruct (setMotor_cmd_X_spec id s1) as (d1 & E1 & Hz1 & Hp1 & Hn1).
    destruct (setMotor_cmd_X_spec id s2) as (d2 & E2 & Hz2 & Hp2 & Hn2).
    rewrite E1, E2 in Heq. injection Heq as _ Hd Hm. subst d2.
    unfold ApitorX_MotorDirectionID.STOP, ApitorX_MotorDirectionID.D1,
      ApitorX_MotorDirectionID.D2 in *.
    destruct (Z.lt_trichotomy s1 0) as [H | [H | H]].
    + apply Hn1 in H. apply Hn2 in H. lia.
    + apply Hz1 in H. apply Hz2 in H. lia.
    + apply Hp1 in H. apply Hp2 in H. lia.
Qed.

Lemma setMotor_frames_of_different_speeds_differ_witness :
  3 <> -3 /\
  ApitorQ.setMotor_cmd (JNum ApitorQ_MotorID.M1) 3 <>
  ApitorQ.setMotor_cmd (JNum ApitorQ_MotorID.M1) (-3).
Proof.
  assert (H : 3 <> -3) by discriminate.
  split; [exact H|].
  exact (proj1 setMotor_frames_of_different_speeds_differ
           (JNum ApitorQ_MotorID.M1) 3 (-3) H).
Defined.

(** X2 — the motor-on block.  For a positive MOTOR_SPEED the block sends
    55 AA 03, the motor id as given (never the all-stop id), the direction
    D2 when MOTOR_DIRECTION_ID is D2 and D1 for every other value, and the
    speed as magnitude; so every speed and direction the menus offer reach
    the wire unchanged. *)
Theorem commandMotorOn_frame :
  (forall (args : Scratch3ApitorQBlocks.MotorOnArgs) (now : Z),
      0 < Scratch3ApitorQBlocks.MOTOR_SPEED args ->
      Scratch3ApitorQBlocks.commandMotorOn args now =
      (ApitorQ.send ApitorQ_BleUuids.UUID_CHARACTERISTIC_WRITE
         [JNum 0x55; JNum 0xaa; JNum 0x03;
          JNum (Scratch3ApitorQBlocks.MOTOR_ID args);
          JNum (if Scratch3ApitorQBlocks.MOTOR_DIRECTION_ID args
                   =? ApitorQ_MotorDirectionID.D2
                then ApitorQ_MotorDirectionID.D2
                else ApitorQ_MotorDirectionID.D1);
          JNum (Scratch3ApitorQBlocks.MOTOR_SPEED args)]
         true now ;;
       ret (Promise_timeout 100))%js /\
      (In (Scratch3ApitorQBlocks.MOTOR_SPEED args)
          Scratch3ApitorQBlocks.menu_MOTOR_SPEED ->
       In (Scratch3ApitorQBlocks.MOTOR_DIRECTION_ID args)
          Scratch3ApitorQBlocks.menu_MOTOR_DIRECTION_ID ->
       Scratch3ApitorQBlocks.commandMotorOn args now =
       (ApitorQ.send ApitorQ_BleUuids.UUID_CHARACTERISTIC_WRITE
          [JNum 0x55; JNum 0xaa; JNum 0x03;
           JNum (Scratch3ApitorQBlocks.MOTOR_ID args);
           JNum (Scratch3ApitorQBlocks.MOTOR_DIRECTION_ID args);
           JNum (Scratch3ApitorQBlocks.MOTOR_SPEED args)]
          true now ;;
        ret (Promise_timeout 100))%js)) /\
  (forall (args : Scratch3ApitorXBlocks.MotorOnArgs) (now : Z),
      0 < Scratch3ApitorXBlocks.MOTOR_SPEED args ->
      Scratch3ApitorXBlocks.commandMotorOn args now =
      (ApitorX.send ApitorX_BleUuids.UUID_CHARACTERISTIC_WRITE
         [JNum 0x55; JNum 0xaa; JNum 0x03;
          JNum (Scratch3ApitorXBlocks.MOTOR_ID args);
          JNum (if Scratch3ApitorXBlocks.MOTOR_DIRECTION_ID args
                   =? ApitorX_MotorDirectionID.D2
                then ApitorX_MotorDirectionID.D2
                else ApitorX_MotorDirectionID.D1);
          JNum (Scratch3ApitorXBlocks.MOTOR_SPEED args)]
         true now ;;
       ret (Promise_timeout 100))%js /\
      (In (Scratch3ApitorXBlocks.MOTOR_SPEED args)
          Scratch3ApitorXBlocks.menu_MOTOR_SPEED ->
       In (Scratch3ApitorXBlocks.MOTOR_DIRECTION_ID args)
          Scratch3ApitorXBlocks.menu_MOTOR_DIRECTION_ID ->
       Scratch3ApitorXBlocks.commandMotorOn args now =
       (ApitorX.send ApitorX_BleUuids.UUID_CHARACTERISTIC_WRITE
          [JNum 0x55; JNum 0xaa; JNum 0x03;
           JNum (Scratch3ApitorXBlocks.MOTOR_ID args);
           JNum (Scratch3ApitorXBlocks.MOTOR_DIRECTION_ID args);
           JNum (Scratch3ApitorXBlocks.MOTOR_SPEED args)]
          true now ;;
        ret (Promise_timeout 100))%js)).
Proof.
  split; intros [id dir speed] now Hpos; cbn [Scratch3ApitorQBlocks.MOTOR_ID
    Scratch3ApitorQBlocks.MOTOR_DIRECTION_ID Scratch3ApitorQBlocks.MOTOR_SPEED
    Scratch3ApitorXBlocks.MOTOR_ID Scratch3ApitorXBlocks.MOTOR_DIRECTION_ID
    Scratch3ApitorXBlocks.MOTOR_SPEED] in *.
  - assert (Hgen :
      Scratch3ApitorQBlocks.commandMotorOn
        (Scratch3ApitorQBlocks.mkMotorOnArgs id dir speed) now =
      (ApitorQ.send ApitorQ_BleUuids.UUID_CHARACTERISTIC_WRITE
         [JNum 0x55; JNum 0xaa; JNum 0x03; JNum id;
          JNum (if dir =? ApitorQ_MotorDirectionID.D2
                then ApitorQ_MotorDirectionID.D2
                else ApitorQ_MotorDirectionID.D1);
          JNum speed] true now ;;
       ret (Promise_timeout 100))%js).
    { unfold Scratch3ApitorQBlocks.commandMotorOn, ApitorQ.setMotor,
        ApitorQ.setMotor_cmd, Cast.toNumber.
      cbn [Scratch3ApitorQBlocks.MOTOR_ID
             Scratch3ApitorQBlocks.MOTOR_DIRECTION_ID
             Scratch3ApitorQBlocks.MOTOR_SPEED].
      destruct (dir =? ApitorQ_MotorDirectionID.D2).
      - destruct (Z.gtb_spec (- speed) 0); [lia|].
        destruct (Z.eqb_spec (- speed) 0); [lia|]. cbn.
        destruct (Z.eqb_spec (- - speed) 0); [lia|].
        now rewrite Z.opp_involutive.
      - destruct (Z.gtb_spec speed 0); [|lia]. cbn.
        destruct (Z.eqb_spec speed 0); [lia|]. reflexivity. }
    split; [exact Hgen|]. intros _ Hdir. rewrite Hgen.
    cbn in Hdir. destruct Hdir as [<- | [<- | []]]; reflexivity.
  - assert (Hgen :
      Scratch3ApitorXBlocks.commandMotorOn
        (Scratch3ApitorXBlocks.mkMotorOnArgs id dir speed) now =
      (ApitorX.send ApitorX_BleUuids.UUID_CHARACTERISTIC_WRITE
         [JNum 0x55; JNum 0xaa; JNum 0x03; JNum id;
          JNum (if dir =? ApitorX_MotorDirectionID.D2
                then ApitorX_MotorDirectionID.D2
                else ApitorX_MotorDirectionID.D1);
          JNum speed] true now ;;
       ret (Promise_timeout 100))%js).
    { unfold Scratch3ApitorXBlocks.commandMotorOn, ApitorX.setMotor,
        ApitorX.setMotor_cmd, Cast.toNumber.
      cbn [Scratch3ApitorXBlocks.MOTOR_ID
             Scratch3ApitorXBlocks.MOTOR_DIRECTION_ID
             Scratch3ApitorXBlocks.MOTOR_SPEED].
      destruct (dir =? ApitorX_MotorDirectionID.D2).
      - destruct (Z.gtb_spec (- speed) 0); [lia|].
        destruct (Z.eqb_spec (- speed) 0); [lia|]. cbn.
        destruct (Z.eqb_spec (- - speed) 0); [lia|].
        now rewrite Z.opp_involutive.
      - destruct (Z.gtb_spec speed 0); [|lia]. cbn.
        destruct (Z.eqb_spec speed 0); [lia|]. reflexivity. }
    split; [exact Hgen|]. intros _ Hdir. rewrite Hgen.
    cbn in Hdir. destruct Hdir as [<- | [<- | []]]; reflexivity.
Qed.

Lemma commandMotorOn_frame_witness :
  0 < 5 /\
  In 5 Scratch3ApitorQBlocks.menu_MOTOR_SPEED /\
  In ApitorQ_MotorDirectionID.D2 Scratch3ApitorQBlocks.menu_MOTOR_DIRECTION_ID /\
  Scratch3ApitorQBlocks.commandMotorOn
    (Scratch3ApitorQBlocks.mkMotorOnArgs
       ApitorQ_MotorID.M1 ApitorQ_MotorDirectionID.D2 5) 10 =
  (ApitorQ.send ApitorQ_BleUuids.UUID_CHARACTERISTIC_WRITE
     [JNum 0x55; JNum 0xaa; JNum 0x03; JNum ApitorQ_MotorID.M1;
      JNum ApitorQ_MotorDirectionID.D2; JNum 5] true 10 ;;
   ret (Promise_timeout 100))%js.
Proof.
  assert (H1 : 0 < 5) by reflexivity.
  assert (H2 : In 5 Scratch3ApitorQBlocks.menu_MOTOR_SPEED)
    by (cbn; tauto).
  assert (H3 : In ApitorQ_MotorDirectionID.D2
                  Scratch3ApitorQBlocks.menu_MOTOR_DIRECTION_ID)
    by (cbn; tauto).
  split; [exact H1|]. split; [exact H2|]. split; [exact H3|].
  exact (proj2 (proj1 commandMotorOn_frame
                  (Scratch3ApitorQBlocks.mkMotorOnArgs
                     ApitorQ_MotorID.M1 ApitorQ_MotorDirectionID.D2 5)
                  10 H1) H2 H3).
Defined.

(** X3 — a motor-on block with speed 0 is the motor-off block: whatever
    the direction, it makes the same call as [commandMotorOff] on the same
    motor. *)
Theorem commandMotorOn_at_speed_0_is_commandMotorOff :
  (forall (args : Scratch3ApitorQBlocks.MotorOnArgs) (now : Z),
      Scratch3ApitorQBlocks.MOTOR_SPEED args = 0 ->
      Scratch3ApitorQBlocks.commandMotorOn args now =
      Scratch3ApitorQBlocks.commandMotorOff
        (Scratch3ApitorQBlocks.mkMotorOffArgs
           (Scratch3ApitorQBlocks.MOTOR_ID args)) now) /\
  (forall (args : Scratch3ApitorXBlocks.MotorOnArgs) (now : Z),
      Scratch3ApitorXBlocks.MOTOR_SPEED args = 0 ->
      Scratch3ApitorXBlocks.commandMotorOn args now =
      Scratch3ApitorXBlocks.commandMotorOff
        (Scratch3ApitorXBlocks.mkMotorOffArgs
           (Scratch3ApitorXBlocks.MOTOR_ID args)) now).
Proof.
  split; intros [id dir speed] now Hzero; cbn in Hzero; subst speed.
  - unfold Scratch3ApitorQBlocks.commandMotorOn,
      Scratch3ApitorQBlocks.commandMotorOff, Cast.toNumber. cbn.
    now destruct (dir =? ApitorQ_MotorDirectionID.D2).
  - unfold Scratch3ApitorXBlocks.commandMotorOn,
      Scratch3ApitorXBlocks.commandMotorOff, Cast.toNumber. cbn.
    now destruct (dir =? ApitorX_MotorDirectionID.D2).
Qed.

Lemma commandMotorOn_at_speed_0_is_commandMotorOff_witness :
  Scratch3ApitorXBlocks.MOTOR_SPEED
    (Scratch3ApitorXBlocks.mkMotorOnArgs
       ApitorX_MotorID.M3 ApitorX_MotorDirectionID.D2 0) = 0 /\
  Scratch3ApitorXBlocks.commandMotorOn
    (Scratch3ApitorXBlocks.mkMotorOnArgs
       ApitorX_MotorID.M3 ApitorX_MotorDirectionID.D2 0) 10 =
  Scratch3ApitorXBlocks.commandMotorOff
    (Scratch3ApitorXBlocks.mkMotorOffArgs ApitorX_MotorID.M3) 10.
Proof.
  split; [reflexivity|].
  exact (proj2 commandMotorOn_at_speed_0_is_commandMotorOff
           (Scratch3ApitorXBlocks.mkMotorOnArgs
              ApitorX_MotorID.M3 ApitorX_MotorDirectionID.D2 0)
           10 eq_refl).
Defined.

(** X4 — the motor-off block sends 55 AA 03, the motor id, 00 00, with
    the all-stop id 0x10 in place of the id ALL; for ALL it is the very
    frame [stopAll] sends to stop the motors. *)
Theorem commandMotorOff_frame :
  (forall (args : Scratch3ApitorQBlocks.MotorOffArgs) (now : Z),
      Scratch3ApitorQBlocks.commandMotorOff args now =
      (ApitorQ.send ApitorQ_BleUuids.UUID_CHARACTERISTIC_WRITE
         [JNum 0x55; JNum 0xaa; JNum 0x03;
          JNum (if Scratch3ApitorQBlocks.off_MOTOR_ID args
                   =? ApitorQ_MotorID.ALL
                then 0x10 else Scratch3ApitorQBlocks.off_MOTOR_ID args);
          JNum 0; JNum 0]
         true now ;;
       ret (Promise_timeout 100))%js /\
      Scratch3ApitorQBlocks.commandMotorOff
        (Scratch3ApitorQBlocks.mkMotorOffArgs ApitorQ_MotorID.ALL) now =
      (ApitorQ.send ApitorQ_BleUuids.UUID_CHARACTERISTIC_WRITE
         stop_motors_cmd true now ;;
       ret (Promise_timeout 100))%js) /\
  (forall (args : Scratch3ApitorXBlocks.MotorOffArgs) (now : Z),
      Scratch3ApitorXBlocks.commandMotorOff args now =
      (ApitorX.send ApitorX_BleUuids.UUID_CHARACTERISTIC_WRITE
         [JNum 0x55; JNum 0xaa; JNum 0x03;
          JNum (if Scratch3ApitorXBlocks.off_MOTOR_ID args
                   =? ApitorX_MotorID.ALL
                then 0x10 else Scratch3ApitorXBlocks.off_MOTOR_ID args);
          JNum 0; JNum 0]
         true now ;;
       ret (Promise_timeout 100))%js /\
      Scratch3ApitorXBlocks.commandMotorOff
        (Scratch3ApitorXBlocks.mkMotorOffArgs ApitorX_MotorID.ALL) now =
      (ApitorX.send ApitorX_BleUuids.UUID_CHARACTERISTIC_WRITE
         stop_motors_cmd true now ;;
       ret (Promise_timeout 100))%js).
Proof.
  split; intros [id] now; (split; [|reflexivity]).
  - unfold Scratch3ApitorQBlocks.commandMotorOff, ApitorQ.setMotor,
      ApitorQ.setMotor_cmd, Cast.toNumber. cbn.
    now destruct (id =? ApitorQ_MotorID.ALL).
  - unfold Scratch3ApitorXBlocks.commandMotorOff, ApitorX.setMotor,
      ApitorX.setMotor_cmd, Cast.toNumber. cbn.
    now destruct (id =? ApitorX_MotorID.ALL).
Qed.

(** ** The LED blocks *)

Lemma wrapClamp_0_7 (n : Z) :
  MathUtil.wrapClamp n 0 7 = n mod 8 /\ 0 <= MathUtil.wrapClamp n 0 7 <= 7.
Proof.
  unfold MathUtil.wrapClamp. change (7 - 0 + 1) with 8. rewrite Z.sub_0_r.
  split; Z.div_mod_to_equations; lia.
Qed.

(** X5 — the LED blocks keep the color in the palette.  Whatever
    LED_COLOR_ID is, the color element of the frame is that number wrapped
    into [0, 7] (a menu color is sent as it is); [commandSetLedOn] sends both
    tick elements as 0; and the all-stop id replaces ALL exactly when the
    wrapped color is 0, so color 8 on ALL turns all LEDs off. *)
Theorem led_blocks_wrap_color_into_palette :
  (forall (args : Scratch3ApitorQBlocks.LedOnArgs) (now : Z),
      exists c,
        c = Scratch3ApitorQBlocks.on_LED_COLOR_ID args mod 8 /\
        0 <= c <= 7 /\
        (In (Scratch3ApitorQBlocks.on_LED_COLOR_ID args)
            Scratch3ApitorQBlocks.menu_LED_COLOR_ID ->
         c = Scratch3ApitorQBlocks.on_LED_COLOR_ID args) /\
        Scratch3ApitorQBlocks.commandSetLedOn args now =
        (ApitorQ.send ApitorQ_BleUuids.UUID_CHARACTERISTIC_WRITE
           (led_frame
              (JNum (if (c =? 0)
                        && (Scratch3ApitorQBlocks.on_LED_ID args
                              =? ApitorQ_LedID.ALL)
                     then ApitorQ_LedID.ALLSTOP
                     else Scratch3ApitorQBlocks.on_LED_ID args))
              (JNum c) (JNum 0) (JNum 0))
           true now ;;
         ret (Promise_timeout 100))%js) /\
  (forall (args : Scratch3ApitorQBlocks.LedBlinkArgs) (now : Z),
      exists c,
        c = Scratch3ApitorQBlocks.LED_COLOR_ID args mod 8 /\
        0 <= c <= 7 /\
        Scratch3ApitorQBlocks.commandSetLedBlink args now =
        (ApitorQ.send ApitorQ_BleUuids.UUID_CHARACTERISTIC_WRITE
           (led_frame
              (JNum (if (c =? 0)
                        && (Scratch3ApitorQBlocks.LED_ID args
                              =? ApitorQ_LedID.ALL)
                     then ApitorQ_LedID.ALLSTOP
                     else Scratch3ApitorQBlocks.LED_ID args))
              (JNum c)
              (JNum (Scratch3ApitorQBlocks.OFF_TIME args))
              (JNum (Scratch3ApitorQBlocks.ON_TIME args)))
           true now ;;
         ret (Promise_timeout 100))%js) /\
  (forall (args : Scratch3ApitorXBlocks.LedOnArgs) (now : Z),
      exists c,
        c = Scratch3ApitorXBlocks.on_LED_COLOR_ID args mod 8 /\
        0 <= c <= 7 /\
        (In (Scratch3ApitorXBlocks.on_LED_COLOR_ID args)
            Scratch3ApitorXBlocks.menu_LED_COLOR_ID ->
         c = Scratch3ApitorXBlocks.on_LED_COLOR_ID args) /\
        Scratch3ApitorXBlocks.commandSetLedOn args now =
        (ApitorX.send ApitorX_BleUuids.UUID_CHARACTERISTIC_WRITE
           (led_frame
              (JNum (if (c =? 0)
                        && (Scratch3ApitorXBlocks.on_LED_ID args
                              =? ApitorX_LedID.ALL)
                     then ApitorX_LedID.ALLSTOP
                     else Scratch3ApitorXBlocks.on_LED_ID args))
              (JNum c) (JNum 0) (JNum 0))
           true now ;;
         ret (Promise_timeout 100))%js) /\
  (forall (args : Scratch3ApitorXBlocks.LedBlinkArgs) (now : Z),
      exists c,
        c = Scratch3ApitorXBlocks.LED_COLOR_ID args mod 8 /\
        0 <= c <= 7 /\
        Scratch3ApitorXBlocks.commandSetLedBlink args now =
        (ApitorX.send ApitorX_BleUuids.UUID_CHARACTERISTIC_WRITE
           (led_frame
              (JNum (if (c =? 0)
                        && (Scratch3ApitorXBlocks.LED_ID args
                              =? ApitorX_LedID.ALL)
                     then ApitorX_LedID.ALLSTOP
                     else Scratch3ApitorXBlocks.LED_ID args))
              (JNum c)
              (JNum (Scratch3ApitorXBlocks.OFF_TIME args))
              (JNum (Scratch3ApitorXBlocks.ON_TIME args)))
           true now ;;
         ret (Promise_timeout 100))%js).
Proof.
  split; [|split; [|split]].
  - intros [id color] now. cbn.
    destruct (wrapClamp_0_7 color) as [Hmod Hrange].
    exists (MathUtil.wrapClamp color 0 7).
    split; [exact Hmod|]. split; [exact Hrange|]. split.
    + intros Hin. rewrite Hmod.
      repeat (destruct Hin as [<- | Hin]; [reflexivity|]). destruct Hin.
    + unfold Scratch3ApitorQBlocks.commandSetLedOn, ApitorQ.setLED,
        ApitorQ.setLED_cmd, Cast.toNumber, led_frame. cbn.
      now destruct ((MathUtil.wrapClamp color 0 7 =? 0)
                    && (id =? ApitorQ_LedID.ALL)).
  - intros [id color ontime offtime] now. cbn.
    destruct (wrapClamp_0_7 color) as [Hmod Hrange].
    exists (MathUtil.wrapClamp color 0 7).
    split; [exact Hmod|]. split; [exact Hrange|].
    unfold Scratch3ApitorQBlocks.commandSetLedBlink, ApitorQ.setLED,
      ApitorQ.setLED_cmd, Cast.toNumber, led_frame. cbn.
    now destruct ((MathUtil.wrapClamp color 0 7 =? 0)
                  && (id =? ApitorQ_LedID.ALL)).
  - intros [id color] now. cbn.
    destruct (wrapClamp_0_7 color) as [Hmod Hrange].
    exists (MathUtil.wrapClamp color 0 7).
    split; [exact Hmod|]. split; [exact Hrange|]. split.
    + intros Hin. rewrite Hmod.
      repeat (destruct Hin as [<- | Hin]; [reflexivity|]). destruct Hin.
    + unfold Scratch3ApitorXBlocks.commandSetLedOn, ApitorX.setLED,
        ApitorX.setLED_cmd, Cast.toNumber, led_frame. cbn.
      now destruct ((MathUtil.wrapClamp color 0 7 =? 0)
                    && (id =? ApitorX_LedID.ALL)).
  - intros [id color ontime offtime] now. cbn.
    destruct (wrapClamp_0_7 color) as [Hmod Hrange].
    exists (MathUtil.wrapClamp color 0 7).
    split; [exact Hmod|]. split; [exact Hrange|].
    unfold Scratch3ApitorXBlocks.commandSetLedBlink, ApitorX.setLED,
      ApitorX.setLED_cmd, Cast.toNumber, led_frame. cbn.
    now destruct ((MathUtil.wrapClamp color 0 7 =? 0)
                  && (id =? ApitorX_LedID.ALL)).
Qed.

Lemma led_blocks_wrap_color_into_palette_witness :
  In ApitorQ_LedColorID.RED Scratch3ApitorQBlocks.menu_LED_COLOR_ID /\
  exists c,
    c = ApitorQ_LedColorID.RED /\
    Scratch3ApitorQBlocks.commandSetLedOn
      (Scratch3ApitorQBlocks.mkLedOnArgs ApitorQ_LedID.L1
         ApitorQ_LedColorID.RED) 10 =
    (ApitorQ.send ApitorQ_BleUuids.UUID_CHARACTERISTIC_WRITE
       (led_frame
          (JNum (if (c =? 0) && (ApitorQ_LedID.L1 =? ApitorQ_LedID.ALL)
                 then ApitorQ_LedID.ALLSTOP else ApitorQ_LedID.L1))
          (JNum c) (JNum 0) (JNum 0))
       true 10 ;;
     ret (Promise_timeout 100))%js.
Proof.
  assert (Hin : In ApitorQ_LedColorID.RED
                   Scratch3ApitorQBlocks.menu_LED_COLOR_ID)
    by (cbn; tauto).
  split; [exact Hin|].
  destruct (proj1 led_blocks_wrap_color_into_palette
              (Scratch3ApitorQBlocks.mkLedOnArgs ApitorQ_LedID.L1
                 ApitorQ_LedColorID.RED) 10)
    as (c & _ & _ & Hmenu & Hrun).
  exists c. split; [exact (Hmenu Hin) | exact Hrun].
Defined.

(** ** What every event preserves *)

Section Preservation.

Context {S : Type} (P : S -> Prop).

Lemma preserves_ret {A} (a : A) : preserves P (ret a).
Proof. intros s a' s' [= _ <-] H. exact H. Qed.

Lemma preserves_bind {A B} (m : M S A) (k : A -> M S B) :
  preserves P m -> (forall a, preserves P (k a)) -> preserves P (bind m k).
Proof.
  intros Hm Hk s b s' Hrun Hs. unfold bind in Hrun.
  destruct (m s) as [a s1|e] eqn:E; [|discriminate].
  exact (Hk a s1 b s' Hrun (Hm s a s1 E Hs)).
Qed.

Lemma preserves_modify (f : S -> S) :
  (forall s, P s -> P (f s)) -> preserves P (modify f).
Proof. intros Hf s a s' [= _ <-] H. now apply Hf. Qed.

End Preservation.

Lemma octets_are_bytes (n : nat) :
  forall l : list Z,
    (List.length l <= n)%nat -> Forall is_byte (Base64Util.octets l).
Proof.
  induction n as [n IH] using (well_founded_induction lt_wf).
  intros l Hlen.
  assert (Hmod : forall z, is_byte (z mod 256))
    by (intros z; unfold is_byte; apply Z.mod_pos_bound; lia).
  destruct l as [|a [|b [|c [|d rest]]]]; cbn [Base64Util.octets];
    repeat (apply Forall_cons; [apply Hmod|]); try apply Forall_nil.
  apply (IH (List.length rest)); cbn in Hlen; lia.
Qed.

Lemma decoded_are_bytes (base64 : string) :
  Forall is_byte (Base64Util.base64ToUint8Array base64).
Proof. now apply (octets_are_bytes (List.length (Base64Util.sextets base64))). Qed.

Lemma okayToSend_in_bounds (now : Z) (rl : RateLimiter.t) :
  limiter_in_bounds rl ->
  limiter_in_bounds (snd (RateLimiter.okayToSend now rl)).
Proof.
  unfold limiter_in_bounds, RateLimiter.okayToSend. intros [Hmax Hcount].
  destruct (RateLimiter.elapsed rl now);
    match goal with |- context [?a <? ?b] => destruct (Z.ltb_spec a b) end;
    cbn; lia.
Qed.

Lemma setLED_cmd_Q_well_framed id color offTime onTime :
  well_framed (ApitorQ.setLED_cmd id color offTime onTime).
Proof. unfold ApitorQ.setLED_cmd. do 2 eexists. split; reflexivity. Qed.

Lemma setMotor_cmd_Q_well_framed id speed :
  well_framed (ApitorQ.setMotor_cmd id speed).
Proof.
  destruct (setMotor_cmd_Q_spec id speed) as (d & -> & _).
  do 2 eexists. split; reflexivity.
Qed.

Lemma password_Q_well_framed : well_framed (map JNum ApitorQ.password).
Proof. rewrite password_Q_hex. do 2 eexists. split; reflexivity. Qed.

Lemma invariant_Q_set_rateLimiter rl (st : ApitorQ.t) :
  invariant_Q st -> limiter_in_bounds rl ->
  invariant_Q (ApitorQ.set_rateLimiter rl st).
Proof.
  intros (Hs & Hw & Hn & _) Hrl.
  split; [exact Hs | split; [exact Hw | split; [exact Hn | exact Hrl]]].
Qed.

Lemma invariant_Q_set_ble b (st : ApitorQ.t) :
  invariant_Q st ->
  Forall proper_request_Q (BLE.written b) ->
  Forall (fun s => s = (ApitorQ_BleUuids.UUID_SERVICE,
                        ApitorQ_BleUuids.UUID_CHARACTERISTIC_READ_NOTIFY))
         (BLE.subscribed b) ->
  invariant_Q (ApitorQ.set_ble (Some b) st).
Proof.
  intros (Hs & _ & _ & Hrl) Hw Hn.
  split; [exact Hs | split; [exact Hw | split; [exact Hn | exact Hrl]]].
Qed.

Lemma invariant_Q_socket (st : ApitorQ.t) b :
  invariant_Q st -> ApitorQ._ble st = Some b ->
  Forall proper_request_Q (BLE.written b) /\
  Forall (fun s => s = (ApitorQ_BleUuids.UUID_SERVICE,
                        ApitorQ_BleUuids.UUID_CHARACTERISTIC_READ_NOTIFY))
         (BLE.subscribed b).
Proof.
  intros (_ & Hw & Hn & _) Hb.
  unfold ApitorQ.transmitted, subscriptions_Q in *. rewrite Hb in *.
  now split.
Qed.

Lemma send_Q_keeps_invariant message useLimiter now :
  well_framed message ->
  preserves invariant_Q
    (ApitorQ.send ApitorQ_BleUuids.UUID_CHARACTERISTIC_WRITE message
       useLimiter now).
Proof.
  intros Hframe st p st' Hrun Hinv.
  assert (Hproper : proper_request_Q
            (request_Q ApitorQ_BleUuids.UUID_CHARACTERISTIC_WRITE message))
    by (split; [reflexivity | split; [reflexivity | split;
          [reflexivity | exact Hframe]]]).
  assert (Hrl : limiter_in_bounds
            (snd (RateLimiter.okayToSend now (ApitorQ._rateLimiter st))))
    by (apply okayToSend_in_bounds, Hinv).
  destruct (ApitorQ._ble st) as [b|] eqn:Hb.
  - destruct (invariant_Q_socket st b Hinv Hb) as [Hw Hn].
    destruct (BLE.connected b) eqn:Hc.
    + destruct useLimiter.
      * destruct (RateLimiter.okayToSend now (ApitorQ._rateLimiter st))
          as [[|] rl] eqn:Hok.
        -- rewrite (send_Q_permitted _ _ _ _ _ _ Hb Hc Hok) in Hrun.
           injection Hrun as _ <-.
           apply invariant_Q_set_ble; cbn.
           ++ now apply invariant_Q_set_rateLimiter.
           ++ apply Forall_app. split; [exact Hw | now constructor].
           ++ exact Hn.
        -- rewrite send_Q_rejected with (rl := rl) in Hrun;
             [| now rewrite isConnected_Q_run, Hb, Hc | exact Hok].
           injection Hrun as _ <-.
           now apply invariant_Q_set_rateLimiter.
      * rewrite (send_Q_unlimited _ _ _ _ _ Hb Hc) in Hrun.
        injection Hrun as _ <-.
        apply invariant_Q_set_ble; cbn.
        -- exact Hinv.
        -- apply Forall_app. split; [exact Hw | now constructor].
        -- exact Hn.
    + rewrite send_Q_disconnected in Hrun
        by (now rewrite isConnected_Q_run, Hb, Hc).
      now injection Hrun as _ <-.
  - rewrite send_Q_disconnected in Hrun
      by (now rewrite isConnected_Q_run, Hb).
    now injection Hrun as _ <-.
Qed.

Lemma setLED_cmd_X_well_framed id color offTime onTime :
  well_framed (ApitorX.setLED_cmd id color offTime onTime).
Proof. unfold ApitorX.setLED_cmd. do 2 eexists. split; reflexivity. Qed.

Lemma setMotor_cmd_X_well_framed id speed :
  well_framed (ApitorX.setMotor_cmd id speed).
Proof.
  destruct (setMotor_cmd_X_spec id speed) as (d & -> & _).
  do 2 eexists. split; reflexivity.
Qed.

Lemma password_X_well_framed : well_framed (map JNum ApitorX.password).
Proof. rewrite password_X_hex. do 2 eexists. split; reflexivity. Qed.

Lemma invariant_X_set_rateLimiter rl (st : ApitorX.t) :
  invariant_X st -> limiter_in_bounds rl ->
  invariant_X (ApitorX.set_rateLimiter rl st).
Proof.
  intros (Hs & Hw & Hn & _) Hrl.
  split; [exact Hs | split; [exact Hw | split; [exact Hn | exact Hrl]]].
Qed.

Lemma invariant_X_set_ble b (st : ApitorX.t) :
  invariant_X st ->
  Forall proper_request_X (BLE.written b) ->
  Forall (fun s => s = (ApitorX_BleUuids.UUID_SERVICE,
                        ApitorX_BleUuids.UUID_CHARACTERISTIC_READ_NOTIFY))
         (BLE.subscribed b) ->
  invariant_X (ApitorX.set_ble (Some b) st).
Proof.
  intros (Hs & _ & _ & Hrl) Hw Hn.
  split; [exact Hs | split; [exact Hw | split; [exact Hn | exact Hrl]]].
Qed.

Lemma invariant_X_socket (st : ApitorX.t) b :
  invariant_X st -> ApitorX._ble st = Some b ->
  Forall proper_request_X (BLE.written b) /\
  Forall (fun s => s = (ApitorX_BleUuids.UUID_SERVICE,
                        ApitorX_BleUuids.UUID_CHARACTERISTIC_READ_NOTIFY))
         (BLE.subscribed b).
Proof.
  intros (_ & Hw & Hn & _) Hb.
  unfold ApitorX.transmitted, subscriptions_X in *. rewrite Hb in *.
  now split.
Qed.

Lemma send_X_keeps_invariant message useLimiter now :
  well_framed message ->
  preserves invariant_X
    (ApitorX.send ApitorX_BleUuids.UUID_CHARACTERISTIC_WRITE message
       useLimiter now).
Proof.
  intros Hframe st p st' Hrun Hinv.
  assert (Hproper : proper_request_X
            (request_X ApitorX_BleUuids.UUID_CHARACTERISTIC_WRITE message))
    by (split; [reflexivity | split; [reflexivity | split;
          [reflexivity | exact Hframe]]]).
  assert (Hrl : limiter_in_bounds
            (snd (RateLimiter.okayToSend now (ApitorX._rateLimiter st))))
    by (apply okayToSend_in_bounds, Hinv).
  destruct (ApitorX._ble st) as [b|] eqn:Hb.
  - destruct (invariant_X_socket st b Hinv Hb) as [Hw Hn].
    destruct (BLE.connected b) eqn:Hc.
    + destruct useLimiter.
      * destruct (RateLimiter.okayToSend now (ApitorX._rateLimiter st))
          as [[|] rl] eqn:Hok.
        -- rewrite (send_X_permitted _ _ _ _ _ _ Hb Hc Hok) in Hrun.
           injection Hrun as _ <-.
           apply invariant_X_set_ble; cbn.
           ++ now apply invariant_X_set_rateLimiter.
           ++ apply Forall_app. split; [exact Hw | now constructor].
           ++ exact Hn.
        -- rewrite send_X_rejected with (rl := rl) in Hrun;
             [| now rewrite isConnected_X_run, Hb, Hc | exact Hok].
           injection Hrun as _ <-.
           now apply invariant_X_set_rateLimiter.
      * rewrite (send_X_unlimited _ _ _ _ _ Hb Hc) in Hrun.
        injection Hrun as _ <-.
        apply invariant_X_set_ble; cbn.
        -- exact Hinv.
        -- apply Forall_app. split; [exact Hw | now constructor].
        -- exact Hn.
    + rewrite send_X_disconnected in Hrun
        by (now rewrite isConnected_X_run, Hb, Hc).
      now injection Hrun as _ <-.
  - rewrite send_X_disconnected in Hrun
      by (now rewrite isConnected_X_run, Hb).
    now injection Hrun as _ <-.
Qed.

Lemma invariant_Q_set_sensors c i1 p (st : ApitorQ.t) :
  invariant_Q st -> is_byte c -> is_byte i1 -> is_byte p ->
  invariant_Q (ApitorQ.set_sensors (JNum c) (JNum i1) (JNum p) st).
Proof.
  intros (_ & Hw & Hn & Hrl) Hc Hi1 Hp.
  split; [|split; [exact Hw | split; [exact Hn | exact Hrl]]].
  unfold sensors_are_bytes_Q. cbn.
  repeat eexists; unfold is_byte in *; lia.
Qed.

Lemma reset_Q_keeps_invariant : preserves invariant_Q ApitorQ.reset.
Proof.
  apply preserves_modify. intros st Hinv.
  apply invariant_Q_set_sensors; unfold is_byte; (exact Hinv || lia).
Qed.

Lemma on_ble_Q_keeps_invariant {A} (f : BLE.t -> A * BLE.t) :
  (forall b, BLE.written (snd (f b)) = BLE.written b) ->
  (forall b,
      Forall (fun s => s = (ApitorQ_BleUuids.UUID_SERVICE,
                            ApitorQ_BleUuids.UUID_CHARACTERISTIC_READ_NOTIFY))
             (BLE.subscribed b) ->
      Forall (fun s => s = (ApitorQ_BleUuids.UUID_SERVICE,
                            ApitorQ_BleUuids.UUID_CHARACTERISTIC_READ_NOTIFY))
             (BLE.subscribed (snd (f b)))) ->
  preserves invariant_Q (ApitorQ.on_ble f).
Proof.
  intros Hw Hn st a st' Hrun Hinv. unfold ApitorQ.on_ble in Hrun.
  destruct (ApitorQ._ble st) as [b|] eqn:Hb; [|discriminate].
  destruct (invariant_Q_socket st b Hinv Hb) as [Hwb Hnb].
  specialize (Hw b). specialize (Hn b Hnb).
  destruct (f b) as [a' b']. injection Hrun as _ <-. cbn in Hw, Hn.
  apply invariant_Q_set_ble; [exact Hinv | now rewrite Hw | exact Hn].
Qed.

Lemma scan_Q_keeps_invariant : preserves invariant_Q ApitorQ.scan.
Proof.
  intros st a st' Hrun (Hs & _ & _ & Hrl).
  unfold ApitorQ.scan, bind, get, put, modify, ret in Hrun.
  destruct (ApitorQ._ble st) as [b|]; injection Hrun as _ <-;
    (split; [exact Hs | split; [|split; [|exact Hrl]]]);
    unfold ApitorQ.transmitted, subscriptions_Q; cbn; constructor.
Qed.

Lemma connect_Q_keeps_invariant id :
  preserves invariant_Q (ApitorQ.connect id).
Proof.
  intros st a st' Hrun Hinv.
  unfold ApitorQ.connect, bind, get, put, ret in Hrun.
  destruct (ApitorQ._ble st) as [b|] eqn:Hb; injection Hrun as _ <-.
  - destruct (invariant_Q_socket st b Hinv Hb) as [Hwb Hnb].
    now apply invariant_Q_set_ble.
  - exact Hinv.
Qed.

Lemma disconnect_Q_keeps_invariant :
  preserves invariant_Q ApitorQ.disconnect.
Proof.
  intros st a st' Hrun Hinv. rewrite disconnect_Q_run in Hrun.
  injection Hrun as _ <-.
  apply invariant_Q_set_sensors; unfold is_byte; try lia.
  destruct (ApitorQ._ble st) as [b|] eqn:Hb; [|exact Hinv].
  destruct (invariant_Q_socket st b Hinv Hb) as [Hwb Hnb].
  now apply invariant_Q_set_ble.
Qed.

Lemma onMessage_Q_keeps_invariant base64 :
  preserves invariant_Q (ApitorQ._onMessage base64).
Proof.
  intros st a st' Hrun Hinv. unfold ApitorQ._onMessage in Hrun.
  pose proof (decoded_are_bytes base64) as Hbytes.
  fold (discards (Base64Util.base64ToUint8Array base64)) in Hrun.
  destruct (discards (Base64Util.base64ToUint8Array base64)) eqn:Hd.
  - injection Hrun as _ <-. exact Hinv.
  - apply discards_false_iff, frame_accepted_shape in Hd.
    destruct Hd as (b3 & b4 & b5 & b6 & b7 & Hshape).
    rewrite Hshape in Hrun, Hbytes. injection Hrun as _ <-.
    do 4 (apply Forall_inv_tail in Hbytes).
    inversion Hbytes as [|? ? H4 Hb5]; subst.
    inversion Hb5 as [|? ? H5 Hb6]; subst.
    inversion Hb6 as [|? ? H6 Hb7]; subst.
    inversion Hb7 as [|? ? H7 _]; subst.
    now apply invariant_Q_set_sensors.
Qed.

Lemma sendPassword_Q_keeps_invariant now :
  preserves invariant_Q (ApitorQ._sendPassword now).
Proof.
  apply preserves_bind; [|intros; apply preserves_ret].
  apply send_Q_keeps_invariant, password_Q_well_framed.
Qed.

Lemma onConnect_Q_keeps_invariant now :
  preserves invariant_Q (ApitorQ._onConnect now).
Proof.
  apply preserves_bind; [apply sendPassword_Q_keeps_invariant|].
  intros _. apply on_ble_Q_keeps_invariant; [reflexivity|].
  intros b Hn. cbn. apply Forall_app. split; [exact Hn | now constructor].
Qed.

Lemma setMotor_Q_keeps_invariant id speed now :
  preserves invariant_Q (ApitorQ.setMotor id speed now).
Proof. apply send_Q_keeps_invariant, setMotor_cmd_Q_well_framed. Qed.

Lemma setLED_Q_keeps_invariant id color offTime onTime now :
  preserves invariant_Q (ApitorQ.setLED id color offTime onTime now).
Proof. apply send_Q_keeps_invariant, setLED_cmd_Q_well_framed. Qed.

Lemma isConnected_Q_preserves (P : ApitorQ.t -> Prop) :
  preserves P ApitorQ.isConnected.
Proof.
  intros st a st' Hrun H. rewrite isConnected_Q_run in Hrun.
  now injection Hrun as _ <-.
Qed.

Lemma happen_Q_keeps_invariant (e : event_Q) :
  preserves invariant_Q (happen_Q e).
Proof.
  destruct e; cbn [happen_Q].
  - apply scan_Q_keeps_invariant.
  - apply connect_Q_keeps_invariant.
  - apply disconnect_Q_keeps_invariant.
  - apply reset_Q_keeps_invariant.
  - apply preserves_bind; [apply setLED_Q_keeps_invariant|].
    intros; apply preserves_ret.
  - apply preserves_bind; [apply setMotor_Q_keeps_invariant|].
    intros; apply preserves_ret.
  - apply preserves_bind; [apply isConnected_Q_preserves|].
    intros [|]; [|apply preserves_ret]. cbn [negb].
    apply preserves_bind; [apply setMotor_Q_keeps_invariant|]. intros _.
    apply preserves_bind; [apply setLED_Q_keeps_invariant|].
    intros; apply preserves_ret.
  - apply preserves_bind; [|intros; apply onConnect_Q_keeps_invariant].
    now apply on_ble_Q_keeps_invariant.
  - apply preserves_bind; [|intros; apply reset_Q_keeps_invariant].
    now apply on_ble_Q_keeps_invariant.
  - apply onMessage_Q_keeps_invariant.
  - apply preserves_bind; [|intros; apply preserves_ret].
    apply preserves_bind; [apply setMotor_Q_keeps_invariant|].
    intros; apply preserves_ret.
  - apply preserves_bind; [|intros; apply preserves_ret].
    apply preserves_bind; [apply setMotor_Q_keeps_invariant|].
    intros; apply preserves_ret.
  - apply preserves_bind; [|intros; apply preserves_ret].
    apply preserves_bind; [apply setLED_Q_keeps_invariant|].
    intros; apply preserves_ret.
  - apply preserves_bind; [|intros; apply preserves_ret].
    apply preserves_bind; [apply setLED_Q_keeps_invariant|].
    intros; apply preserves_ret.
Qed.

Lemma history_Q_keeps_invariant (es : list event_Q) :
  preserves invariant_Q (history_Q es).
Proof.
  induction es as [|e es IH]; cbn [history_Q].
  - apply preserves_ret.
  - apply preserves_bind; [apply happen_Q_keeps_invariant | intros _; exact IH].
Qed.

Lemma constructor_Q_invariant now : invariant_Q (ApitorQ.constructor now).
Proof.
  split; [|split; [constructor | split; [constructor|]]].
  - unfold sensors_are_bytes_Q, is_byte. cbn. repeat eexists; lia.
  - split; [reflexivity | cbn; lia].
Qed.

Lemma reachable_Q_invariant (st : ApitorQ.t) :
  reachable_Q st -> invariant_Q st.
Proof.
  intros (now & es & Hrun).
  exact (history_Q_keeps_invariant es _ _ _ Hrun
           (constructor_Q_invariant now)).
Qed.

Lemma invariant_X_set_sensors c i1 i2 p (st : ApitorX.t) :
  invariant_X st -> is_byte c -> is_byte i1 -> is_byte i2 -> is_byte p ->
  invariant_X (ApitorX.set_sensors (JNum c) (JNum i1) (JNum i2) (JNum p) st).
Proof.
  intros (_ & Hw & Hn & Hrl) Hc Hi1 Hi2 Hp.
  split; [|split; [exact Hw | split; [exact Hn | exact Hrl]]].
  unfold sensors_are_bytes_X. cbn.
  repeat eexists; unfold is_byte in *; lia.
Qed.

Lemma reset_X_keeps_invariant : preserves invariant_X ApitorX.reset.
Proof.
  apply preserves_modify. intros st Hinv.
  apply invariant_X_set_sensors; unfold is_byte; (exact Hinv || lia).
Qed.

Lemma on_ble_X_keeps_invariant {A} (f : BLE.t -> A * BLE.t) :
  (forall b, BLE.written (snd (f b)) = BLE.written b) ->
  (forall b,
      Forall (fun s => s = (ApitorX_BleUuids.UUID_SERVICE,
                            ApitorX_BleUuids.UUID_CHARACTERISTIC_READ_NOTIFY))
             (BLE.subscribed b) ->
      Forall (fun s => s = (ApitorX_BleUuids.UUID_SERVICE,
                            ApitorX_BleUuids.UUID_CHARACTERISTIC_READ_NOTIFY))
             (BLE.subscribed (snd (f b)))) ->
  preserves invariant_X (ApitorX.on_ble f).
Proof.
  intros Hw Hn st a st' Hrun Hinv. unfold ApitorX.on_ble in Hrun.
  destruct (ApitorX._ble st) as [b|] eqn:Hb; [|discriminate].
  destruct (invariant_X_socket st b Hinv Hb) as [Hwb Hnb].
  specialize (Hw b). specialize (Hn b Hnb).
  destruct (f b) as [a' b']. injection Hrun as _ <-. cbn in Hw, Hn.
  apply invariant_X_set_ble; [exact Hinv | now rewrite Hw | exact Hn].
Qed.

Lemma scan_X_keeps_invariant : preserves invariant_X ApitorX.scan.
Proof.
  intros st a st' Hrun (Hs & _ & _ & Hrl).
  unfold ApitorX.scan, bind, get, put, modify, ret in Hrun.
  destruct (ApitorX._ble st) as [b|]; injection Hrun as _ <-;
    (split; [exact Hs | split; [|split; [|exact Hrl]]]);
    unfold ApitorX.transmitted, subscriptions_X; cbn; constructor.
Qed.

Lemma connect_X_keeps_invariant id :
  preserves invariant_X (ApitorX.connect id).
Proof.
  intros st a st' Hrun Hinv.
  unfold ApitorX.connect, bind, get, put, ret in Hrun.
  destruct (ApitorX._ble st) as [b|] eqn:Hb; injection Hrun as _ <-.
  - destruct (invariant_X_socket st b Hinv Hb) as [Hwb Hnb].
    now apply invariant_X_set_ble.
  - exact Hinv.
Qed.

Lemma disconnect_X_keeps_invariant :
  preserves invariant_X ApitorX.disconnect.
Proof.
  intros st a st' Hrun Hinv. rewrite disconnect_X_run in Hrun.
  injection Hrun as _ <-.
  apply invariant_X_set_sensors; unfold is_byte; try lia.
  destruct (ApitorX._ble st) as [b|] eqn:Hb; [|exact Hinv].
  destruct (invariant_X_socket st b Hinv Hb) as [Hwb Hnb].
  now apply invariant_X_set_ble.
Qed.

Lemma onMessage_X_keeps_invariant base64 :
  preserves invariant_X (ApitorX._onMessage base64).
Proof.
  intros st a st' Hrun Hinv. unfold ApitorX._onMessage in Hrun.
  pose proof (decoded_are_bytes base64) as Hbytes.
  fold (discards (Base64Util.base64ToUint8Array base64)) in Hrun.
  destruct (discards (Base64Util.base64ToUint8Array base64)) eqn:Hd.
  - injection Hrun as _ <-. exact Hinv.
  - apply discards_false_iff, frame_accepted_shape in Hd.
    destruct Hd as (b3 & b4 & b5 & b6 & b7 & Hshape).
    rewrite Hshape in Hrun, Hbytes. injection Hrun as _ <-.
    do 4 (apply Forall_inv_tail in Hbytes).
    inversion Hbytes as [|? ? H4 Hb5]; subst.
    inversion Hb5 as [|? ? H5 Hb6]; subst.
    inversion Hb6 as [|? ? H6 Hb7]; subst.
    inversion Hb7 as [|? ? H7 _]; subst.
    now apply invariant_X_set_sensors.
Qed.

Lemma sendPassword_X_keeps_invariant now :
  preserves invariant_X (ApitorX._sendPassword now).
Proof.
  apply preserves_bind; [|intros; apply preserves_ret].
  apply send_X_keeps_invariant, password_X_well_framed.
Qed.

Lemma onConnect_X_keeps_invariant now :
  preserves invariant_X (ApitorX._onConnect now).
Proof.
  apply preserves_bind; [apply sendPassword_X_keeps_invariant|].
  intros _. apply on_ble_X_keeps_invariant; [reflexivity|].
  intros b Hn. cbn. apply Forall_app. split; [exact Hn | now constructor].
Qed.

Lemma setMotor_X_keeps_invariant id speed now :
  preserves invariant_X (ApitorX.setMotor id speed now).
Proof. apply send_X_keeps_invariant, setMotor_cmd_X_well_framed. Qed.

Lemma setLED_X_keeps_invariant id color offTime onTime now :
  preserves invariant_X (ApitorX.setLED id color offTime onTime now).
Proof. apply send_X_keeps_invariant, setLED_cmd_X_well_framed. Qed.

Lemma isConnected_X_preserves (P : ApitorX.t -> Prop) :
  preserves P ApitorX.isConnected.
Proof.
  intros st a st' Hrun H. rewrite isConnected_X_run in Hrun.
  now injection Hrun as _ <-.
Qed.

Lemma happen_X_keeps_invariant (e : event_X) :
  preserves invariant_X (happen_X e).
Proof.
  destruct e; cbn [happen_X].
  - apply scan_X_keeps_invariant.
  - apply connect_X_keeps_invariant.
  - apply disconnect_X_keeps_invariant.
  - apply reset_X_keeps_invariant.
  - apply preserves_bind; [apply setLED_X_keeps_invariant|].
    intros; apply preserves_ret.
  - apply preserves_bind; [apply setMotor_X_keeps_invariant|].
    intros; apply preserves_ret.
  - apply preserves_bind; [apply isConnected_X_preserves|].
    intros [|]; [|apply preserves_ret]. cbn [negb].
    apply preserves_bind; [apply setMotor_X_keeps_invariant|]. intros _.
    apply preserves_bind; [apply setLED_X_keeps_invariant|].
    intros; apply preserves_ret.
  - apply preserves_bind; [|intros; apply onConnect_X_keeps_invariant].
    now apply on_ble_X_keeps_invariant.
  - apply preserves_bind; [|intros; apply reset_X_keeps_invariant].
    now apply on_ble_X_keeps_invariant.
  - apply onMessage_X_keeps_invariant.
  - apply preserves_bind; [|intros; apply preserves_ret].
    apply preserves_bind; [apply setMotor_X_keeps_invariant|].
    intros; apply preserves_ret.
  - apply preserves_bind; [|intros; apply preserves_ret].
    apply preserves_bind; [apply setMotor_X_keeps_invariant|].
    intros; apply preserves_ret.
  - apply preserves_bind; [|intros; apply preserves_ret].
    apply preserves_bind; [apply setLED_X_keeps_invariant|].
    intros; apply preserves_ret.
  - apply preserves_bind; [|intros; apply preserves_ret].
    apply preserves_bind; [apply setLED_X_keeps_invariant|].
    intros; apply preserves_ret.
Qed.

Lemma history_X_keeps_invariant (es : list event_X) :
  preserves invariant_X (history_X es).
Proof.
  induction es as [|e es IH]; cbn [history_X].
  - apply preserves_ret.
  - apply preserves_bind; [apply happen_X_keeps_invariant | intros _; exact IH].
Qed.

Lemma constructor_X_invariant now : invariant_X (ApitorX.constructor now).
Proof.
  split; [|split; [constructor | split; [constructor|]]].
  - unfold sensors_are_bytes_X, is_byte. cbn. repeat eexists; lia.
  - split; [reflexivity | cbn; lia].
Qed.

Lemma reachable_X_invariant (st : ApitorX.t) :
  reachable_X st -> invariant_X st.
Proof.
  intros (now & es & Hrun).
  exact (history_X_keeps_invariant es _ _ _ Hrun
           (constructor_X_invariant now)).
Qed.

(** ** Invariants of the reachable states *)

(** X6 — the sensor fields always hold bytes.  Whatever methods are
    called and whatever notifications arrive, from construction on, every
    sensor field is a number in [0, 255], never [undefined]. *)
Theorem sensor_fields_are_always_bytes :
  (forall st : ApitorQ.t, reachable_Q st -> sensors_are_bytes_Q st) /\
  (forall st : ApitorX.t, reachable_X st -> sensors_are_bytes_X st).
Proof.
  split; intros st Hst.
  - apply (reachable_Q_invariant st Hst).
  - apply (reachable_X_invariant st Hst).
Qed.

Lemma sensor_fields_are_always_bytes_witness :
  reachable_X
    (after (history_X [X_scan; X_connect 1; X_link_established 0;
                       X_notification "VaoFAAMHAAk="; X_notification "VaoFAA==";
                       X_stopAll 5 6])
           (ApitorX.constructor 0)) /\
  sensors_are_bytes_X
    (after (history_X [X_scan; X_connect 1; X_link_established 0;
                       X_notification "VaoFAAMHAAk="; X_notification "VaoFAA==";
                       X_stopAll 5 6])
           (ApitorX.constructor 0)).
Proof.
  assert (H : reachable_X
    (after (history_X [X_scan; X_connect 1; X_link_established 0;
                       X_notification "VaoFAAMHAAk="; X_notification "VaoFAA==";
                       X_stopAll 5 6])
           (ApitorX.constructor 0))).
  { exists 0, [X_scan; X_connect 1; X_link_established 0;
               X_notification "VaoFAAMHAAk="; X_notification "VaoFAA==";
               X_stopAll 5 6].
    vm_compute. reflexivity. }
  split; [exact H|].
  exact (proj2 sensor_fields_are_always_bytes _ H).
Defined.

(** X7 — the driver only ever writes well-framed messages.  In every
    reachable state, each request in the socket's write log goes to the
    write characteristic of the Apitor service, is marked base64, and
    carries a message that starts 0x55 0xAA followed by the count of the
    elements after it; and every subscription is to the notify
    characteristic. *)
Theorem writes_are_always_well_framed :
  (forall st : ApitorQ.t,
      reachable_Q st ->
      Forall proper_request_Q (ApitorQ.transmitted st) /\
      Forall (fun s => s = (ApitorQ_BleUuids.UUID_SERVICE,
                            ApitorQ_BleUuids.UUID_CHARACTERISTIC_READ_NOTIFY))
             (subscriptions_Q st)) /\
  (forall st : ApitorX.t,
      reachable_X st ->
      Forall proper_request_X (ApitorX.transmitted st) /\
      Forall (fun s => s = (ApitorX_BleUuids.UUID_SERVICE,
                            ApitorX_BleUuids.UUID_CHARACTERISTIC_READ_NOTIFY))
             (subscriptions_X st)).
Proof.
  split; intros st Hst.
  - destruct (reachable_Q_invariant st Hst) as (_ & Hw & Hn & _). now split.
  - destruct (reachable_X_invariant st Hst) as (_ & Hw & Hn & _). now split.
Qed.

Lemma writes_are_always_well_framed_witness :
  reachable_Q (after (session_Q 2) (ApitorQ.constructor 0)) /\
  Forall proper_request_Q
    (ApitorQ.transmitted (after (session_Q 2) (ApitorQ.constructor 0))) /\
  List.length
    (ApitorQ.transmitted (after (session_Q 2) (ApitorQ.constructor 0))) = 3%nat.
Proof.
  assert (H : reachable_Q (after (session_Q 2) (ApitorQ.constructor 0))).
  { exists 0, [Q_scan; Q_connect 1; Q_link_established 0;
               Q_setMotor (JNum ApitorQ_MotorID.M1) 5 10;
               Q_setMotor (JNum ApitorQ_MotorID.M1) 5 10].
    vm_compute. reflexivity. }
  split; [exact H|]. split.
  - exact (proj1 (proj1 writes_are_always_well_framed _ H)).
  - vm_compute. reflexivity.
Defined.

(** X8 — the limiter's counter never passes the ceiling.  In every
    reachable state the limiter still has the ceiling 20 it was built with
    and its window counter lies in [0, 20]. *)
Theorem limiter_counter_never_passes_ceiling :
  (forall st : ApitorQ.t,
      reachable_Q st ->
      RateLimiter.maxRate (ApitorQ._rateLimiter st) = 20 /\
      0 <= RateLimiter.count (ApitorQ._rateLimiter st) <= 20) /\
  (forall st : ApitorX.t,
      reachable_X st ->
      RateLimiter.maxRate (ApitorX._rateLimiter st) = 20 /\
      0 <= RateLimiter.count (ApitorX._rateLimiter st) <= 20).
Proof.
  split; intros st Hst.
  - apply (reachable_Q_invariant st Hst).
  - apply (reachable_X_invariant st Hst).
Qed.

Lemma limiter_counter_never_passes_ceiling_witness :
  reachable_Q (after (history_Q
                        (Q_scan :: Q_connect 1 :: Q_link_established 0
                           :: repeat (Q_stopAll 10 11) 15))
                     (ApitorQ.constructor 0)) /\
  (RateLimiter.maxRate
     (ApitorQ._rateLimiter
        (after (history_Q
                  (Q_scan :: Q_connect 1 :: Q_link_established 0
                     :: repeat (Q_stopAll 10 11) 15))
               (ApitorQ.constructor 0))) = 20 /\
   0 <= RateLimiter.count
          (ApitorQ._rateLimiter
             (after (history_Q
                       (Q_scan :: Q_connect 1 :: Q_link_established 0
                          :: repeat (Q_stopAll 10 11) 15))
                    (ApitorQ.constructor 0))) <= 20).
Proof.
  assert (H : reachable_Q
    (after (history_Q
              (Q_scan :: Q_connect 1 :: Q_link_established 0
                 :: repeat (Q_stopAll 10 11) 15))
           (ApitorQ.constructor 0))).
  { exists 0, (Q_scan :: Q_connect 1 :: Q_link_established 0
                 :: repeat (Q_stopAll 10 11) 15).
    vm_compute. reflexivity. }
  split; [exact H|].
  exact (proj1 limiter_counter_never_passes_ceiling _ H).
Defined.

(** ** The sensor blocks *)

Lemma reachable_Q_infrared1 (st : ApitorQ.t) :
  reachable_Q st -> exists v, ApitorQ.sensorInfrared1 st = JNum v.
Proof.
  intros (Hs & _)%reachable_Q_invariant.
  destruct Hs as (c & i1 & p & [= _ E _] & _). now exists i1.
Qed.

Lemma reachable_X_infrared (st : ApitorX.t) :
  reachable_X st ->
  exists v1 v2,
    ApitorX.sensorInfrared1 st = JNum v1 /\ ApitorX.sensorInfrared2 st = JNum v2.
Proof.
  intros (Hs & _)%reachable_X_invariant.
  destruct Hs as (c & i1 & i2 & p & [= _ E1 E2 _] & _). now exists i1, i2.
Qed.

Lemma number_trichotomy (v ref : Z) :
  ((v <? ref) = true /\ (v =? ref) = false /\ (v >? ref) = false) \/
  ((v <? ref) = false /\ (v =? ref) = true /\ (v >? ref) = false) \/
  ((v <? ref) = false /\ (v =? ref) = false /\ (v >? ref) = true).
Proof.
  rewrite Z.gtb_ltb.
  destruct (Z.ltb_spec v ref), (Z.eqb_spec v ref), (Z.ltb_spec ref v);
    try lia; tauto.
Qed.

(** X9 — the three comparisons of the infrared block exclude each other.
    In every reachable state, for every sensor id and reference, exactly one
    of [hatInfrared] with the operators "<", "=" and ">" returns true. *)
Theorem hatInfrared_exactly_one_operator_holds :
  (forall (st : ApitorQ.t) (id ref : Z),
      reachable_Q st ->
      let holds op :=
        fst (Scratch3ApitorQBlocks.hatInfrared
               (Scratch3ApitorQBlocks.mkInfraredArgs id op ref) st) in
      (holds "<" = true /\ holds "=" = false /\ holds ">" = false) \/
      (holds "<" = false /\ holds "=" = true /\ holds ">" = false) \/
      (holds "<" = false /\ holds "=" = false /\ holds ">" = true))%string /\
  (forall (st : ApitorX.t) (id ref : Z),
      reachable_X st ->
      let holds op :=
        fst (Scratch3ApitorXBlocks.hatInfrared
               (Scratch3ApitorXBlocks.mkInfraredArgs id op ref) st) in
      (holds "<" = true /\ holds "=" = false /\ holds ">" = false) \/
      (holds "<" = false /\ holds "=" = true /\ holds ">" = false) \/
      (holds "<" = false /\ holds "=" = false /\ holds ">" = true))%string.
Proof.
  split; intros st id ref Hst.
  - destruct (reachable_Q_infrared1 st Hst) as (v & Hv).
    unfold Scratch3ApitorQBlocks.hatInfrared. cbn. rewrite Hv. cbn.
    apply number_trichotomy.
  - destruct (reachable_X_infrared st Hst) as (v1 & v2 & Hv1 & Hv2).
    unfold Scratch3ApitorXBlocks.hatInfrared, Cast.toNumber. cbn.
    destruct (id =? ApitorX_InfraredID.R1); rewrite ?Hv1, ?Hv2; cbn;
      apply number_trichotomy.
Qed.

Lemma hatInfrared_exactly_one_operator_holds_witness :
  reachable_Q (ApitorQ.constructor 0) /\
  fst (Scratch3ApitorQBlocks.hatInfrared
         (Scratch3ApitorQBlocks.mkInfraredArgs ApitorQ_InfraredID.R1 "<" 7)
         (ApitorQ.constructor 0)) = true.
Proof.
  assert (H : reachable_Q (ApitorQ.constructor 0))
    by (exists 0, []; reflexivity).
  split; [exact H|].
  destruct (proj1 hatInfrared_exactly_one_operator_holds
              (ApitorQ.constructor 0) ApitorQ_InfraredID.R1 7 H)
    as [(Hlt & _) | [(_ & Heq & _) | (_ & _ & Hgt)]].
  - exact Hlt.
  - discriminate Heq.
  - discriminate Hgt.
Defined.

(** X10 — an operator outside the menu.  When OP is none of "<", "=", ">",
    [hatInfrared] (and [booleanInfrared]) returns false and hands one line,
    "Unknown comparison operator in hatInfrared: " followed by the operator,
    to [log.warn]; with a menu operator it warns of nothing. *)
Theorem hatInfrared_unknown_operator_is_false_with_warning :
  (forall (args : Scratch3ApitorQBlocks.InfraredArgs) (st : ApitorQ.t),
      (~ In (Scratch3ApitorQBlocks.OP args) Scratch3ApitorQBlocks.menu_OP ->
       Scratch3ApitorQBlocks.hatInfrared args st =
         (false,
          [("Unknown comparison operator in hatInfrared: "
              ++ Scratch3ApitorQBlocks.OP args)%string]) /\
       Scratch3ApitorQBlocks.booleanInfrared args st =
         (false,
          [("Unknown comparison operator in hatInfrared: "
              ++ Scratch3ApitorQBlocks.OP args)%string])) /\
      (In (Scratch3ApitorQBlocks.OP args) Scratch3ApitorQBlocks.menu_OP ->
       snd (Scratch3ApitorQBlocks.hatInfrared args st) = [])) /\
  (forall (args : Scratch3ApitorXBlocks.InfraredArgs) (st : ApitorX.t),
      (~ In (Scratch3ApitorXBlocks.OP args) Scratch3ApitorXBlocks.menu_OP ->
       Scratch3ApitorXBlocks.hatInfrared args st =
         (false,
          [("Unknown comparison operator in hatInfrared: "
              ++ Scratch3ApitorXBlocks.OP args)%string]) /\
       Scratch3ApitorXBlocks.booleanInfrared args st =
         (false,
          [("Unknown comparison operator in hatInfrared: "
              ++ Scratch3ApitorXBlocks.OP args)%string])) /\
      (In (Scratch3ApitorXBlocks.OP args) Scratch3ApitorXBlocks.menu_OP ->
       snd (Scratch3ApitorXBlocks.hatInfrared args st) = [])).
Proof.
  split; intros [id op ref] st; cbn [Scratch3ApitorQBlocks.OP
                                      Scratch3ApitorXBlocks.OP].
  - split.
    + intros Hout.
      assert (H1 : String.eqb op "<" = false)
        by (apply String.eqb_neq; intros ->; apply Hout; cbn; tauto).
      assert (H2 : String.eqb op "=" = false)
        by (apply String.eqb_neq; intros ->; apply Hout; cbn; tauto).
      assert (H3 : String.eqb op ">" = false)
        by (apply String.eqb_neq; intros ->; apply Hout; cbn; tauto).
      unfold Scratch3ApitorQBlocks.booleanInfrared,
        Scratch3ApitorQBlocks.hatInfrared.
      cbn [Scratch3ApitorQBlocks.OP]. now rewrite H1, H2, H3.
    + intros [<- | [<- | [<- | []]]]; reflexivity.
  - split.
    + intros Hout.
      assert (H1 : String.eqb op "<" = false)
        by (apply String.eqb_neq; intros ->; apply Hout; cbn; tauto).
      assert (H2 : String.eqb op "=" = false)
        by (apply String.eqb_neq; intros ->; apply Hout; cbn; tauto).
      assert (H3 : String.eqb op ">" = false)
        by (apply String.eqb_neq; intros ->; apply Hout; cbn; tauto).
      unfold Scratch3ApitorXBlocks.booleanInfrared,
        Scratch3ApitorXBlocks.hatInfrared.
      cbn [Scratch3ApitorXBlocks.OP]. now rewrite H1, H2, H3.
    + intros [<- | [<- | [<- | []]]]; reflexivity.
Qed.

Lemma hatInfrared_unknown_operator_is_false_with_warning_witness :
  ~ In "<="%string Scratch3ApitorXBlocks.menu_OP /\
  Scratch3ApitorXBlocks.hatInfrared
    (Scratch3ApitorXBlocks.mkInfraredArgs ApitorX_InfraredID.R2 "<=" 7)
    (ApitorX.constructor 0) =
  (false, ["Unknown comparison operator in hatInfrared: <="%string]).
Proof.
  assert (H : ~ In "<="%string Scratch3ApitorXBlocks.menu_OP).
  { cbn. intros [E | [E | [E | []]]]; discriminate E. }
  split; [exact H|].
  exact (proj1 (proj1 (proj2 hatInfrared_unknown_operator_is_false_with_warning
           (Scratch3ApitorXBlocks.mkInfraredArgs ApitorX_InfraredID.R2 "<=" 7)
           (ApitorX.constructor 0)) H)).
Defined.

(** X11 — which sensor the infrared block reads.  On an ApitorQ the
    INFRARED_ID argument is ignored: the block always compares the one
    infrared reading.  On an ApitorX the id R1 selects the first reading and
    every other id, R2 or not, selects the second. *)
Theorem hatInfrared_sensor_selection :
  (forall (id1 id2 : Z) (op : string) (ref : Z) (st : ApitorQ.t),
      Scratch3ApitorQBlocks.hatInfrared
        (Scratch3ApitorQBlocks.mkInfraredArgs id1 op ref) st =
      Scratch3ApitorQBlocks.hatInfrared
        (Scratch3ApitorQBlocks.mkInfraredArgs id2 op ref) st) /\
  (forall (ref : Z) (st : ApitorX.t),
      Scratch3ApitorXBlocks.hatInfrared
        (Scratch3ApitorXBlocks.mkInfraredArgs ApitorX_InfraredID.R1 "=" ref) st
      = (loose_eq (ApitorX.sensorInfrared1 st) ref, []) /\
      Scratch3ApitorXBlocks.hatInfrared
        (Scratch3ApitorXBlocks.mkInfraredArgs ApitorX_InfraredID.R2 "=" ref) st
      = (loose_eq (ApitorX.sensorInfrared2 st) ref, [])) /\
  (forall (id : Z) (op : string) (ref : Z) (st : ApitorX.t),
      id <> ApitorX_InfraredID.R1 ->
      Scratch3ApitorXBlocks.hatInfrared
        (Scratch3ApitorXBlocks.mkInfraredArgs id op ref) st =
      Scratch3ApitorXBlocks.hatInfrared
        (Scratch3ApitorXBlocks.mkInfraredArgs ApitorX_InfraredID.R2 op ref) st).
Proof.
  split; [reflexivity|]. split; [intros; split; reflexivity|].
  intros id op ref st Hid.
  unfold Scratch3ApitorXBlocks.hatInfrared, Cast.toNumber. cbn.
  destruct (Z.eqb_spec id ApitorX_InfraredID.R1) as [E | _];
    [contradiction | reflexivity].
Qed.

Lemma hatInfrared_sensor_selection_witness :
  5 <> ApitorX_InfraredID.R1 /\
  Scratch3ApitorXBlocks.hatInfrared
    (Scratch3ApitorXBlocks.mkInfraredArgs 5 "<" 7) (ApitorX.constructor 0) =
  Scratch3ApitorXBlocks.hatInfrared
    (Scratch3ApitorXBlocks.mkInfraredArgs ApitorX_InfraredID.R2 "<" 7)
    (ApitorX.constructor 0).
Proof.
  assert (H : 5 <> ApitorX_InfraredID.R1) by discriminate.
  split; [exact H|].
  exact (proj2 (proj2 hatInfrared_sensor_selection) 5 "<"%string 7
           (ApitorX.constructor 0) H).
Defined.

(** X12 — the blocks report the frame last accepted.  After [_onMessage]
    has accepted a frame, the reporters return its bytes 4, 5 (and 6 on an
    ApitorX), [hatColor] is true exactly for the color in byte 4, and
    [hatInfrared] compares byte 5 (byte 6 for R2 on an ApitorX) with the
    reference. *)
Theorem blocks_report_the_accepted_frame :
  (forall (base64 : string) (b3 b4 b5 b6 b7 : Z) (st : ApitorQ.t),
      Base64Util.base64ToUint8Array base64 =
        [0x55; 0xaa; 0x05; b3; b4; b5; b6; b7] ->
      exists st',
        ApitorQ._onMessage base64 st = Normal tt st' /\
        Scratch3ApitorQBlocks.reporterColor st' = JNum b4 /\
        Scratch3ApitorQBlocks.reporterInfrared1 st' = JNum b5 /\
        (forall c,
            Scratch3ApitorQBlocks.hatColor
              (Scratch3ApitorQBlocks.mkColorArgs c) st' = (b4 =? c)) /\
        (forall id ref,
            Scratch3ApitorQBlocks.hatInfrared
              (Scratch3ApitorQBlocks.mkInfraredArgs id "<" ref) st'
              = (b5 <? ref, []) /\
            Scratch3ApitorQBlocks.hatInfrared
              (Scratch3ApitorQBlocks.mkInfraredArgs id "=" ref) st'
              = (b5 =? ref, []) /\
            Scratch3ApitorQBlocks.hatInfrared
              (Scratch3ApitorQBlocks.mkInfraredArgs id ">" ref) st'
              = (b5 >? ref, []))) /\
  (forall (base64 : string) (b3 b4 b5 b6 b7 : Z) (st : ApitorX.t),
      Base64Util.base64ToUint8Array base64 =
        [0x55; 0xaa; 0x05; b3; b4; b5; b6; b7] ->
      exists st',
        ApitorX._onMessage base64 st = Normal tt st' /\
        Scratch3ApitorXBlocks.reporterColor st' = JNum b4 /\
        Scratch3ApitorXBlocks.reporterInfrared1 st' = JNum b5 /\
        Scratch3ApitorXBlocks.reporterInfrared2 st' = JNum b6 /\
        (forall c,
            Scratch3ApitorXBlocks.hatColor
              (Scratch3ApitorXBlocks.mkColorArgs c) st' = (b4 =? c)) /\
        (forall ref,
            Scratch3ApitorXBlocks.hatInfrared
              (Scratch3ApitorXBlocks.mkInfraredArgs
                 ApitorX_InfraredID.R1 "<" ref) st'
              = (b5 <? ref, []) /\
            Scratch3ApitorXBlocks.hatInfrared
              (Scratch3ApitorXBlocks.mkInfraredArgs
                 ApitorX_InfraredID.R2 "<" ref) st'
              = (b6 <? ref, []) /\
            Scratch3ApitorXBlocks.hatInfrared
              (Scratch3ApitorXBlocks.mkInfraredArgs
                 ApitorX_InfraredID.R1 ">" ref) st'
              = (b5 >? ref, []) /\
            Scratch3ApitorXBlocks.hatInfrared
              (Scratch3ApitorXBlocks.mkInfraredArgs
                 ApitorX_InfraredID.R2 ">" ref) st'
              = (b6 >? ref, []))).
Proof.
  split; intros base64 b3 b4 b5 b6 b7 st Hdata.
  - eexists. split.
    + unfold ApitorQ._onMessage. rewrite Hdata. reflexivity.
    + repeat split.
  - eexists. split.
    + unfold ApitorX._onMessage. rewrite Hdata. reflexivity.
    + repeat split.
Qed.

Lemma blocks_report_the_accepted_frame_witness :
  Base64Util.base64ToUint8Array "VaoFAAMHAAk=" =
    [0x55; 0xaa; 0x05; 0x00; 0x03; 0x07; 0x00; 0x09] /\
  exists st',
    ApitorQ._onMessage "VaoFAAMHAAk=" (ApitorQ.constructor 0) = Normal tt st' /\
    Scratch3ApitorQBlocks.reporterColor st' = JNum 3 /\
    Scratch3ApitorQBlocks.reporterInfrared1 st' = JNum 7.
Proof.
  split; [reflexivity|].
  destruct (proj1 blocks_report_the_accepted_frame "VaoFAAMHAAk="%string
              0 3 7 0 9 (ApitorQ.constructor 0) eq_refl)
    as (st' & Hrun & Hc & Hi & _).
  exists st'. split; [exact Hrun|]. split; [exact Hc | exact Hi].
Defined.

(** X13 — what the sensor blocks see without a robot.  On a fresh object
    and after every [disconnect()], the infrared block compares the reading
    0 with its reference, so "infrared < 7", the block's default, holds; and
    [hatColor] is false for every color of its menu. *)
Theorem sensor_blocks_see_zero_when_disconnected :
  (forall (st0 : ApitorQ.t) (now : Z),
      exists st',
        ApitorQ.disconnect st0 = Normal tt st' /\
        forall st,
          st = st' \/ st = ApitorQ.constructor now ->
          (forall id ref,
              Scratch3ApitorQBlocks.hatInfrared
                (Scratch3ApitorQBlocks.mkInfraredArgs id "<" ref) st
                = (0 <? ref, []) /\
              Scratch3ApitorQBlocks.hatInfrared
                (Scratch3ApitorQBlocks.mkInfraredArgs id "=" ref) st
                = (0 =? ref, []) /\
              Scratch3ApitorQBlocks.hatInfrared
                (Scratch3ApitorQBlocks.mkInfraredArgs id ">" ref) st
                = (0 >? ref, [])) /\
          (forall id,
              Scratch3ApitorQBlocks.hatInfrared
                (Scratch3ApitorQBlocks.mkInfraredArgs id "<" 7) st
                = (true, [])) /\
          (forall c,
              In c Scratch3ApitorQBlocks.menu_SENSOR_COLOR_ID ->
              Scratch3ApitorQBlocks.hatColor
                (Scratch3ApitorQBlocks.mkColorArgs c) st = false)) /\
  (forall (st0 : ApitorX.t) (now : Z),
      exists st',
        ApitorX.disconnect st0 = Normal tt st' /\
        forall st,
          st = st' \/ st = ApitorX.constructor now ->
          (forall id ref,
              Scratch3ApitorXBlocks.hatInfrared
                (Scratch3ApitorXBlocks.mkInfraredArgs id "<" ref) st
                = (0 <? ref, []) /\
              Scratch3ApitorXBlocks.hatInfrared
                (Scratch3ApitorXBlocks.mkInfraredArgs id "=" ref) st
                = (0 =? ref, []) /\
              Scratch3ApitorXBlocks.hatInfrared
                (Scratch3ApitorXBlocks.mkInfraredArgs id ">" ref) st
                = (0 >? ref, [])) /\
          (forall id,
              Scratch3ApitorXBlocks.hatInfrared
                (Scratch3ApitorXBlocks.mkInfraredArgs id "<" 7) st
                = (true, [])) /\
          (forall c,
              In c Scratch3ApitorXBlocks.menu_SENSOR_COLOR_ID ->
              Scratch3ApitorXBlocks.hatColor
                (Scratch3ApitorXBlocks.mkColorArgs c) st = false)).
Proof.
  split; intros st0 now; eexists;
    (split; [first [apply disconnect_Q_run | apply disconnect_X_run]|]);
    intros st [-> | ->].
  - split; [|split].
    + intros id ref. repeat split.
    + reflexivity.
    + intros c Hc. cbn in Hc.
      repeat (destruct Hc as [<- | Hc]; [reflexivity|]). destruct Hc.
  - split; [|split].
    + intros id ref. repeat split.
    + reflexivity.
    + intros c Hc. cbn in Hc.
      repeat (destruct Hc as [<- | Hc]; [reflexivity|]). destruct Hc.
  - split; [|split].
    + intros id ref.
      unfold Scratch3ApitorXBlocks.hatInfrared, Cast.toNumber. cbn.
      destruct (id =? ApitorX_InfraredID.R1); repeat split.
    + intros id.
      unfold Scratch3ApitorXBlocks.hatInfrared, Cast.toNumber. cbn.
      destruct (id =? ApitorX_InfraredID.R1); reflexivity.
    + intros c Hc. cbn in Hc.
      repeat (destruct Hc as [<- | Hc]; [reflexivity|]). destruct Hc.
  - split; [|split].
    + intros id ref.
      unfold Scratch3ApitorXBlocks.hatInfrared, Cast.toNumber. cbn.
      destruct (id =? ApitorX_InfraredID.R1); repeat split.
    + intros id.
      unfold Scratch3ApitorXBlocks.hatInfrared, Cast.toNumber. cbn.
      destruct (id =? ApitorX_InfraredID.R1); reflexivity.
    + intros c Hc. cbn in Hc.
      repeat (destruct Hc as [<- | Hc]; [reflexivity|]). destruct Hc.
Qed.

Lemma sensor_blocks_see_zero_when_disconnected_witness :
  In ApitorQ_SensorColorID.G Scratch3ApitorQBlocks.menu_SENSOR_COLOR_ID /\
  Scratch3ApitorQBlocks.hatColor
    (Scratch3ApitorQBlocks.mkColorArgs ApitorQ_SensorColorID.G)
    (ApitorQ.constructor 0) = false.
Proof.
  assert (H : In ApitorQ_SensorColorID.G
                 Scratch3ApitorQBlocks.menu_SENSOR_COLOR_ID)
    by (cbn; tauto).
  split; [exact H|].
  destruct (proj1 sensor_blocks_see_zero_when_disconnected
              (ApitorQ.constructor 0) 0) as (st' & _ & Hsee).
  destruct (Hsee (ApitorQ.constructor 0) (or_intror eq_refl))
    as (_ & _ & Hcolor).
  exact (Hcolor _ H).
Defined.

(** ** Discovery and connection *)

(** X14 — [scan()] drops the link but keeps the readings.  From every state
    [scan()] returns normally and leaves a fresh socket filtered on the
    Apitor service and the variant's name prefix: [isConnected()] is false,
    nothing is written or subscribed on it; the sensor fields, the limiter
    and the console are as before ([scan] does not call [reset]); and a
    second [scan()] changes nothing more. *)
Theorem scan_replaces_socket_and_keeps_snapshot :
  (forall st : ApitorQ.t,
      exists st',
        ApitorQ.scan st = Normal tt st' /\
        ApitorQ._ble st' =
          Some (BLE.new [ApitorQ_BleUuids.UUID_SERVICE] "ApitorTQ") /\
        ApitorQ.isConnected st' = Normal false st' /\
        ApitorQ.transmitted st' = [] /\
        subscriptions_Q st' = [] /\
        ApitorQ.snapshot st' = ApitorQ.snapshot st /\
        ApitorQ._rateLimiter st' = ApitorQ._rateLimiter st /\
        ApitorQ.console st' = ApitorQ.console st /\
        (ApitorQ.scan ;; ApitorQ.scan)%js st = Normal tt st') /\
  (forall st : ApitorX.t,
      exists st',
        ApitorX.scan st = Normal tt st' /\
        ApitorX._ble st' =
          Some (BLE.new [ApitorX_BleUuids.UUID_SERVICE] "ApitorTX") /\
        ApitorX.isConnected st' = Normal false st' /\
        ApitorX.transmitted st' = [] /\
        subscriptions_X st' = [] /\
        ApitorX.snapshot st' = ApitorX.snapshot st /\
        ApitorX._rateLimiter st' = ApitorX._rateLimiter st /\
        ApitorX.console st' = ApitorX.console st /\
        (ApitorX.scan ;; ApitorX.scan)%js st = Normal tt st').
Proof.
  split; intros st.
  - exists (ApitorQ.set_ble
              (Some (BLE.new [ApitorQ_BleUuids.UUID_SERVICE] "ApitorTQ")) st).
    unfold ApitorQ.scan, bind, get, put, modify, ret.
    destruct (ApitorQ._ble st); repeat split.
  - exists (ApitorX.set_ble
              (Some (BLE.new [ApitorX_BleUuids.UUID_SERVICE] "ApitorTX")) st).
    unfold ApitorX.scan, bind, get, put, modify, ret.
    destruct (ApitorX._ble st); repeat split.
Qed.

(** X15 — [connect(id)] only asks.  Without a socket ([_ble] is [null],
    no [scan()] yet) it does nothing at all; with one it records the device
    asked for and changes neither [isConnected()], nor what was written or
    subscribed, nor the sensor fields, nor the limiter. *)
Theorem connect_only_records_the_request :
  (forall (id : Z) (st : ApitorQ.t),
      ApitorQ.connect id (ApitorQ.set_ble None st) =
        Normal tt (ApitorQ.set_ble None st) /\
      exists st',
        ApitorQ.connect id st = Normal tt st' /\
        (ApitorQ.isConnected st' = Normal true st' <->
         ApitorQ.isConnected st = Normal true st) /\
        ApitorQ.transmitted st' = ApitorQ.transmitted st /\
        subscriptions_Q st' = subscriptions_Q st /\
        ApitorQ.snapshot st' = ApitorQ.snapshot st /\
        ApitorQ._rateLimiter st' = ApitorQ._rateLimiter st /\
        option_map BLE.requested (ApitorQ._ble st') =
          option_map (fun _ => Some id) (ApitorQ._ble st)) /\
  (forall (id : Z) (st : ApitorX.t),
      ApitorX.connect id (ApitorX.set_ble None st) =
        Normal tt (ApitorX.set_ble None st) /\
      exists st',
        ApitorX.connect id st = Normal tt st' /\
        (ApitorX.isConnected st' = Normal true st' <->
         ApitorX.isConnected st = Normal true st) /\
        ApitorX.transmitted st' = ApitorX.transmitted st /\
        subscriptions_X st' = subscriptions_X st /\
        ApitorX.snapshot st' = ApitorX.snapshot st /\
        ApitorX._rateLimiter st' = ApitorX._rateLimiter st /\
        option_map BLE.requested (ApitorX._ble st') =
          option_map (fun _ => Some id) (ApitorX._ble st)).
Proof.
  split; intros id st; (split; [reflexivity|]).
  - unfold ApitorQ.connect, bind, get, put, ret.
    unfold ApitorQ.transmitted, subscriptions_Q.
    destruct (ApitorQ._ble st) as [b|] eqn:Hb; eexists;
      (split; [reflexivity|]); rewrite !isConnected_Q_run; cbn;
      rewrite ?Hb; (split; [|repeat split]);
      split; intros [= H]; now rewrite H.
  - unfold ApitorX.connect, bind, get, put, ret.
    unfold ApitorX.transmitted, subscriptions_X.
    destruct (ApitorX._ble st) as [b|] eqn:Hb; eexists;
      (split; [reflexivity|]); rewrite !isConnected_X_run; cbn;
      rewrite ?Hb; (split; [|repeat split]);
      split; intros [= H]; now rewrite H.
Qed.

(** ** Which calls can throw *)

Lemma onMessage_Q_returns base64 (st : ApitorQ.t) :
  exists st', ApitorQ._onMessage base64 st = Normal tt st'.
Proof.
  unfold ApitorQ._onMessage.
  match goal with |- context [if ?c then _ else _] => destruct c end;
    eexists; reflexivity.
Qed.

Lemma commands_Q_return (st : ApitorQ.t) :
  (forall id speed now,
      exists p st', ApitorQ.setMotor id speed now st = Normal p st') /\
  (forall id color offTime onTime now,
      exists p st',
        ApitorQ.setLED id color offTime onTime now st = Normal p st').
Proof. split; intros; apply send_Q_total. Qed.

Lemma stopAll_Q_returns now1 now2 (st : ApitorQ.t) :
  exists st', ApitorQ.stopAll now1 now2 st = Normal tt st'.
Proof.
  destruct (ApitorQ.isConnected st) as [c st0|] eqn:Hc;
    rewrite isConnected_Q_run in Hc; [|discriminate].
  injection Hc as Hc <-. destruct c.
  - destruct (stopAll_Q_connected now1 now2 st) as (st' & Hrun & _).
    + now rewrite isConnected_Q_run, Hc.
    + now exists st'.
  - exists st. unfold ApitorQ.stopAll, bind.
    now rewrite isConnected_Q_run, Hc.
Qed.

Lemma onConnect_Q_with_socket now (st : ApitorQ.t) b :
  ApitorQ._ble st = Some b ->
  exists st', ApitorQ._onConnect now st = Normal tt st'.
Proof.
  intros Hb. unfold ApitorQ._onConnect, bind.
  destruct (BLE.connected b) eqn:Hc.
  - destruct (sendPassword_Q_run now st) as (st1 & -> & _ & Hc1).
    + now rewrite isConnected_Q_run, Hb, Hc.
    + destruct (isConnected_Q_true st1 Hc1) as (b1 & Hb1 & _).
      unfold ApitorQ.on_ble. rewrite Hb1. eexists. reflexivity.
  - unfold ApitorQ._sendPassword, bind.
    rewrite send_Q_disconnected
      by (now rewrite isConnected_Q_run, Hb, Hc).
    unfold ApitorQ.on_ble. cbn. rewrite Hb. eexists. reflexivity.
Qed.

Lemma happen_Q_returns (e : event_Q) (st : ApitorQ.t) :
  (ApitorQ._ble st <> None \/
   (forall now, e <> Q_link_established now) /\ e <> Q_link_lost) ->
  exists st', happen_Q e st = Normal tt st'.
Proof.
  intros Hok. destruct e; cbn [happen_Q].
  - unfold ApitorQ.scan, bind, get, put, modify, ret.
    destruct (ApitorQ._ble st); eexists; reflexivity.
  - unfold ApitorQ.connect, bind, get, put, ret.
    destruct (ApitorQ._ble st); eexists; reflexivity.
  - eexists. apply disconnect_Q_run.
  - eexists. reflexivity.
  - destruct (proj2 (commands_Q_return st) id color offTime onTime now)
      as (p & st' & Hrun).
    exists st'. unfold bind. now rewrite Hrun.
  - destruct (proj1 (commands_Q_return st) id speed now)
      as (p & st' & Hrun).
    exists st'. unfold bind. now rewrite Hrun.
  - apply stopAll_Q_returns.
  - destruct (ApitorQ._ble st) as [b|] eqn:Hb.
    + unfold ApitorQ.link_established, bind, ApitorQ.on_ble.
      rewrite Hb. cbn.
      now apply onConnect_Q_with_socket
        with (b := BLE.set_connected true b).
    + destruct Hok as [Hsock | [Hne _]]; [now destruct Hsock|].
      now destruct (Hne now).
  - destruct (ApitorQ._ble st) as [b|] eqn:Hb.
    + unfold ApitorQ.link_lost, bind, ApitorQ.on_ble.
      rewrite Hb. eexists. reflexivity.
    + destruct Hok as [Hsock | [_ Hne]]; [now destruct Hsock|].
      now destruct Hne.
  - apply onMessage_Q_returns.
  - unfold Scratch3ApitorQBlocks.commandMotorOn, bind.
    match goal with |- context [ApitorQ.setMotor ?i ?s ?n st] =>
      destruct (proj1 (commands_Q_return st) i s n) as (p & st' & ->)
    end. eexists. reflexivity.
  - unfold Scratch3ApitorQBlocks.commandMotorOff, bind.
    match goal with |- context [ApitorQ.setMotor ?i ?s ?n st] =>
      destruct (proj1 (commands_Q_return st) i s n) as (p & st' & ->)
    end. eexists. reflexivity.
  - unfold Scratch3ApitorQBlocks.commandSetLedOn, bind.
    match goal with |- context [ApitorQ.setLED ?i ?c ?a ?b ?n st] =>
      destruct (proj2 (commands_Q_return st) i c a b n) as (p & st' & ->)
    end. eexists. reflexivity.
  - unfold Scratch3ApitorQBlocks.commandSetLedBlink, bind.
    match goal with |- context [ApitorQ.setLED ?i ?c ?a ?b ?n st] =>
      destruct (proj2 (commands_Q_return st) i c a b n) as (p & st' & ->)
    end. eexists. reflexivity.
Qed.

Lemma onMessage_X_returns base64 (st : ApitorX.t) :
  exists st', ApitorX._onMessage base64 st = Normal tt st'.
Proof.
  unfold ApitorX._onMessage.
  match goal with |- context [if ?c then _ else _] => destruct c end;
    eexists; reflexivity.
Qed.

Lemma commands_X_return (st : ApitorX.t) :
  (forall id speed now,
      exists p st', ApitorX.setMotor id speed now st = Normal p st') /\
  (forall id color offTime onTime now,
      exists p st',
        ApitorX.setLED id color offTime onTime now st = Normal p st').
Proof. split; intros; apply send_X_total. Qed.

Lemma stopAll_X_returns now1 now2 (st : ApitorX.t) :
  exists st', ApitorX.stopAll now1 now2 st = Normal tt st'.
Proof.
  destruct (ApitorX.isConnected st) as [c st0|] eqn:Hc;
    rewrite isConnected_X_run in Hc; [|discriminate].
  injection Hc as Hc <-. destruct c.
  - destruct (stopAll_X_connected now1 now2 st) as (st' & Hrun & _).
    + now rewrite isConnected_X_run, Hc.
    + now exists st'.
  - exists st. unfold ApitorX.stopAll, bind.
    now rewrite isConnected_X_run, Hc.
Qed.

Lemma onConnect_X_with_socket now (st : ApitorX.t) b :
  ApitorX._ble st = Some b ->
  exists st', ApitorX._onConnect now st = Normal tt st'.
Proof.
  intros Hb. unfold ApitorX._onConnect, bind.
  destruct (BLE.connected b) eqn:Hc.
  - destruct (sendPassword_X_run now st) as (st1 & -> & _ & Hc1).
    + now rewrite isConnected_X_run, Hb, Hc.
    + destruct (isConnected_X_true st1 Hc1) as (b1 & Hb1 & _).
      unfold ApitorX.on_ble. rewrite Hb1. eexists. reflexivity.
  - unfold ApitorX._sendPassword, bind.
    rewrite send_X_disconnected
      by (now rewrite isConnected_X_run, Hb, Hc).
    unfold ApitorX.on_ble. cbn. rewrite Hb. eexists. reflexivity.
Qed.

Lemma happen_X_returns (e : event_X) (st : ApitorX.t) :
  (ApitorX._ble st <> None \/
   (forall now, e <> X_link_established now) /\ e <> X_link_lost) ->
  exists st', happen_X e st = Normal tt st'.
Proof.
  intros Hok. destruct e; cbn [happen_X].
  - unfold ApitorX.scan, bind, get, put, modify, ret.
    destruct (ApitorX._ble st); eexists; reflexivity.
  - unfold ApitorX.connect, bind, get, put, ret.
    destruct (ApitorX._ble st); eexists; reflexivity.
  - eexists. apply disconnect_X_run.
  - eexists. reflexivity.
  - destruct (proj2 (commands_X_return st) id color offTime onTime now)
      as (p & st' & Hrun).
    exists st'. unfold bind. now rewrite Hrun.
  - destruct (proj1 (commands_X_return st) id speed now)
      as (p & st' & Hrun).
    exists st'. unfold bind. now rewrite Hrun.
  - apply stopAll_X_returns.
  - destruct (ApitorX._ble st) as [b|] eqn:Hb.
    + unfold ApitorX.link_established, bind, ApitorX.on_ble.
      rewrite Hb. cbn.
      now apply onConnect_X_with_socket
        with (b := BLE.set_connected true b).
    + destruct Hok as [Hsock | [Hne _]]; [now destruct Hsock|].
      now destruct (Hne now).
  - destruct (ApitorX._ble st) as [b|] eqn:Hb.
    + unfold ApitorX.link_lost, bind, ApitorX.on_ble.
      rewrite Hb. eexists. reflexivity.
    + destruct Hok as [Hsock | [_ Hne]]; [now destruct Hsock|].
      now destruct Hne.
  - apply onMessage_X_returns.
  - unfold Scratch3ApitorXBlocks.commandMotorOn, bind.
    match goal with |- context [ApitorX.setMotor ?i ?s ?n st] =>
      destruct (proj1 (commands_X_return st) i s n) as (p & st' & ->)
    end. eexists. reflexivity.
  - unfold Scratch3ApitorXBlocks.commandMotorOff, bind.
    match goal with |- context [ApitorX.setMotor ?i ?s ?n st] =>
      destruct (proj1 (commands_X_return st) i s n) as (p & st' & ->)
    end. eexists. reflexivity.
  - unfold Scratch3ApitorXBlocks.commandSetLedOn, bind.
    match goal with |- context [ApitorX.setLED ?i ?c ?a ?b ?n st] =>
      destruct (proj2 (commands_X_return st) i c a b n) as (p & st' & ->)
    end. eexists. reflexivity.
  - unfold Scratch3ApitorXBlocks.commandSetLedBlink, bind.
    match goal with |- context [ApitorX.setLED ?i ?c ?a ?b ?n st] =>
      destruct (proj2 (commands_X_return st) i c a b n) as (p & st' & ->)
    end. eexists. reflexivity.
Qed.

(** X16 — only [_onConnect] without a socket throws.  In every state,
    each method of the peripheral and each command block returns normally;
    what the socket reports (link up, link lost) is handled normally
    whenever there is a socket.  [_onConnect] called while [_ble] is [null]
    throws a TypeError, after [_sendPassword] has silently sent nothing; on
    a socket that is not connected it subscribes to the notifications
    without writing the password. *)
Theorem only_onConnect_without_socket_throws :
  ((forall (e : event_Q) (st : ApitorQ.t),
       ApitorQ._ble st <> None \/
       (forall now, e <> Q_link_established now) /\ e <> Q_link_lost ->
       exists st', happen_Q e st = Normal tt st') /\
   (forall (now : Z) (st : ApitorQ.t),
       ApitorQ._onConnect now (ApitorQ.set_ble None st) =
       Throw (TypeError "this._ble is null")) /\
   (forall (now : Z) (st : ApitorQ.t) (b : BLE.t),
       ApitorQ._ble st = Some b ->
       BLE.connected b = false ->
       ApitorQ._onConnect now st =
       Normal tt
         (ApitorQ.set_ble
            (Some (BLE.startNotifications
                     ApitorQ_BleUuids.UUID_SERVICE
                     ApitorQ_BleUuids.UUID_CHARACTERISTIC_READ_NOTIFY b))
            st))) /\
  ((forall (e : event_X) (st : ApitorX.t),
       ApitorX._ble st <> None \/
       (forall now, e <> X_link_established now) /\ e <> X_link_lost ->
       exists st', happen_X e st = Normal tt st') /\
   (forall (now : Z) (st : ApitorX.t),
       ApitorX._onConnect now (ApitorX.set_ble None st) =
       Throw (TypeError "this._ble is null")) /\
   (forall (now : Z) (st : ApitorX.t) (b : BLE.t),
       ApitorX._ble st = Some b ->
       BLE.connected b = false ->
       ApitorX._onConnect now st =
       Normal tt
         (ApitorX.set_ble
            (Some (BLE.startNotifications
                     ApitorX_BleUuids.UUID_SERVICE
                     ApitorX_BleUuids.UUID_CHARACTERISTIC_READ_NOTIFY b))
            st))).
Proof.
  split; (split; [|split]).
  - apply happen_Q_returns.
  - reflexivity.
  - intros now st b Hb Hc. unfold ApitorQ._onConnect, ApitorQ._sendPassword, bind.
    rewrite send_Q_disconnected by (now rewrite isConnected_Q_run, Hb, Hc).
    unfold ApitorQ.on_ble. cbn. now rewrite Hb.
  - apply happen_X_returns.
  - reflexivity.
  - intros now st b Hb Hc. unfold ApitorX._onConnect, ApitorX._sendPassword, bind.
    rewrite send_X_disconnected by (now rewrite isConnected_X_run, Hb, Hc).
    unfold ApitorX.on_ble. cbn. now rewrite Hb.
Qed.

Lemma only_onConnect_without_socket_throws_witness :
  (forall now, Q_stopAll 1 2 <> Q_link_established now) /\
  Q_stopAll 1 2 <> Q_link_lost /\
  (exists st', happen_Q (Q_stopAll 1 2) (ApitorQ.constructor 0) = Normal tt st') /\
  ApitorQ._ble (after ApitorQ.scan (ApitorQ.constructor 0)) =
    Some (BLE.new [ApitorQ_BleUuids.UUID_SERVICE] "ApitorTQ") /\
  BLE.connected (BLE.new [ApitorQ_BleUuids.UUID_SERVICE] "ApitorTQ") = false /\
  subscriptions_Q
    (after (ApitorQ._onConnect 0) (after ApitorQ.scan (ApitorQ.constructor 0)))
  = [(ApitorQ_BleUuids.UUID_SERVICE,
      ApitorQ_BleUuids.UUID_CHARACTERISTIC_READ_NOTIFY)].
Proof.
  assert (H1 : forall now, Q_stopAll 1 2 <> Q_link_established now)
    by (intros now; discriminate).
  assert (H2 : Q_stopAll 1 2 <> Q_link_lost) by discriminate.
  destruct (proj1 only_onConnect_without_socket_throws) as (Hret & _ & Hsub).
  split; [exact H1|]. split; [exact H2|]. split.
  - exact (Hret (Q_stopAll 1 2) (ApitorQ.constructor 0)
             (or_intror (conj H1 H2))).
  - split; [reflexivity|]. split; [reflexivity|].
    unfold after at 1.
    rewrite (Hsub 0 (after ApitorQ.scan (ApitorQ.constructor 0))
               (BLE.new [ApitorQ_BleUuids.UUID_SERVICE] "ApitorTQ")
               eq_refl eq_refl).
    reflexivity.
Defined.

(** ** Sequences of notifications *)

Lemma find_in_app {A} (f : A -> bool) (l1 l2 : list A) :
  find f (l1 ++ l2) =
  match find f l1 with
  | Some x => Some x
  | None => find f l2
  end.
Proof.
  induction l1 as [|x l1 IH]; [reflexivity|]. cbn. now destruct (f x).
Qed.

Lemma last_accepted_cons (data : list Z) (frames : list (list Z)) :
  last_accepted (data :: frames) =
  match last_accepted frames with
  | Some d => Some d
  | None => if discards data then None else Some data
  end.
Proof.
  unfold last_accepted. cbn [rev]. rewrite find_in_app. cbn.
  now destruct (discards data).
Qed.

Lemma onMessage_Q_step base64 (st : ApitorQ.t) :
  exists st1,
    ApitorQ._onMessage base64 st = Normal tt st1 /\
    ApitorQ.snapshot st1 =
      (if discards (Base64Util.base64ToUint8Array base64)
       then ApitorQ.snapshot st
       else fields_Q (Base64Util.base64ToUint8Array base64)) /\
    ApitorQ.console st1 =
      ApitorQ.console st
        ++ diagnostics [Base64Util.base64ToUint8Array base64] /\
    ApitorQ._ble st1 = ApitorQ._ble st /\
    ApitorQ._rateLimiter st1 = ApitorQ._rateLimiter st.
Proof.
  unfold ApitorQ._onMessage, diagnostics. cbn [filter map].
  fold (discards (Base64Util.base64ToUint8Array base64)).
  destruct (discards (Base64Util.base64ToUint8Array base64));
    eexists; (split; [reflexivity|]); cbn; rewrite ?app_nil_r; repeat split.
Qed.

Lemma notifications_Q_run (msgs : list string) :
  forall st : ApitorQ.t,
    exists st',
      notifications_Q msgs st = Normal tt st' /\
      ApitorQ.snapshot st' =
        match last_accepted (map Base64Util.base64ToUint8Array msgs) with
        | Some data => fields_Q data
        | None => ApitorQ.snapshot st
        end /\
      ApitorQ.console st' =
        ApitorQ.console st
          ++ diagnostics (map Base64Util.base64ToUint8Array msgs) /\
      ApitorQ._ble st' = ApitorQ._ble st /\
      ApitorQ._rateLimiter st' = ApitorQ._rateLimiter st.
Proof.
  induction msgs as [|m msgs IH]; intros st.
  - exists st. cbn. rewrite app_nil_r. repeat split.
  - destruct (onMessage_Q_step m st) as (st1 & Hrun1 & Hs1 & Hc1 & Hb1 & Hr1).
    destruct (IH st1) as (st' & Hrun & Hs & Hc & Hb & Hr).
    exists st'. split; [|split; [|split; [|split]]].
    + cbn [notifications_Q]. unfold bind. now rewrite Hrun1.
    + cbn [map]. rewrite last_accepted_cons, Hs, Hs1.
      destruct (last_accepted (map Base64Util.base64ToUint8Array msgs));
        [reflexivity|].
      now destruct (discards (Base64Util.base64ToUint8Array m)).
    + rewrite Hc, Hc1, <- app_assoc. f_equal.
      unfold diagnostics. cbn [map filter].
      now destruct (discards (Base64Util.base64ToUint8Array m)).
    + now rewrite Hb.
    + now rewrite Hr.
Qed.

Lemma onMessage_X_step base64 (st : ApitorX.t) :
  exists st1,
    ApitorX._onMessage base64 st = Normal tt st1 /\
    ApitorX.snapshot st1 =
      (if discards (Base64Util.base64ToUint8Array base64)
       then ApitorX.snapshot st
       else fields_X (Base64Util.base64ToUint8Array base64)) /\
    ApitorX.console st1 =
      ApitorX.console st
        ++ diagnostics [Base64Util.base64ToUint8Array base64] /\
    ApitorX._ble st1 = ApitorX._ble st /\
    ApitorX._rateLimiter st1 = ApitorX._rateLimiter st.
Proof.
  unfold ApitorX._onMessage, diagnostics. cbn [filter map].
  fold (discards (Base64Util.base64ToUint8Array base64)).
  destruct (discards (Base64Util.base64ToUint8Array base64));
    eexists; (split; [reflexivity|]); cbn; rewrite ?app_nil_r; repeat split.
Qed.

Lemma notifications_X_run (msgs : list string) :
  forall st : ApitorX.t,
    exists st',
      notifications_X msgs st = Normal tt st' /\
      ApitorX.snapshot st' =
        match last_accepted (map Base64Util.base64ToUint8Array msgs) with
        | Some data => fields_X data
        | None => ApitorX.snapshot st
        end /\
      ApitorX.console st' =
        ApitorX.console st
          ++ diagnostics (map Base64Util.base64ToUint8Array msgs) /\
      ApitorX._ble st' = ApitorX._ble st /\
      ApitorX._rateLimiter st' = ApitorX._rateLimiter st.
Proof.
  induction msgs as [|m msgs IH]; intros st.
  - exists st. cbn. rewrite app_nil_r. repeat split.
  - destruct (onMessage_X_step m st) as (st1 & Hrun1 & Hs1 & Hc1 & Hb1 & Hr1).
    destruct (IH st1) as (st' & Hrun & Hs & Hc & Hb & Hr).
    exists st'. split; [|split; [|split; [|split]]].
    + cbn [notifications_X]. unfold bind. now rewrite Hrun1.
    + cbn [map]. rewrite last_accepted_cons, Hs, Hs1.
      destruct (last_accepted (map Base64Util.base64ToUint8Array msgs));
        [reflexivity|].
      now destruct (discards (Base64Util.base64ToUint8Array m)).
    + rewrite Hc, Hc1, <- app_assoc. f_equal.
      unfold diagnostics. cbn [map filter].
      now destruct (discards (Base64Util.base64ToUint8Array m)).
    + now rewrite Hb.
    + now rewrite Hr.
Qed.

(** X17 — the snapshot is the last accepted frame.  After any sequence of
    notifications the sensor fields are those of the last frame that was
    accepted, or what they were before if none was; every discarded frame
    has added its diagnostic line, in order; the socket and the limiter are
    untouched. *)
Theorem snapshot_is_the_last_accepted_frame :
  (forall (msgs : list string) (st : ApitorQ.t),
      exists st',
        notifications_Q msgs st = Normal tt st' /\
        ApitorQ.snapshot st' =
          match last_accepted (map Base64Util.base64ToUint8Array msgs) with
          | Some data => fields_Q data
          | None => ApitorQ.snapshot st
          end /\
        ApitorQ.console st' =
          ApitorQ.console st
            ++ diagnostics (map Base64Util.base64ToUint8Array msgs) /\
        ApitorQ._ble st' = ApitorQ._ble st /\
        ApitorQ._rateLimiter st' = ApitorQ._rateLimiter st) /\
  (forall (msgs : list string) (st : ApitorX.t),
      exists st',
        notifications_X msgs st = Normal tt st' /\
        ApitorX.snapshot st' =
          match last_accepted (map Base64Util.base64ToUint8Array msgs) with
          | Some data => fields_X data
          | None => ApitorX.snapshot st
          end /\
        ApitorX.console st' =
          ApitorX.console st
            ++ diagnostics (map Base64Util.base64ToUint8Array msgs) /\
        ApitorX._ble st' = ApitorX._ble st /\
        ApitorX._rateLimiter st' = ApitorX._rateLimiter st).
Proof.
  split; intros msgs st.
  - apply notifications_Q_run.
  - apply notifications_X_run.
Qed.

(** Three notifications, the second too short: the fields are those of
    the third. *)
Example snapshot_after_three_notifications :
  option_map ApitorQ.snapshot
    (state_of (notifications_Q ["VaoFAAMHAAk="; "VaoFAA=="; "VaoFAAECAwQ="]%string
                 (ApitorQ.constructor 0))) =
  Some (JNum 1, JNum 2, JNum 4).
Proof. reflexivity. Qed.

(** ** Throughput *)

Lemma sends_Q_run (ms : list (string * list jsval * Z)) :
  forall st : ApitorQ.t,
    ApitorQ.isConnected st = Normal true st ->
    0 <= RateLimiter.count (ApitorQ._rateLimiter st)
      <= RateLimiter.maxRate (ApitorQ._rateLimiter st) ->
    Forall (fun m => RateLimiter.in_window (ApitorQ._rateLimiter st) (snd m))
           ms ->
    exists st',
      sends_Q ms st = Normal tt st' /\
      ApitorQ.transmitted st' =
        ApitorQ.transmitted st
          ++ map (fun m => request_Q (fst (fst m)) (snd (fst m)))
                 (firstn (Z.to_nat
                            (RateLimiter.maxRate (ApitorQ._rateLimiter st)
                             - RateLimiter.count (ApitorQ._rateLimiter st)))
                         ms).
Proof.
  induction ms as [|[[uuid message] now] ms IH]; intros st Hc Hcount Hall.
  - exists st. split; [reflexivity|]. rewrite firstn_nil. cbn.
    now rewrite app_nil_r.
  - inversion Hall as [|? ? Hnow Hrest]; subst. cbn [snd] in Hnow.
    destruct (send_Q_limited_run uuid message now st Hc)
      as (st1 & Hrun1 & Htx1 & Hrl1 & _ & _ & Hc1).
    destruct (Z.ltb_spec (RateLimiter.count (ApitorQ._rateLimiter st))
                (RateLimiter.maxRate (ApitorQ._rateLimiter st)))
      as [Hroom | Hfull].
    + rewrite (okayToSend_below now _ Hnow Hroom) in Htx1, Hrl1, Hrun1.
      cbn [fst snd] in Htx1, Hrl1, Hrun1.
      destruct (IH st1 Hc1) as (st' & Hrun & Htx).
      * rewrite Hrl1. cbn. lia.
      * rewrite Hrl1. exact Hrest.
      * exists st'. split.
        -- cbn [sends_Q]. unfold bind. now rewrite Hrun1.
        -- rewrite Htx, Htx1, Hrl1, <- app_assoc. cbn [RateLimiter.maxRate
             RateLimiter.count]. f_equal.
           replace (Z.to_nat
                      (RateLimiter.maxRate (ApitorQ._rateLimiter st)
                       - RateLimiter.count (ApitorQ._rateLimiter st)))
             with (S (Z.to_nat
                        (RateLimiter.maxRate (ApitorQ._rateLimiter st)
                         - (RateLimiter.count (ApitorQ._rateLimiter st) + 1))))
             by lia.
           reflexivity.
    + rewrite (okayToSend_full now _ Hnow Hfull) in Htx1, Hrl1, Hrun1.
      cbn [fst snd] in Htx1, Hrl1, Hrun1.
      destruct (IH st1 Hc1) as (st' & Hrun & Htx).
      * now rewrite Hrl1.
      * now rewrite Hrl1.
      * exists st'. split.
        -- cbn [sends_Q]. unfold bind. now rewrite Hrun1.
        -- rewrite Htx, Htx1, Hrl1, app_nil_r.
           replace (Z.to_nat
                      (RateLimiter.maxRate (ApitorQ._rateLimiter st)
                       - RateLimiter.count (ApitorQ._rateLimiter st)))
             with 0%nat by lia.
           reflexivity.
Qed.

Lemma sends_X_run (ms : list (string * list jsval * Z)) :
  forall st : ApitorX.t,
    ApitorX.isConnected st = Normal true st ->
    0 <= RateLimiter.count (ApitorX._rateLimiter st)
      <= RateLimiter.maxRate (ApitorX._rateLimiter st) ->
    Forall (fun m => RateLimiter.in_window (ApitorX._rateLimiter st) (snd m))
           ms ->
    exists st',
      sends_X ms st = Normal tt st' /\
      ApitorX.transmitted st' =
        ApitorX.transmitted st
          ++ map (fun m => request_X (fst (fst m)) (snd (fst m)))
                 (firstn (Z.to_nat
                            (RateLimiter.maxRate (ApitorX._rateLimiter st)
                             - RateLimiter.count (ApitorX._rateLimiter st)))
                         ms).
Proof.
  induction ms as [|[[uuid message] now] ms IH]; intros st Hc Hcount Hall.
  - exists st. split; [reflexivity|]. rewrite firstn_nil. cbn.
    now rewrite app_nil_r.
  - inversion Hall as [|? ? Hnow Hrest]; subst. cbn [snd] in Hnow.
    destruct (send_X_limited_run uuid message now st Hc)
      as (st1 & Hrun1 & Htx1 & Hrl1 & _ & _ & Hc1).
    destruct (Z.ltb_spec (RateLimiter.count (ApitorX._rateLimiter st))
                (RateLimiter.maxRate (ApitorX._rateLimiter st)))
      as [Hroom | Hfull].
    + rewrite (okayToSend_below now _ Hnow Hroom) in Htx1, Hrl1, Hrun1.
      cbn [fst snd] in Htx1, Hrl1, Hrun1.
      destruct (IH st1 Hc1) as (st' & Hrun & Htx).
      * rewrite Hrl1. cbn. lia.
      * rewrite Hrl1. exact Hrest.
      * exists st'. split.
        -- cbn [sends_X]. unfold bind. now rewrite Hrun1.
        -- rewrite Htx, Htx1, Hrl1, <- app_assoc. cbn [RateLimiter.maxRate
             RateLimiter.count]. f_equal.
           replace (Z.to_nat
                      (RateLimiter.maxRate (ApitorX._rateLimiter st)
                       - RateLimiter.count (ApitorX._rateLimiter st)))
             with (S (Z.to_nat
                        (RateLimiter.maxRate (ApitorX._rateLimiter st)
                         - (RateLimiter.count (ApitorX._rateLimiter st) + 1))))
             by lia.
           reflexivity.
    + rewrite (okayToSend_full now _ Hnow Hfull) in Htx1, Hrl1, Hrun1.
      cbn [fst snd] in Htx1, Hrl1, Hrun1.
      destruct (IH st1 Hc1) as (st' & Hrun & Htx).
      * now rewrite Hrl1.
      * now rewrite Hrl1.
      * exists st'. split.
        -- cbn [sends_X]. unfold bind. now rewrite Hrun1.
        -- rewrite Htx, Htx1, Hrl1, app_nil_r.
           replace (Z.to_nat
                      (RateLimiter.maxRate (ApitorX._rateLimiter st)
                       - RateLimiter.count (ApitorX._rateLimiter st)))
             with 0%nat by lia.
           reflexivity.
Qed.

(** X18 — within a window the first sends win.  On a connected peripheral
    whose window has counted c of its ceiling m, any sequence of
    rate-limited sends issued inside that window writes exactly its first
    m - c messages, in order, and drops every later one. *)
Theorem sends_within_a_window_write_the_first_remaining :
  (forall (ms : list (string * list jsval * Z)) (st : ApitorQ.t),
      ApitorQ.isConnected st = Normal true st ->
      0 <= RateLimiter.count (ApitorQ._rateLimiter st)
        <= RateLimiter.maxRate (ApitorQ._rateLimiter st) ->
      Forall (fun m => RateLimiter.in_window (ApitorQ._rateLimiter st) (snd m))
             ms ->
      exists st',
        sends_Q ms st = Normal tt st' /\
        ApitorQ.transmitted st' =
          ApitorQ.transmitted st
            ++ map (fun m => request_Q (fst (fst m)) (snd (fst m)))
                   (firstn (Z.to_nat
                              (RateLimiter.maxRate (ApitorQ._rateLimiter st)
                               - RateLimiter.count (ApitorQ._rateLimiter st)))
                           ms)) /\
  (forall (ms : list (string * list jsval * Z)) (st : ApitorX.t),
      ApitorX.isConnected st = Normal true st ->
      0 <= RateLimiter.count (ApitorX._rateLimiter st)
        <= RateLimiter.maxRate (ApitorX._rateLimiter st) ->
      Forall (fun m => RateLimiter.in_window (ApitorX._rateLimiter st) (snd m))
             ms ->
      exists st',
        sends_X ms st = Normal tt st' /\
        ApitorX.transmitted st' =
          ApitorX.transmitted st
            ++ map (fun m => request_X (fst (fst m)) (snd (fst m)))
                   (firstn (Z.to_nat
                              (RateLimiter.maxRate (ApitorX._rateLimiter st)
                               - RateLimiter.count (ApitorX._rateLimiter st)))
                           ms)).
Proof.
  split; intros ms st.
  - apply sends_Q_run.
  - apply sends_X_run.
Qed.

Lemma sends_within_a_window_write_the_first_remaining_witness :
  exists st',
    sends_Q [(ApitorQ_BleUuids.UUID_CHARACTERISTIC_WRITE, stop_motors_cmd, 20);
             (ApitorQ_BleUuids.UUID_CHARACTERISTIC_WRITE, leds_off_cmd, 21)]
      (after (session_Q 18) (ApitorQ.constructor 0)) = Normal tt st' /\
    ApitorQ.transmitted st' =
      ApitorQ.transmitted (after (session_Q 18) (ApitorQ.constructor 0))
        ++ [command_Q stop_motors_cmd].
Proof.
  destruct (proj1 sends_within_a_window_write_the_first_remaining
              [(ApitorQ_BleUuids.UUID_CHARACTERISTIC_WRITE, stop_motors_cmd, 20);
               (ApitorQ_BleUuids.UUID_CHARACTERISTIC_WRITE, leds_off_cmd, 21)]
              (after (session_Q 18) (ApitorQ.constructor 0)))
    as (st' & Hrun & Htx).
  - vm_compute. reflexivity.
  - vm_compute. split; discriminate.
  - repeat (apply Forall_cons;
            [unfold RateLimiter.in_window; vm_compute;
             split; [discriminate | reflexivity]|]).
    apply Forall_nil.
  - exists st'. split; [exact Hrun|]. rewrite Htx. vm_compute. reflexivity.
Defined.

(** ** Connecting and disconnecting, end to end *)

Lemma connecting_Q_run (id now : Z) (st : ApitorQ.t) :
  exists st',
    (ApitorQ.scan ;; ApitorQ.connect id ;;
     ApitorQ.link_established now)%js st = Normal tt st' /\
    ApitorQ.isConnected st' = Normal true st' /\
    ApitorQ.transmitted st' =
      (if fst (RateLimiter.okayToSend now (ApitorQ._rateLimiter st))
       then [command_Q (map JNum ApitorQ.password)] else []) /\
    subscriptions_Q st' =
      [(ApitorQ_BleUuids.UUID_SERVICE,
        ApitorQ_BleUuids.UUID_CHARACTERISTIC_READ_NOTIFY)] /\
    ApitorQ.snapshot st' = ApitorQ.snapshot st /\
    ApitorQ._rateLimiter st' =
      snd (RateLimiter.okayToSend now (ApitorQ._rateLimiter st)).
Proof.
  set (b := BLE.set_connected true
              (BLE.connectPeripheral id
                 (BLE.new [ApitorQ_BleUuids.UUID_SERVICE] "ApitorTQ"))).
  set (st3 := ApitorQ.set_ble (Some b) st).
  assert (Hseq : (ApitorQ.scan ;; ApitorQ.connect id ;;
                  ApitorQ.link_established now)%js st =
                 ApitorQ._onConnect now st3).
  { unfold ApitorQ.scan, ApitorQ.connect, ApitorQ.link_established,
      ApitorQ.on_ble, bind, get, put, modify, ret.
    destruct (ApitorQ._ble st); reflexivity. }
  rewrite Hseq.
  assert (Hc3 : ApitorQ.isConnected st3 = Normal true st3)
    by (now rewrite isConnected_Q_run).
  unfold ApitorQ._onConnect, ApitorQ._sendPassword, bind.
  destruct (RateLimiter.okayToSend now (ApitorQ._rateLimiter st))
    as [[|] rl] eqn:Hok; cbn [fst snd].
  - rewrite (send_Q_permitted _ _ _ st3 b rl eq_refl eq_refl Hok).
    unfold ApitorQ.on_ble.
    cbn [ApitorQ._ble ApitorQ.set_ble ApitorQ.set_rateLimiter].
    eexists. split; [reflexivity|].
    rewrite isConnected_Q_run. repeat split.
  - rewrite (send_Q_rejected _ _ _ st3 rl Hc3 Hok).
    unfold ApitorQ.on_ble.
    cbn [ApitorQ._ble ApitorQ.set_ble ApitorQ.set_rateLimiter].
    eexists. split; [reflexivity|].
    rewrite isConnected_Q_run. repeat split.
Qed.

Lemma disconnected_Q_commands (st : ApitorQ.t) :
  ApitorQ.isConnected st = Normal false st ->
  (forall id speed now,
      ApitorQ.setMotor id speed now st = Normal Promise_resolve st) /\
  (forall id color offTime onTime now,
      ApitorQ.setLED id color offTime onTime now st =
      Normal Promise_resolve st) /\
  (forall now1 now2, ApitorQ.stopAll now1 now2 st = Normal tt st) /\
  (forall now, ApitorQ._sendPassword now st = Normal tt st).
Proof.
  intros Hc. split; [|split; [|split]]; intros.
  - now apply send_Q_disconnected.
  - now apply send_Q_disconnected.
  - unfold ApitorQ.stopAll, bind. now rewrite Hc.
  - unfold ApitorQ._sendPassword, bind. now rewrite send_Q_disconnected.
Qed.

Lemma connecting_X_run (id now : Z) (st : ApitorX.t) :
  exists st',
    (ApitorX.scan ;; ApitorX.connect id ;;
     ApitorX.link_established now)%js st = Normal tt st' /\
    ApitorX.isConnected st' = Normal true st' /\
    ApitorX.transmitted st' =
      (if fst (RateLimiter.okayToSend now (ApitorX._rateLimiter st))
       then [command_X (map JNum ApitorX.password)] else []) /\
    subscriptions_X st' =
      [(ApitorX_BleUuids.UUID_SERVICE,
        ApitorX_BleUuids.UUID_CHARACTERISTIC_READ_NOTIFY)] /\
    ApitorX.snapshot st' = ApitorX.snapshot st /\
    ApitorX._rateLimiter st' =
      snd (RateLimiter.okayToSend now (ApitorX._rateLimiter st)).
Proof.
  set (b := BLE.set_connected true
              (BLE.connectPeripheral id
                 (BLE.new [ApitorX_BleUuids.UUID_SERVICE] "ApitorTX"))).
  set (st3 := ApitorX.set_ble (Some b) st).
  assert (Hseq : (ApitorX.scan ;; ApitorX.connect id ;;
                  ApitorX.link_established now)%js st =
                 ApitorX._onConnect now st3).
  { unfold ApitorX.scan, ApitorX.connect, ApitorX.link_established,
      ApitorX.on_ble, bind, get, put, modify, ret.
    destruct (ApitorX._ble st); reflexivity. }
  rewrite Hseq.
  assert (Hc3 : ApitorX.isConnected st3 = Normal true st3)
    by (now rewrite isConnected_X_run).
  unfold ApitorX._onConnect, ApitorX._sendPassword, bind.
  destruct (RateLimiter.okayToSend now (ApitorX._rateLimiter st))
    as [[|] rl] eqn:Hok; cbn [fst snd].
  - rewrite (send_X_permitted _ _ _ st3 b rl eq_refl eq_refl Hok).
    unfold ApitorX.on_ble.
    cbn [ApitorX._ble ApitorX.set_ble ApitorX.set_rateLimiter].
    eexists. split; [reflexivity|].
    rewrite isConnected_X_run. repeat split.
  - rewrite (send_X_rejected _ _ _ st3 rl Hc3 Hok).
    unfold ApitorX.on_ble.
    cbn [ApitorX._ble ApitorX.set_ble ApitorX.set_rateLimiter].
    eexists. split; [reflexivity|].
    rewrite isConnected_X_run. repeat split.
Qed.

Lemma disconnected_X_commands (st : ApitorX.t) :
  ApitorX.isConnected st = Normal false st ->
  (forall id speed now,
      ApitorX.setMotor id speed now st = Normal Promise_resolve st) /\
  (forall id color offTime onTime now,
      ApitorX.setLED id color offTime onTime now st =
      Normal Promise_resolve st) /\
  (forall now1 now2, ApitorX.stopAll now1 now2 st = Normal tt st) /\
  (forall now, ApitorX._sendPassword now st = Normal tt st).
Proof.
  intros Hc. split; [|split; [|split]]; intros.
  - now apply send_X_disconnected.
  - now apply send_X_disconnected.
  - unfold ApitorX.stopAll, bind. now rewrite Hc.
  - unfold ApitorX._sendPassword, bind. now rewrite send_X_disconnected.
Qed.

(** X19 — the connection sequence.  From any state, [scan()], [connect(id)]
    and the link coming up leave the peripheral connected on a fresh socket
    with exactly one subscription, to the notify characteristic; the only
    write on the new socket is the password, and it is there exactly when
    the rate limiter allowed it; the sensor fields are what they were before
    the scan. *)
Theorem connection_sequence :
  (forall (id now : Z) (st : ApitorQ.t),
      exists st',
        (ApitorQ.scan ;; ApitorQ.connect id ;;
         ApitorQ.link_established now)%js st = Normal tt st' /\
        ApitorQ.isConnected st' = Normal true st' /\
        ApitorQ.transmitted st' =
          (if fst (RateLimiter.okayToSend now (ApitorQ._rateLimiter st))
           then [command_Q (map JNum ApitorQ.password)] else []) /\
        subscriptions_Q st' =
          [(ApitorQ_BleUuids.UUID_SERVICE,
            ApitorQ_BleUuids.UUID_CHARACTERISTIC_READ_NOTIFY)] /\
        ApitorQ.snapshot st' = ApitorQ.snapshot st /\
        ApitorQ._rateLimiter st' =
          snd (RateLimiter.okayToSend now (ApitorQ._rateLimiter st))) /\
  (forall (id now : Z) (st : ApitorX.t),
      exists st',
        (ApitorX.scan ;; ApitorX.connect id ;;
         ApitorX.link_established now)%js st = Normal tt st' /\
        ApitorX.isConnected st' = Normal true st' /\
        ApitorX.transmitted st' =
          (if fst (RateLimiter.okayToSend now (ApitorX._rateLimiter st))
           then [command_X (map JNum ApitorX.password)] else []) /\
        subscriptions_X st' =
          [(ApitorX_BleUuids.UUID_SERVICE,
            ApitorX_BleUuids.UUID_CHARACTERISTIC_READ_NOTIFY)] /\
        ApitorX.snapshot st' = ApitorX.snapshot st /\
        ApitorX._rateLimiter st' =
          snd (RateLimiter.okayToSend now (ApitorX._rateLimiter st))).
Proof.
  split; intros id now st.
  - apply connecting_Q_run.
  - apply connecting_X_run.
Qed.

(** X20 — after [disconnect()] every command is a no-op.  In the state
    [disconnect()] leaves, [setMotor], [setLED], [stopAll] and
    [_sendPassword] all return without changing anything: nothing is
    written and the rate limiter is not even asked, so sends made while
    disconnected do not use up the window. *)
Theorem commands_after_disconnect_change_nothing :
  (forall st : ApitorQ.t,
      exists st',
        ApitorQ.disconnect st = Normal tt st' /\
        (forall id speed now,
            ApitorQ.setMotor id speed now st' = Normal Promise_resolve st') /\
        (forall id color offTime onTime now,
            ApitorQ.setLED id color offTime onTime now st' =
            Normal Promise_resolve st') /\
        (forall now1 now2, ApitorQ.stopAll now1 now2 st' = Normal tt st') /\
        (forall now, ApitorQ._sendPassword now st' = Normal tt st')) /\
  (forall st : ApitorX.t,
      exists st',
        ApitorX.disconnect st = Normal tt st' /\
        (forall id speed now,
            ApitorX.setMotor id speed now st' = Normal Promise_resolve st') /\
        (forall id color offTime onTime now,
            ApitorX.setLED id color offTime onTime now st' =
            Normal Promise_resolve st') /\
        (forall now1 now2, ApitorX.stopAll now1 now2 st' = Normal tt st') /\
        (forall now, ApitorX._sendPassword now st' = Normal tt st')).
Proof.
  split; intros st; eexists.
  - split; [apply disconnect_Q_run|]. apply disconnected_Q_commands.
    rewrite isConnected_Q_run.
    destruct (ApitorQ._ble st) eqn:Hb; cbn; rewrite ?Hb; reflexivity.
  - split; [apply disconnect_X_run|]. apply disconnected_X_commands.
    rewrite isConnected_X_run.
    destruct (ApitorX._ble st) eqn:Hb; cbn; rewrite ?Hb; reflexivity.
Qed.
